(** * spus_load_test: the load-test engine of [app.py]

    A shallow embedding of the statistics engine ([LoadTestResult] and its
    derived metrics), of the virtual users and the test runner
    ([simulate_user], [run_load_test]), of the bounded test history and of the
    aggregate report ([get_performance_metrics]), followed by the properties
    the specification states about them.  The mock gateway
    ([process_payment]) and the two read-only endpoints ([get_test_history],
    [get_system_status]) are embedded as well, with further properties of
    the runner, of the statistics and of the report read off the code.

    Python values are modelled as the program has them:
    - [int] is [Z] (unbounded);
    - [float] is the kernel's binary64 type [float]; every operation on it is
      the IEEE-754 one, rounding included;
    - a raised exception is the [Raise] case of the monad [py];
    - a list is a [list]; [deque(maxlen=50)] is a list trimmed on the left. *)

From Stdlib Require Import ZArith Lia List Bool Sorted Permutation.
From Stdlib Require Import QArith Qround.
From Stdlib Require Import Floats.
From stdpp Require Import base tactics option list relations.
From Stdlib Require Import Ascii.
From stdpp Require Import strings pretty sorting.

Set Warnings "-inexact-float".

Open Scope Z_scope.

(* ===================================================================== *)
(** * Python values and exceptions *)
(* ===================================================================== *)

Module Py.

(** The exceptions the modelled code can raise. *)
Inductive exn :=
| ZeroDivisionError
| IndexError
| OverflowError
| ValueError.

(** A computation that returns a value or raises. *)
Inductive py (A : Type) :=
| Return (a : A)
| Raise (e : exn).
Arguments Return {A} a.
Arguments Raise {A} e.

#[export] Instance py_ret : MRet py := fun _ a => Return a.
#[export] Instance py_bind : MBind py := fun _ _ k m =>
  match m with
  | Return a => k a
  | Raise e => Raise e
  end.
#[export] Instance py_fmap : FMap py := fun _ _ g m =>
  match m with
  | Return a => Return (g a)
  | Raise e => Raise e
  end.

(** A Python number: an [int] or a [float]. *)
Inductive number :=
| PyInt (z : Z)
| PyFloat (f : float).

(** An [int] read as an exact binary value [z * 2^0]. *)
Definition Z2SF (z : Z) : spec_float :=
  match z with
  | Z0 => S754_zero false
  | Zpos p => S754_finite false p 0
  | Zneg p => S754_finite true p 0
  end.

(** [float(z)]: the nearest binary64 value, ties to even;
    [OverflowError] when [z] is too large. *)
Definition float_of_int (z : Z) : py float :=
  match binary_normalize prec emax z 0 false with
  | S754_infinity _ => Raise OverflowError
  | x => Return (SF2Prim x)
  end.

(** [a / b] on two [int]s: the correctly rounded quotient. *)
Definition int_truediv (a b : Z) : py float :=
  if b =? 0 then Raise ZeroDivisionError
  else match SFdiv prec emax (Z2SF a) (Z2SF b) with
       | S754_infinity _ => Raise OverflowError
       | q => Return (SF2Prim q)
       end.

(** The operand of a mixed operation, converted to [float]. *)
Definition as_float (x : number) : py float :=
  match x with
  | PyInt z => float_of_int z
  | PyFloat f => Return f
  end.

(** [x + y] *)
Definition add (x y : number) : py number :=
  match x, y with
  | PyInt a, PyInt b => Return (PyInt (a + b))
  | _, _ => f ← as_float x; g ← as_float y; Return (PyFloat (f + g))
  end.

(** [x * y] *)
Definition mul (x y : number) : py number :=
  match x, y with
  | PyInt a, PyInt b => Return (PyInt (a * b))
  | _, _ => f ← as_float x; g ← as_float y; Return (PyFloat (f * g))
  end.

(** [x / y] (true division) *)
Definition truediv (x y : number) : py number :=
  match x, y with
  | PyInt a, PyInt b => PyFloat <$> int_truediv a b
  | _, _ =>
      f ← as_float x; g ← as_float y;
      if is_zero g then Raise ZeroDivisionError
      else Return (PyFloat (f / g))
  end.

(** [x > 0] *)
Definition gt_zero (x : number) : bool :=
  match x with
  | PyInt a => 0 <? a
  | PyFloat f => (0 <? f)%float
  end.

(** [int(x)] on a [float]: truncation towards zero. *)
Definition int_of_float (f : float) : py Z :=
  match Prim2SF f with
  | S754_zero _ => Return 0
  | S754_finite s m e => Return (cond_Zopp s (Z.shiftl (Zpos m) e))
  | S754_infinity _ => Raise OverflowError
  | S754_nan => Raise ValueError
  end.

(** [int(x)] *)
Definition int (x : number) : py Z :=
  match x with
  | PyInt z => Return z
  | PyFloat f => int_of_float f
  end.

(** [len(xs)] *)
Definition len {A} (xs : list A) : Z := Z.of_nat (length xs).

(** [sum(xs)]: starts from the [int] 0 and adds from left to right. *)
Fixpoint sum_from (acc : number) (xs : list number) : py number :=
  match xs with
  | [] => Return acc
  | x :: xs' => acc' ← add acc x; sum_from acc' xs'
  end.

Definition sum (xs : list number) : py number := sum_from (PyInt 0) xs.

(** [min(xs)] and [max(xs)] on a non-empty sequence [x :: xs]: one pass,
    the running value replaced when [item < it] (resp. [item > it]). *)
Definition min (x : float) (xs : list float) : float :=
  fold_left (fun it item => if (item <? it)%float then item else it) xs x.

Definition max (x : float) (xs : list float) : float :=
  fold_left (fun it item => if (it <? item)%float then item else it) xs x.

(** [sorted(xs)]: a stable ascending sort that only ever asks [<].
    On a sequence without NaN every stable sort returns this list. *)
Fixpoint insert (x : float) (l : list float) : list float :=
  match l with
  | [] => [x]
  | y :: l' => if (y <? x)%float then y :: insert x l' else x :: y :: l'
  end.

Definition sorted (xs : list float) : list float := fold_right insert [] xs.

(** [xs[i]]: a negative index counts from the end. *)
Definition getitem {A} (xs : list A) (i : Z) : py A :=
  let i' := if i <? 0 then i + len xs else i in
  if (i' <? 0) || (len xs <=? i') then Raise IndexError
  else match xs !! Z.to_nat i' with
       | Some x => Return x
       | None => Raise IndexError
       end.

(** [d.append(x)] on a [deque(maxlen=maxlen)]: append on the right, then
    drop from the left while the bound is exceeded. *)
Definition deque_append {A} (maxlen : nat) (x : A) (d : list A) : list A :=
  let d' := d ++ [x] in
  if (maxlen <? length d')%nat then tail d' else d'.

End Py.
Import Py.

(* ===================================================================== *)
(** * [LoadTestResult] *)
(* ===================================================================== *)

(** A [datetime], counted in microseconds (its resolution). *)
Definition datetime := Z.

Record LoadTestResult := mkLoadTestResult {
  total_requests : Z;
  successful_requests : Z;
  failed_requests : Z;
  response_times : list float;
  start_time : option datetime;
  end_time : option datetime;
  concurrent_users : Z;
  test_duration : Z
}.

(** [LoadTestResult()] *)
Definition LoadTestResult__init__ : LoadTestResult :=
  {| total_requests := 0;
     successful_requests := 0;
     failed_requests := 0;
     response_times := [];
     start_time := None;
     end_time := None;
     concurrent_users := 0;
     test_duration := 0 |}.

(** Attribute assignments [self.x = v]. *)
Definition set_total_requests (v : Z) (self : LoadTestResult) :=
  mkLoadTestResult v (successful_requests self) (failed_requests self)
    (response_times self) (start_time self) (end_time self)
    (concurrent_users self) (test_duration self).

Definition set_successful_requests (v : Z) (self : LoadTestResult) :=
  mkLoadTestResult (total_requests self) v (failed_requests self)
    (response_times self) (start_time self) (end_time self)
    (concurrent_users self) (test_duration self).

Definition set_failed_requests (v : Z) (self : LoadTestResult) :=
  mkLoadTestResult (total_requests self) (successful_requests self) v
    (response_times self) (start_time self) (end_time self)
    (concurrent_users self) (test_duration self).

Definition set_response_times (v : list float) (self : LoadTestResult) :=
  mkLoadTestResult (total_requests self) (successful_requests self)
    (failed_requests self) v (start_time self) (end_time self)
    (concurrent_users self) (test_duration self).

Definition set_start_time (v : option datetime) (self : LoadTestResult) :=
  mkLoadTestResult (total_requests self) (successful_requests self)
    (failed_requests self) (response_times self) v (end_time self)
    (concurrent_users self) (test_duration self).

Definition set_end_time (v : option datetime) (self : LoadTestResult) :=
  mkLoadTestResult (total_requests self) (successful_requests self)
    (failed_requests self) (response_times self) (start_time self) v
    (concurrent_users self) (test_duration self).

Definition set_concurrent_users (v : Z) (self : LoadTestResult) :=
  mkLoadTestResult (total_requests self) (successful_requests self)
    (failed_requests self) (response_times self) (start_time self)
    (end_time self) v (test_duration self).

Definition set_test_duration (v : Z) (self : LoadTestResult) :=
  mkLoadTestResult (total_requests self) (successful_requests self)
    (failed_requests self) (response_times self) (start_time self)
    (end_time self) (concurrent_users self) v.

(** ** The derived metrics (the [@property] accessors) *)

Definition avg_response_time (self : LoadTestResult) : py number :=
  match response_times self with
  | [] => Return (PyInt 0)
  | _ =>
      s ← sum (PyFloat <$> response_times self);
      truediv s (PyInt (len (response_times self)))
  end.

Definition min_response_time (self : LoadTestResult) : py number :=
  match response_times self with
  | [] => Return (PyInt 0)
  | x :: xs => Return (PyFloat (min x xs))
  end.

Definition max_response_time (self : LoadTestResult) : py number :=
  match response_times self with
  | [] => Return (PyInt 0)
  | x :: xs => Return (PyFloat (max x xs))
  end.

Definition p95_response_time (self : LoadTestResult) : py number :=
  match response_times self with
  | [] => Return (PyInt 0)
  | _ =>
      let sorted_times := sorted (response_times self) in
      x ← mul (PyInt (len sorted_times)) (PyFloat 0.95);
      index ← int x;
      PyFloat <$> getitem sorted_times index
  end.

Definition p99_response_time (self : LoadTestResult) : py number :=
  match response_times self with
  | [] => Return (PyInt 0)
  | _ =>
      let sorted_times := sorted (response_times self) in
      x ← mul (PyInt (len sorted_times)) (PyFloat 0.99);
      index ← int x;
      PyFloat <$> getitem sorted_times index
  end.

Definition success_rate (self : LoadTestResult) : py number :=
  if 0 <? total_requests self then
    q ← truediv (PyInt (successful_requests self)) (PyInt (total_requests self));
    mul q (PyInt 100)
  else Return (PyInt 0).

(** [td.total_seconds()] of a [timedelta] of [td] microseconds. *)
Definition total_seconds (td : Z) : py number :=
  truediv (PyInt td) (PyInt 1000000).

Definition requests_per_second (self : LoadTestResult) : py number :=
  match start_time self, end_time self with
  | Some st, Some et =>
      if total_requests self =? 0 then Return (PyInt 0)
      else
        duration ← total_seconds (et - st);
        if gt_zero duration
        then truediv (PyInt (total_requests self)) duration
        else Return (PyInt 0)
  | _, _ => Return (PyInt 0)
  end.

(** ** [to_dict]: the snapshot stored in the history and returned *)

Module Dict.
(** The dictionary [to_dict] builds, one field per key.  The two
    timestamps are kept as they are ([isoformat] only renders them). *)
Record t := mk {
  total_requests : Z;
  successful_requests : Z;
  failed_requests : Z;
  avg_response_time : number;
  min_response_time : number;
  max_response_time : number;
  p95_response_time : number;
  p99_response_time : number;
  start_time : option datetime;
  end_time : option datetime;
  concurrent_users : Z;
  test_duration : Z;
  success_rate : number;
  requests_per_second : number
}.
End Dict.

Definition to_dict (self : LoadTestResult) : py Dict.t :=
  avg ← avg_response_time self;
  mn ← min_response_time self;
  mx ← max_response_time self;
  p95 ← p95_response_time self;
  p99 ← p99_response_time self;
  rate ← success_rate self;
  rps ← requests_per_second self;
  Return {| Dict.total_requests := total_requests self;
            Dict.successful_requests := successful_requests self;
            Dict.failed_requests := failed_requests self;
            Dict.avg_response_time := avg;
            Dict.min_response_time := mn;
            Dict.max_response_time := mx;
            Dict.p95_response_time := p95;
            Dict.p99_response_time := p99;
            Dict.start_time := start_time self;
            Dict.end_time := end_time self;
            Dict.concurrent_users := concurrent_users self;
            Dict.test_duration := test_duration self;
            Dict.success_rate := rate;
            Dict.requests_per_second := rps |}.

(* ===================================================================== *)
(** * [simulate_user]: one virtual user *)
(* ===================================================================== *)

(** What [requests.post] did: a response with its status code, the
    [requests.exceptions.Timeout] exception, or any other exception. *)
Inductive outcome :=
| Response (status_code : Z)
| Timeout
| OtherException.

(** The statements found inside the three [with lock:] blocks. *)
Inductive stmt :=
| IncTotal                            (* result.total_requests += 1 *)
| IncSuccessful                       (* result.successful_requests += 1 *)
| IncFailed                           (* result.failed_requests += 1 *)
| Append (response_time_ms : float).  (* result.response_times.append(..) *)

Definition exec (s : stmt) (result : LoadTestResult) : LoadTestResult :=
  match s with
  | IncTotal => set_total_requests (total_requests result + 1) result
  | IncSuccessful =>
      set_successful_requests (successful_requests result + 1) result
  | IncFailed => set_failed_requests (failed_requests result + 1) result
  | Append response_time_ms =>
      set_response_times (response_times result ++ [response_time_ms]) result
  end.

(** The [with lock:] block [simulate_user] runs for each outcome. *)
Definition locked_block (o : outcome) (response_time_ms : float) : list stmt :=
  match o with
  | Response status_code =>
      [ IncTotal;
        if status_code =? 200 then IncSuccessful else IncFailed;
        Append response_time_ms ]
  | Timeout => [ IncTotal; IncFailed; Append response_time_ms ]
  | OtherException => [ IncTotal; IncFailed; Append response_time_ms ]
  end.

Definition run_block (block : list stmt) (result : LoadTestResult)
  : LoadTestResult :=
  fold_left (fun r s => exec s r) block result.

(** A whole [with lock:] block, taken as one update of the result. *)
Definition record (o : outcome) (response_time_ms : float)
    (result : LoadTestResult) : LoadTestResult :=
  run_block (locked_block o response_time_ms) result.

(** Where a virtual user's thread stands. *)
Inductive thread :=
| Started (user_id : Z)                       (* t.start() was called *)
| Requesting (user_id : Z) (start_time : float)  (* inside requests.post *)
| Waiting (block : list stmt)                 (* at [with lock:] *)
| Holding (rest : list stmt)                  (* inside the block *)
| Exited.

(* ===================================================================== *)
(** * [run_load_test]: the test runner and the test history *)
(* ===================================================================== *)

(** [test_history = deque(maxlen=50)] *)
Definition test_history_maxlen : nat := 50.

Definition test_history_append (d : Dict.t) (test_history : list Dict.t)
  : list Dict.t :=
  deque_append test_history_maxlen d test_history.

(** Where the request handler stands. *)
Inductive control :=
| Spawning (i : Z)         (* for i in range(users): *)
| Joining (j : nat)        (* for t in threads: t.join(timeout=duration + 5) *)
| Finalizing               (* result.end_time = datetime.now() *)
| Storing                  (* test_history.append(result.to_dict()) *)
| Replying                 (* return jsonify(result.to_dict()) *)
| Returned (d : Dict.t)
| Failed (e : exn).

Record World := mkWorld {
  result : LoadTestResult;
  locked : bool;                 (* the state of [lock] *)
  threads : list thread;
  pc : control;
  test_history : list Dict.t
}.

Definition set_result (v : LoadTestResult) (w : World) :=
  mkWorld v (locked w) (threads w) (pc w) (test_history w).
Definition set_locked (v : bool) (w : World) :=
  mkWorld (result w) v (threads w) (pc w) (test_history w).
Definition set_threads (v : list thread) (w : World) :=
  mkWorld (result w) (locked w) v (pc w) (test_history w).
Definition set_pc (v : control) (w : World) :=
  mkWorld (result w) (locked w) (threads w) v (test_history w).
Definition set_test_history (v : list Dict.t) (w : World) :=
  mkWorld (result w) (locked w) (threads w) (pc w) v.

(** The handler up to the thread loop: a fresh result carrying the start
    time and the two inputs, a free lock, no thread. *)
Definition run_load_test_init (users duration : Z) (now : datetime)
    (history : list Dict.t) : World :=
  {| result :=
       set_test_duration duration
         (set_concurrent_users users
            (set_start_time (Some now) LoadTestResult__init__));
     locked := false;
     threads := [];
     pc := Spawning 0;
     test_history := history |}.

(** [test_history.append(result.to_dict())] *)
Definition store (w : World) : World :=
  match to_dict (result w) with
  | Return d =>
      set_pc Replying (set_test_history (test_history_append d (test_history w)) w)
  | Raise e => set_pc (Failed e) w
  end.

(** [return jsonify(result.to_dict())] *)
Definition reply (w : World) : World :=
  match to_dict (result w) with
  | Return d => set_pc (Returned d) w
  | Raise e => set_pc (Failed e) w
  end.

(** [threading.TIMEOUT_MAX], in seconds (CPython on a 64-bit platform):
    the largest timeout [join] accepts; with a larger one it raises
    [OverflowError] before it waits. *)
Definition TIMEOUT_MAX : Z := 9223372036.

(** One step of the handler or of one of its threads.  Clock readings and
    the outcome of a request come from outside.  [join] has a timeout, so
    the handler may move past a thread whether or not it has exited; it
    raises [OverflowError] when the timeout [duration + 5] exceeds
    [TIMEOUT_MAX] (a negative timeout counts as 0).  Starting a thread
    is taken to succeed: running out of threads or memory is not modelled.
    The handler never takes [lock].  The handler's local [duration] is read back from
    [result.test_duration], which the handler set to it and which nothing
    changes.  These are the steps of one call and of its threads; what
    other requests do meanwhile is in [step_shared]. *)
Inductive step (users : Z) (w : World) : World -> Prop :=
| step_spawn i :
    pc w = Spawning i -> i < users ->
    step users w (set_pc (Spawning (i + 1))
                    (set_threads (threads w ++ [Started (i + 1)]) w))
| step_spawned i :
    pc w = Spawning i -> users <= i ->
    step users w (set_pc (Joining 0) w)
| step_join j :
    pc w = Joining j -> (j < length (threads w))%nat ->
    test_duration (result w) + 5 <= TIMEOUT_MAX ->
    step users w (set_pc (Joining (S j)) w)
| step_join_overflow j :
    pc w = Joining j -> (j < length (threads w))%nat ->
    TIMEOUT_MAX < test_duration (result w) + 5 ->
    step users w (set_pc (Failed OverflowError) w)
| step_joined j :
    pc w = Joining j -> (length (threads w) <= j)%nat ->
    step users w (set_pc Finalizing w)
| step_finalize (now : datetime) :
    pc w = Finalizing ->
    step users w (set_pc Storing (set_result (set_end_time (Some now) (result w)) w))
| step_store :
    pc w = Storing ->
    step users w (store w)
| step_reply :
    pc w = Replying ->
    step users w (reply w)
| step_begin t user_id (clock : float) :
    threads w !! t = Some (Started user_id) ->
    step users w (set_threads (<[t := Requesting user_id clock]> (threads w)) w)
| step_outcome t user_id start_time (o : outcome) (clock : float) :
    threads w !! t = Some (Requesting user_id start_time) ->
    step users w
      (set_threads
         (<[t := Waiting (locked_block o ((clock - start_time) * 1000)%float)]>
            (threads w)) w)
| step_acquire t block :
    threads w !! t = Some (Waiting block) -> locked w = false ->
    step users w (set_locked true (set_threads (<[t := Holding block]> (threads w)) w))
| step_exec t s rest :
    threads w !! t = Some (Holding (s :: rest)) ->
    step users w
      (set_result (exec s (result w))
         (set_threads (<[t := Holding rest]> (threads w)) w))
| step_release t :
    threads w !! t = Some (Holding []) ->
    step users w (set_locked false (set_threads (<[t := Exited]> (threads w)) w)).

(** The worlds a call [run_load_test] with these inputs can be in. *)
Definition reachable (users duration : Z) (now : datetime)
    (history : list Dict.t) (w : World) : Prop :=
  rtc (step users) (run_load_test_init users duration now history) w.

(** [test_history] is a module-level object and the server is threaded:
    while this call runs, another call of [run_load_test] may append its
    own snapshot [d].  A step of the shared system is a step of this call
    or such an append. *)
Inductive step_shared (users : Z) (w : World) : World -> Prop :=
| shared_own w' :
    step users w w' -> step_shared users w w'
| shared_other (d : Dict.t) :
    step_shared users w
      (set_test_history (test_history_append d (test_history w)) w).

(** The worlds a call can be in when other calls run beside it. *)
Definition reachable_shared (users duration : Z) (now : datetime)
    (history : list Dict.t) (w : World) : Prop :=
  rtc (step_shared users) (run_load_test_init users duration now history) w.

(* ===================================================================== *)
(** * [get_performance_metrics]: the aggregate report *)
(* ===================================================================== *)

Module Metrics.
Record t := mk {
  total_tests : Z;
  avg_success_rate : number;
  avg_response_time : number;
  avg_throughput : number;
  total_requests : number;
  total_successful : number;
  total_failed : number
}.
End Metrics.

(** [None] stands for the empty dictionary [{}]. *)
Definition get_performance_metrics (test_history : list Dict.t)
  : py (option Metrics.t) :=
  match test_history with
  | [] => Return None
  | _ =>
      s1 ← sum (Dict.success_rate <$> test_history);
      avg_success_rate ← truediv s1 (PyInt (len test_history));
      s2 ← sum (Dict.avg_response_time <$> test_history);
      avg_response_time ← truediv s2 (PyInt (len test_history));
      s3 ← sum (Dict.requests_per_second <$> test_history);
      avg_throughput ← truediv s3 (PyInt (len test_history));
      total_requests ← sum ((fun t => PyInt (Dict.total_requests t)) <$> test_history);
      total_successful ← sum ((fun t => PyInt (Dict.successful_requests t)) <$> test_history);
      total_failed ← sum ((fun t => PyInt (Dict.failed_requests t)) <$> test_history);
      Return (Some {| Metrics.total_tests := len test_history;
                      Metrics.avg_success_rate := avg_success_rate;
                      Metrics.avg_response_time := avg_response_time;
                      Metrics.avg_throughput := avg_throughput;
                      Metrics.total_requests := total_requests;
                      Metrics.total_successful := total_successful;
                      Metrics.total_failed := total_failed |})
  end.

(** ** An executable scheduler

    [fire users ev w] performs the step named by [ev] when it is enabled;
    a list of events is one interleaving of the handler with its threads. *)

Inductive event :=
| ESpawn
| ESpawned
| EJoin
| EJoined
| EFinalize (now : datetime)
| EStore
| EReply
| EBegin (t : nat) (clock : float)
| EOutcome (t : nat) (o : outcome) (clock : float)
| EAcquire (t : nat)
| EExec (t : nat)
| ERelease (t : nat).

Definition fire (users : Z) (ev : event) (w : World) : option World :=
  match ev, pc w with
  | ESpawn, Spawning i =>
      if i <? users
      then Some (set_pc (Spawning (i + 1))
                   (set_threads (threads w ++ [Started (i + 1)]) w))
      else None
  | ESpawned, Spawning i =>
      if users <=? i then Some (set_pc (Joining 0) w) else None
  | EJoin, Joining j =>
      if (j <? length (threads w))%nat
      then if test_duration (result w) + 5 <=? TIMEOUT_MAX
           then Some (set_pc (Joining (S j)) w)
           else Some (set_pc (Failed OverflowError) w)
      else None
  | EJoined, Joining j =>
      if (length (threads w) <=? j)%nat
      then Some (set_pc Finalizing w) else None
  | EFinalize now, Finalizing =>
      Some (set_pc Storing (set_result (set_end_time (Some now) (result w)) w))
  | EStore, Storing => Some (store w)
  | EReply, Replying => Some (reply w)
  | EBegin t clock, _ =>
      match threads w !! t with
      | Some (Started user_id) =>
          Some (set_threads (<[t := Requesting user_id clock]> (threads w)) w)
      | _ => None
      end
  | EOutcome t o clock, _ =>
      match threads w !! t with
      | Some (Requesting user_id start_time) =>
          Some (set_threads
                  (<[t := Waiting (locked_block o ((clock - start_time) * 1000)%float)]>
                     (threads w)) w)
      | _ => None
      end
  | EAcquire t, _ =>
      match threads w !! t, locked w with
      | Some (Waiting block), false =>
          Some (set_locked true (set_threads (<[t := Holding block]> (threads w)) w))
      | _, _ => None
      end
  | EExec t, _ =>
      match threads w !! t with
      | Some (Holding (s :: rest)) =>
          Some (set_result (exec s (result w))
                  (set_threads (<[t := Holding rest]> (threads w)) w))
      | _ => None
      end
  | ERelease t, _ =>
      match threads w !! t with
      | Some (Holding []) =>
          Some (set_locked false (set_threads (<[t := Exited]> (threads w)) w))
      | _ => None
      end
  | _, _ => None
  end.

Fixpoint run (users : Z) (evs : list event) (w : World) : option World :=
  match evs with
  | [] => Some w
  | ev :: evs' =>
      match fire users ev w with
      | Some w' => run users evs' w'
      | None => None
      end
  end.

(* ===================================================================== *)
(** * Predicates used by the statements *)
(* ===================================================================== *)

(** The two invariants of a result: the counters add up and there is one
    latency per request. *)
Definition consistent (r : LoadTestResult) : Prop :=
  total_requests r = successful_requests r + failed_requests r /\
  len (response_times r) = total_requests r /\
  0 <= successful_requests r /\ 0 <= failed_requests r.

(** Every thread the handler started has run to its end. *)
Definition all_exited (w : World) : Prop :=
  Forall (fun t => t = Exited) (threads w).

(** What the lock guarantees in every world of a run. *)
Record world_inv (w : World) : Prop := {
  inv_waiting : forall t b, threads w !! t = Some (Waiting b) ->
                  exists o ms, b = locked_block o ms;
  inv_holding : forall t rest, threads w !! t = Some (Holding rest) ->
                  locked w = true /\ consistent (run_block rest (result w));
  inv_exclusive : forall t t' rest rest',
                  threads w !! t = Some (Holding rest) ->
                  threads w !! t' = Some (Holding rest') -> t = t';
  inv_holder : locked w = true ->
                  exists t rest, threads w !! t = Some (Holding rest);
  inv_free : locked w = false -> consistent (result w)
}.

(** Recording the results [ds], oldest first, into the history [h]. *)
Definition record_all (ds : list Dict.t) (h : list Dict.t) : list Dict.t :=
  fold_left (fun h d => test_history_append d h) ds h.

(** The snapshot of a run in which no request was made. *)
Definition empty_run (users duration : Z) (start finish : option datetime)
  : Dict.t :=
  {| Dict.total_requests := 0;
     Dict.successful_requests := 0;
     Dict.failed_requests := 0;
     Dict.avg_response_time := PyInt 0;
     Dict.min_response_time := PyInt 0;
     Dict.max_response_time := PyInt 0;
     Dict.p95_response_time := PyInt 0;
     Dict.p99_response_time := PyInt 0;
     Dict.start_time := start;
     Dict.end_time := finish;
     Dict.concurrent_users := users;
     Dict.test_duration := duration;
     Dict.success_rate := PyInt 0;
     Dict.requests_per_second := PyInt 0 |}.

(* ===================================================================== *)
(** * Binary64 values: rounding and order *)
(* ===================================================================== *)

(** The operations of [float] are specified by [SpecFloat]: an operation
    computes an exact mantissa and exponent and hands them to
    [binary_round_aux].  The definitions below say what that function
    returns. *)

(** A shift record [mrs] holds the position of the exact value [N / D]:
    its integer part, whether the fraction reaches one half, and whether
    anything is left beyond that. *)
Definition represents (mrs : shr_record) (N D : Z) : Prop :=
  shr_m mrs * D <= N < (shr_m mrs + 1) * D /\
  (shr_r mrs = true <-> D <= 2 * (N - shr_m mrs * D)) /\
  (shr_s mrs = true <-> N - shr_m mrs * D <> 0 /\ 2 * (N - shr_m mrs * D) <> D).

(** [N / D] rounded to the nearest integer, ties to even. *)
Definition rne (N D : Z) : Z :=
  let q := N / D in
  let r := N mod D in
  if 2 * r <? D then q
  else if D <? 2 * r then q + 1
  else if Z.even q then q else q + 1.

(** The binary64 value [m * 2^e] for a rounded mantissa [0 <= m <= 2^53]:
    renormalised when [m = 2^53], infinite when the exponent overflows. *)
Definition pack (s : bool) (m e : Z) : spec_float :=
  match m with
  | Zpos p =>
      if m <? 2 ^ 53 then
        if e <=? emax - prec then S754_finite s p e else S754_infinity s
      else
        if e + 1 <=? emax - prec then S754_finite s (Z.to_pos (2 ^ 52)) (e + 1)
        else S754_infinity s
  | _ => S754_zero s
  end.

(** How far the dividend is shifted left so that the integer quotient has
    the digits the final rounding needs. *)
Definition div_shift (a b : Z) : Z :=
  - Z.min (fexp prec emax (Zdigits2 a - Zdigits2 b)) 0.

(** An integer that orders the binary64 values other than NaN. *)
Definition SFkey (x : spec_float) : Z :=
  match x with
  | S754_zero _ => 0
  | S754_finite s m e => cond_Zopp s ((e + 1075) * 2 ^ 53 + Z.pos m)
  | S754_infinity s => cond_Zopp s (2048 * 2 ^ 53)
  | S754_nan => 0
  end.

Definition key (f : float) : Z := SFkey (Prim2SF f).

(** The order of binary64 values, read through [key]. *)
Definition key_le (x y : float) : Prop := key x <= key y.

(** A sequence of latencies none of which is NaN. *)
Definition no_nan (xs : list float) : Prop :=
  Forall (fun x => is_nan x = false) xs.

(* ===================================================================== *)
(** * Further predicates and sample data *)
(* ===================================================================== *)

(** A result holding the latencies [xs] and nothing else. *)
Definition latencies (xs : list float) : LoadTestResult :=
  set_response_times xs LoadTestResult__init__.

(** The percentile rule in the words of the specification: sort ascending,
    take the element at index [floor(count * p)]; 0 on the empty sequence. *)
Definition percentile (seq : list float) (p : Q) : option number :=
  match seq with
  | [] => Some (PyInt 0)
  | _ => PyFloat <$> sorted seq !! Z.to_nat (Qfloor (inject_Z (len seq) * p))
  end.

(** A value between 0 and 100. *)
Definition percentage (v : number) : Prop :=
  match v with
  | PyInt z => 0 <= z <= 100
  | PyFloat f => (0 <=? f)%float = true /\ (f <=? 100)%float = true
  end.

(** The timestamps a [datetime] can hold: from 0001-01-01 to the last
    microsecond of 9999-12-31. *)
Definition valid_datetime (t : datetime) : Prop := 0 <= t <= 315537897599999999.

(** The timestamps of a result, when set, are ones a [datetime] can hold. *)
Definition valid_timestamps (self : LoadTestResult) : Prop :=
  (forall t, start_time self = Some t -> valid_datetime t) /\
  (forall t, end_time self = Some t -> valid_datetime t).

(** What a derived metric evaluates to: the [int] 0 or a [float]. *)
Definition metric_value (v : number) : Prop :=
  v = PyInt 0 \/ exists f, v = PyFloat f.

(** A snapshot whose three averaged metrics are metric values. *)
Definition wf_dict (d : Dict.t) : Prop :=
  metric_value (Dict.success_rate d) /\
  metric_value (Dict.avg_response_time d) /\
  metric_value (Dict.requests_per_second d).

(** The unweighted arithmetic mean, as Python computes it: [sum(xs) / len(xs)]. *)
Definition mean (xs : list number) : py number :=
  s ← sum xs; truediv s (PyInt (len xs)).

(** The plain sum of a list of integers. *)
Definition Zsum (zs : list Z) : Z := fold_right Z.add 0 zs.

(** [sum] over floats as CPython 3.12 and later compute it (Neumaier's
    compensated summation), from the first [float] item on: the running sum
    [f_result] and the compensation [c], added at the end when it is finite
    and not zero. *)
Fixpoint sum_compensated (f_result c : float) (xs : list float) : float :=
  match xs with
  | [] =>
      if negb (is_zero c) && is_finite c then (f_result + c)%float else f_result
  | x :: xs' =>
      let t := (f_result + x)%float in
      let c' := if (abs x <=? abs f_result)%float
                then (c + ((f_result - t) + x))%float
                else (c + ((x - t) + f_result))%float in
      sum_compensated t c' xs'
  end.

(** What holds throughout a run that starts no thread. *)
Record no_users_inv (users duration : Z) (now : datetime)
    (history : list Dict.t) (w : World) : Prop := {
  nu_threads : threads w = [];
  nu_total : total_requests (result w) = 0;
  nu_successful : successful_requests (result w) = 0;
  nu_failed : failed_requests (result w) = 0;
  nu_times : response_times (result w) = [];
  nu_start : start_time (result w) = Some now;
  nu_users : concurrent_users (result w) = users;
  nu_duration : test_duration (result w) = duration;
  nu_pc : match pc w with
          | Spawning i => i = 0 /\ test_history w = history
          | Joining _ | Finalizing | Storing => test_history w = history
          | Replying =>
              test_history w =
              test_history_append
                (empty_run users duration (Some now) (end_time (result w))) history
          | Returned d =>
              d = empty_run users duration (Some now) (end_time (result w)) /\
              test_history w = test_history_append d history
          | Failed _ => False
          end
}.

(** The only complete run without threads. *)
Definition no_users_schedule (finish : datetime) : list event :=
  [ ESpawned; EJoined; EFinalize finish; EStore; EReply ].

(** One user, whose thread is overtaken by the handler in the middle of
    its [with lock:] block. *)
Definition torn_schedule : list event :=
  [ ESpawn; ESpawned; EBegin 0 0; EOutcome 0 (Response 200) 0.25;
    EAcquire 0; EExec 0;
    EJoin; EJoined; EFinalize 1; EStore; EReply ].

(** The 51 snapshots the FIFO example records: run [k] had [k] users. *)
Definition sample_runs : list Dict.t :=
  (fun k => empty_run (Z.of_nat k) 0 None None) <$> seq 0 51.

(** A two-run history for the aggregate report. *)
Definition sample_history : list Dict.t :=
  [ {| Dict.total_requests := 5;
       Dict.successful_requests := 4;
       Dict.failed_requests := 1;
       Dict.avg_response_time := PyFloat 250;
       Dict.min_response_time := PyFloat 100;
       Dict.max_response_time := PyFloat 500;
       Dict.p95_response_time := PyFloat 500;
       Dict.p99_response_time := PyFloat 500;
       Dict.start_time := Some 0;
       Dict.end_time := Some 2000000;
       Dict.concurrent_users := 5;
       Dict.test_duration := 1;
       Dict.success_rate := PyFloat 80;
       Dict.requests_per_second := PyFloat 2.5 |};
    empty_run 0 10 (Some 3000000) (Some 3000100) ].

(* ===================================================================== *)
(** * Further definitions: bookkeeping, fuel and the other endpoints *)
(* ===================================================================== *)

(** ** Bookkeeping of a run *)

(** The three kinds of statement of a [with lock:] block. *)
Definition is_total (s : stmt) : bool :=
  match s with IncTotal => true | _ => false end.

Definition is_outcome (s : stmt) : bool :=
  match s with IncSuccessful | IncFailed => true | _ => false end.

Definition is_append (s : stmt) : bool :=
  match s with Append _ => true | _ => false end.

Fixpoint count (p : stmt -> bool) (block : list stmt) : Z :=
  match block with
  | [] => 0
  | s :: block' => (if p s then 1 else 0) + count p block'
  end.

(** How many statements of kind [p] a thread has yet to run: one of each
    kind as long as its request is under way. *)
Definition owed (p : stmt -> bool) (t : thread) : Z :=
  match t with
  | Started _ | Requesting _ _ => 1
  | Waiting block | Holding block => count p block
  | Exited => 0
  end.

Definition owed_by (p : stmt -> bool) (ts : list thread) : Z :=
  Zsum (owed p <$> ts).

(** A thread at or inside [with lock:] runs what is left of one of the
    three blocks of [simulate_user]. *)
Definition thread_wf (t : thread) : Prop :=
  match t with
  | Waiting block => exists o ms, block = locked_block o ms
  | Holding rest => exists o ms, rest `suffix_of` locked_block o ms
  | _ => True
  end.

(** The books of a run: what the result holds and what the threads owe
    add up to the number of threads started. *)
Record accounting (users : Z) (w : World) : Prop := {
  acc_total :
    total_requests (result w) + owed_by is_total (threads w) = len (threads w);
  acc_outcome :
    successful_requests (result w) + failed_requests (result w)
    + owed_by is_outcome (threads w) = len (threads w);
  acc_append :
    len (response_times (result w)) + owed_by is_append (threads w)
    = len (threads w);
  acc_successful : 0 <= successful_requests (result w);
  acc_failed : 0 <= failed_requests (result w);
  acc_threads : Forall thread_wf (threads w);
  acc_spawned : match pc w with
                | Spawning i => 0 <= i <= Z.max 0 users /\ len (threads w) = i
                | _ => len (threads w) = Z.max 0 users
                end
}.

(** ** The work left in a run *)

(** The steps a thread has yet to take before it exits. *)
Definition thread_fuel (t : thread) : nat :=
  match t with
  | Started _ => 7
  | Requesting _ _ => 6
  | Waiting block => length block + 2
  | Holding rest => length rest + 1
  | Exited => 0
  end.

(** The steps the handler has yet to take, the steps of the threads it
    will still start included. *)
Definition handler_fuel (users : Z) (w : World) : nat :=
  match pc w with
  | Spawning i => 9 * Z.to_nat (users - i) + length (threads w) + 5
  | Joining j => (length (threads w) - j) + 4
  | Finalizing => 3
  | Storing => 2
  | Replying => 1
  | Returned _ | Failed _ => 0
  end.

Definition fuel (users : Z) (w : World) : nat :=
  handler_fuel users w + sum_list_with thread_fuel (threads w).

(* ===================================================================== *)
(** * The other endpoints *)
(* ===================================================================== *)

(** [get_test_history]: [list(test_history)], a copy of the history. *)
Definition get_test_history (test_history : list Dict.t) : list Dict.t :=
  test_history.

Module Status.
Record t := mk {
  status : string;
  timestamp : datetime;
  version : string;
  tests_conducted : Z
}.
End Status.

(** [get_system_status]; [now] is the reading of [datetime.now()]. *)
Definition get_system_status (now : datetime) (test_history : list Dict.t)
  : Status.t :=
  {| Status.status := "operational";
     Status.timestamp := now;
     Status.version := "1.0.0";
     Status.tests_conducted := len test_history |}.

(** ** Snapshots of a run *)

(** The snapshot [d] was taken of the result [r] or of an earlier state of
    it in the same phase of the run: same inputs and timestamps, counters
    no larger. *)
Definition lags (d : Dict.t) (r : LoadTestResult) : Prop :=
  Dict.total_requests d <= total_requests r /\
  Dict.successful_requests d <= successful_requests r /\
  Dict.failed_requests d <= failed_requests r /\
  Dict.start_time d = start_time r /\
  Dict.end_time d = end_time r /\
  Dict.concurrent_users d = concurrent_users r /\
  Dict.test_duration d = test_duration r.

(** What the handler has done to the history, phase by phase. *)
Record recording (users duration : Z) (now : datetime)
    (history : list Dict.t) (w : World) : Prop := {
  rec_users : concurrent_users (result w) = users;
  rec_duration : test_duration (result w) = duration;
  rec_start : start_time (result w) = Some now;
  rec_pc : match pc w with
           | Spawning _ | Joining _ | Finalizing => test_history w = history
           | Storing =>
               test_history w = history /\ is_Some (end_time (result w))
           | Replying =>
               is_Some (end_time (result w)) /\
               exists stored,
                 test_history w = test_history_append stored history /\
                 lags stored (result w)
           | Returned d =>
               is_Some (end_time (result w)) /\
               lags d (result w) /\
               exists stored,
                 test_history w = test_history_append stored history /\
                 lags stored (result w) /\
                 Dict.total_requests stored <= Dict.total_requests d /\
                 Dict.successful_requests stored <= Dict.successful_requests d /\
                 Dict.failed_requests stored <= Dict.failed_requests d
           | Failed _ => True
           end
}.

(** The history [h0] once other calls have appended [before], this call
    its snapshot [stored], and other calls [after]. *)
Definition recorded_between (before : list Dict.t) (stored : Dict.t)
    (after : list Dict.t) (h0 : list Dict.t) : list Dict.t :=
  record_all after (test_history_append stored (record_all before h0)).

(** What has been done to the history, phase by phase, when other calls
    run beside this one. *)
Record recording_shared (users duration : Z) (now : datetime)
    (history : list Dict.t) (w : World) : Prop := {
  rs_users : concurrent_users (result w) = users;
  rs_duration : test_duration (result w) = duration;
  rs_start : start_time (result w) = Some now;
  rs_pc : match pc w with
          | Spawning _ | Joining _ | Finalizing =>
              exists before, test_history w = record_all before history
          | Storing =>
              (exists before, test_history w = record_all before history) /\
              is_Some (end_time (result w))
          | Replying =>
              is_Some (end_time (result w)) /\
              exists before stored after,
                test_history w = recorded_between before stored after history /\
                lags stored (result w)
          | Returned d =>
              is_Some (end_time (result w)) /\
              lags d (result w) /\
              exists before stored after,
                test_history w = recorded_between before stored after history /\
                lags stored (result w) /\
                Dict.total_requests stored <= Dict.total_requests d /\
                Dict.successful_requests stored <= Dict.successful_requests d /\
                Dict.failed_requests stored <= Dict.failed_requests d
          | Failed _ => True
          end
}.

(** What holds from the moment the handler stores the result [r0] when
    every thread has exited by then. *)
Record quiescent (r0 : LoadTestResult) (h0 : list Dict.t) (w : World)
  : Prop := {
  q_exited : all_exited w;
  q_result : result w = r0;
  q_pc : match pc w with
         | Storing => test_history w = h0
         | Replying =>
             exists d, to_dict r0 = Return d /\
                       test_history w = test_history_append d h0
         | Returned d =>
             to_dict r0 = Return d /\
             test_history w = test_history_append d h0
         | Failed _ => True
         | _ => False
         end
}.

(** The same when other calls run beside this one. *)
Record quiescent_shared (r0 : LoadTestResult) (h0 : list Dict.t) (w : World)
  : Prop := {
  qs_exited : all_exited w;
  qs_result : result w = r0;
  qs_pc : match pc w with
          | Storing => exists before, test_history w = record_all before h0
          | Replying =>
              exists d before after,
                to_dict r0 = Return d /\
                test_history w = recorded_between before d after h0
          | Returned d =>
              to_dict r0 = Return d /\
              exists before after,
                test_history w = recorded_between before d after h0
          | Failed _ => True
          | _ => False
          end
}.

(** ** Sample runs *)

(** Two users.  The first is answered with status 200, the second with
    status 500; the second takes the lock first, and the handler's first
    [join] returns while it is in the middle of its update.  Both have
    exited when the handler is done joining. *)
Definition two_users_begin : list event :=
  [ ESpawn; EBegin 0 0; ESpawn; ESpawned; EBegin 1 0.01;
    EOutcome 1 (Response 500) 0.2; EOutcome 0 (Response 200) 0.25;
    EAcquire 1; EExec 1; EExec 1; EJoin ].

Definition two_users_end : list event :=
  [ EExec 1; ERelease 1;
    EAcquire 0; EExec 0; EExec 0; EExec 0; ERelease 0;
    EJoin; EJoined; EFinalize 1; EStore; EReply ].

(** The world in the middle of the second user's update, and the world at
    the end of the run. *)
Definition two_users_midway : World :=
  Eval vm_compute in
    match run 2 two_users_begin (run_load_test_init 2 30 0 []) with
    | Some w => w
    | None => run_load_test_init 2 30 0 []
    end.

Definition two_users_world : World :=
  Eval vm_compute in
    match run 2 two_users_end two_users_midway with
    | Some w => w
    | None => two_users_midway
    end.

(** One user whose request is answered with status 200 a quarter of a
    second after it was sent, and who has exited when the handler joins. *)
Definition complete_schedule_threads : list event :=
  [ ESpawn; ESpawned; EBegin 0 0; EOutcome 0 (Response 200) 0.25;
    EAcquire 0; EExec 0; EExec 0; EExec 0; ERelease 0;
    EJoin; EJoined; EFinalize 1 ].

Definition complete_schedule : list event :=
  complete_schedule_threads ++ [ EStore; EReply ].

(** The world a schedule leads to from the start of a run with one user
    (the start itself when the schedule cannot be run). *)
Definition world_after (evs : list event) : World :=
  match run 1 evs (run_load_test_init 1 30 0 []) with
  | Some w => w
  | None => run_load_test_init 1 30 0 []
  end.

(** The sample run when the handler is about to store the result, and at
    its end. *)
Definition joined_world : World :=
  Eval vm_compute in world_after complete_schedule_threads.

Definition complete_world : World :=
  Eval vm_compute in world_after complete_schedule.

(** The snapshot another call appends during the sample run, and the
    sample run with that append made just before the handler stores its
    own result. *)
Definition other_snapshot : Dict.t := empty_run 0 10 (Some 0) (Some 0).

Definition interrupted_world : World :=
  set_test_history
    (test_history_append other_snapshot (test_history joined_world)) joined_world.

Definition shared_world : World :=
  Eval vm_compute in
    match run 1 [EStore; EReply] interrupted_world with
    | Some w => w
    | None => interrupted_world
    end.

(** The snapshot of a run that started and ended at [now] and recorded one
    successful request of 250 ms. *)
Definition one_request_run (users duration : Z) (now : datetime) : Dict.t :=
  {| Dict.total_requests := 1;
     Dict.successful_requests := 1;
     Dict.failed_requests := 0;
     Dict.avg_response_time := PyFloat 250;
     Dict.min_response_time := PyFloat 250;
     Dict.max_response_time := PyFloat 250;
     Dict.p95_response_time := PyFloat 250;
     Dict.p99_response_time := PyFloat 250;
     Dict.start_time := Some now;
     Dict.end_time := Some now;
     Dict.concurrent_users := users;
     Dict.test_duration := duration;
     Dict.success_rate := PyFloat 100;
     Dict.requests_per_second := PyInt 0 |}.

(** ** Counting latencies *)

(** How many of the latencies [xs] satisfy the test [p]. *)
Fixpoint count_if (p : float -> bool) (xs : list float) : Z :=
  match xs with
  | [] => 0
  | x :: xs' => (if p x then 1 else 0) + count_if p xs'
  end.

(* ===================================================================== *)
(** * [process_payment]: the mock payment gateway *)
(* ===================================================================== *)

Module Payment.
(** The JSON body of the gateway's answer; [transaction_id] is present in
    the answer to a processed payment only. *)
Record t := mk {
  status : string;
  message : string;
  processing_time : float;
  transaction_id : option string
}.
End Payment.

(** [process_payment], given its three random draws:
    [processing_time = random.uniform(0.1, 0.5)] (slept through),
    [r = random.random()] and [n = random.randint(100000, 999999)].
    It returns the body and the HTTP status code. *)
Definition process_payment (processing_time r : float) (n : Z)
  : Payment.t * Z :=
  if (r <? 0.05)%float then
    ({| Payment.status := "failed";
        Payment.message := "Payment processing failed";
        Payment.processing_time := processing_time;
        Payment.transaction_id := None |}, 500)
  else
    ({| Payment.status := "success";
        Payment.message := "Payment processed successfully";
        Payment.processing_time := processing_time;
        Payment.transaction_id := Some ("TXN" +:+ pretty n) |}, 200).

(** The character of a decimal digit, and the numeral with the digits
    [ds], most significant first. *)
Definition digit_char (d : Z) : ascii :=
  match d with
  | 0 => "0" | 1 => "1" | 2 => "2" | 3 => "3" | 4 => "4"
  | 5 => "5" | 6 => "6" | 7 => "7" | 8 => "8" | _ => "9"
  end%char.

Fixpoint numeral (ds : list Z) : string :=
  match ds with
  | [] => ""
  | d :: ds' => String (digit_char d) (numeral ds')
  end.

(** One request answered by the gateway: the gateway's draws and the
    latency the virtual user measured. *)
Record exchange := mkExchange {
  ex_processing_time : float;
  ex_r : float;
  ex_n : Z;
  ex_response_time_ms : float
}.

(** The update a virtual user makes for a request the gateway answered. *)
Definition record_exchange (result : LoadTestResult) (x : exchange)
  : LoadTestResult :=
  record
    (Response (snd (process_payment (ex_processing_time x) (ex_r x) (ex_n x))))
    (ex_response_time_ms x) result.

(** The number of exchanges in which the gateway simulated a failure. *)
Fixpoint simulated_failures (xs : list exchange) : Z :=
  match xs with
  | [] => 0
  | x :: xs' =>
      (if (ex_r x <? 0.05)%float then 1 else 0) + simulated_failures xs'
  end.

(* ===================================================================== *)
(** * Binary64: what [binary_round_aux] returns *)
(* ===================================================================== *)

Lemma Zdigits2_log2 m : 0 < m -> Zdigits2 m = Z.log2 m + 1.
Proof.
  destruct m as [|p|p]; try lia. intros _. simpl.
  induction p as [p IH|p IH|]; simpl; try done.
  - rewrite Pos2Z.inj_succ, IH. destruct p; simpl; lia.
  - rewrite Pos2Z.inj_succ, IH. destruct p; simpl; lia.
Qed.

Lemma Zdigits2_bounds m :
  0 < m -> 0 < Zdigits2 m /\ 2 ^ (Zdigits2 m - 1) <= m < 2 ^ Zdigits2 m.
Proof.
  intros Hm. rewrite Zdigits2_log2 by done.
  pose proof (Z.log2_nonneg m). pose proof (Z.log2_spec m Hm).
  replace (Z.log2 m + 1 - 1) with (Z.log2 m) by lia.
  replace (Z.log2 m + 1) with (Z.succ (Z.log2 m)) by lia. lia.
Qed.

Lemma Zdigits2_unique m d :
  2 ^ (d - 1) <= m < 2 ^ d -> 0 < d -> Zdigits2 m = d.
Proof.
  intros H Hd. assert (0 < m) by (pose proof (Z.pow_pos_nonneg 2 (d - 1) ltac:(lia) ltac:(lia)); lia).
  rewrite Zdigits2_log2 by done.
  assert (Z.log2 m = d - 1); [|lia].
  apply Z.log2_unique; [lia|]. replace (Z.succ (d - 1)) with d by lia. done.
Qed.

Lemma fexp64 e : fexp prec emax e = Z.max (e - 53) (-1074).
Proof. reflexivity. Qed.

Lemma shr_1_represents mrs N D :
  0 <= shr_m mrs -> 0 < D -> represents mrs N D ->
  represents (shr_1 mrs) N (2 * D) /\ 0 <= shr_m (shr_1 mrs) /\
  shr_m (shr_1 mrs) = shr_m mrs / 2.
Proof.
  destruct mrs as [m r s]. unfold represents. cbn [shr_m shr_r shr_s].
  intros Hm HD (Hb & Hr & Hs).
  assert (Hrs : orb r s = true /\ N - m * D <> 0 \/ orb r s = false /\ N - m * D = 0).
  { destruct (decide (N - m * D = 0)) as [E|E]; [right|left]; split; try done.
    - (* exact: both bits are clear *)
      destruct r.
      { assert (D <= 2 * (N - m * D)) by (by apply Hr). lia. }
      destruct s; [|done].
      assert (N - m * D <> 0) by (by apply Hs). lia.
    - (* inexact: one of the bits is set *)
      destruct r; [done|]. destruct s; [done|]. exfalso.
      assert (~ (D <= 2 * (N - m * D)))
        by (intros ?; assert (false = true) by (by apply Hr); done).
      assert (~ (N - m * D <> 0 /\ 2 * (N - m * D) <> D))
        by (intros ?; assert (false = true) by (by apply Hs); done).
      lia. }
  destruct m as [|[p|p|]|p]; cbn [shr_1 shr_m shr_r shr_s]; [ | | | |lia].
  - change (0 / 2) with 0.
    destruct Hrs as [[-> ?]|[-> ?]]; repeat split; intros; try done; try lia.
  - (* xI *)
    assert (E : Z.pos p~1 / 2 = Z.pos p).
    { rewrite Pos2Z.inj_xI. rewrite Z.mul_comm, Z.div_add_l by lia.
      change (1 / 2) with 0. lia. }
    rewrite Pos2Z.inj_xI in *.
    destruct Hrs as [[-> ?]|[-> ?]]; repeat split; intros; try done; try lia.
  - assert (E : Z.pos p~0 / 2 = Z.pos p).
    { rewrite Pos2Z.inj_xO. rewrite Z.mul_comm, Z.div_mul by lia. lia. }
    rewrite Pos2Z.inj_xO in *.
    destruct Hrs as [[-> ?]|[-> ?]]; repeat split; intros; try done; try lia.
  - change (1 / 2) with 0.
    destruct Hrs as [[-> ?]|[-> ?]]; repeat split; intros; try done; try lia.
Qed.

Lemma iter_shr_1_represents p : forall mrs N D,
  0 <= shr_m mrs -> 0 < D -> represents mrs N D ->
  represents (SpecFloat.iter_pos shr_1 p mrs) N (D * 2 ^ Zpos p) /\
  0 <= shr_m (SpecFloat.iter_pos shr_1 p mrs) /\
  shr_m (SpecFloat.iter_pos shr_1 p mrs) = shr_m mrs / 2 ^ Zpos p.
Proof.
  induction p as [p IH|p IH|]; intros mrs N D Hm HD Hrep; cbn [SpecFloat.iter_pos].
  - destruct (shr_1_represents _ _ _ Hm HD Hrep) as (H1 & Hm1 & E1).
    assert (HD1 : 0 < 2 * D) by lia.
    destruct (IH _ _ _ Hm1 HD1 H1) as (H2 & Hm2 & E2).
    assert (Hp : 0 < 2 ^ Z.pos p) by (apply Z.pow_pos_nonneg; lia).
    assert (HD2 : 0 < 2 * D * 2 ^ Z.pos p) by nia.
    destruct (IH _ _ _ Hm2 HD2 H2) as (H3 & Hm3 & E3).
    assert (Epow : 2 ^ Z.pos p~1 = 2 * 2 ^ Z.pos p * 2 ^ Z.pos p).
    { replace (Z.pos p~1) with (1 + Z.pos p + Z.pos p) by lia.
      rewrite !Z.pow_add_r by lia. by rewrite Z.pow_1_r. }
    rewrite Epow.
    replace (D * (2 * 2 ^ Z.pos p * 2 ^ Z.pos p))
      with (2 * D * 2 ^ Z.pos p * 2 ^ Z.pos p) by ring.
    split; [done|]. split; [done|].
    rewrite E3, E2, E1.
    rewrite !Z.div_div by lia. f_equal. ring.
  - destruct (IH _ _ _ Hm HD Hrep) as (H2 & Hm2 & E2).
    assert (Hp : 0 < 2 ^ Z.pos p) by (apply Z.pow_pos_nonneg; lia).
    assert (HD2 : 0 < D * 2 ^ Z.pos p) by nia.
    destruct (IH _ _ _ Hm2 HD2 H2) as (H3 & Hm3 & E3).
    assert (Epow : 2 ^ Z.pos p~0 = 2 ^ Z.pos p * 2 ^ Z.pos p).
    { replace (Z.pos p~0) with (Z.pos p + Z.pos p) by lia.
      by rewrite Z.pow_add_r by lia. }
    rewrite Epow.
    replace (D * (2 ^ Z.pos p * 2 ^ Z.pos p))
      with (D * 2 ^ Z.pos p * 2 ^ Z.pos p) by ring.
    split; [done|]. split; [done|].
    rewrite E3, E2.
    rewrite !Z.div_div by lia. done.
  - destruct (shr_1_represents _ _ _ Hm HD Hrep) as (H1 & Hm1 & E1).
    change (2 ^ 1) with 2. rewrite (Z.mul_comm D 2). done.
Qed.

Lemma shr_m_of_loc m l : shr_m (shr_record_of_loc m l) = m.
Proof. by destruct l as [|[]]. Qed.

Lemma represents_div mrs N D :
  0 < D -> represents mrs N D ->
  shr_m mrs = N / D /\ N - shr_m mrs * D = N mod D.
Proof.
  intros HD (Hb & _).
  assert (E : shr_m mrs = N / D).
  { apply Z.div_unique with (r := N - shr_m mrs * D); lia. }
  split; [done|]. rewrite E at 1. rewrite Z.mod_eq by lia. ring.
Qed.

Lemma round_represents mrs N D :
  0 < D -> represents mrs N D ->
  round_nearest_even (shr_m mrs) (loc_of_shr_record mrs) = rne N D.
Proof.
  intros HD Hrep. destruct (represents_div _ _ _ HD Hrep) as (Em & Er).
  destruct Hrep as (Hb & Hr & Hs). unfold rne. rewrite <- Em.
  rewrite Er in Hr, Hs.
  pose proof (Z.mod_pos_bound N D HD) as Hmod.
  destruct mrs as [m r s]. cbn [shr_m shr_r shr_s] in *.
  destruct r, s; cbn [loc_of_shr_record round_nearest_even].
  - assert (D <= 2 * (N mod D)) by (by apply Hr).
    assert (N mod D <> 0 /\ 2 * (N mod D) <> D) by (by apply Hs).
    destruct (Z.ltb_spec (2 * (N mod D)) D); [lia|].
    destruct (Z.ltb_spec D (2 * (N mod D))); [done|lia].
  - assert (D <= 2 * (N mod D)) by (by apply Hr).
    assert (~ (N mod D <> 0 /\ 2 * (N mod D) <> D))
      by (intros ?; assert (false = true) by (by apply Hs); done).
    destruct (Z.ltb_spec (2 * (N mod D)) D); [lia|].
    destruct (Z.ltb_spec D (2 * (N mod D))); [lia|done].
  - assert (~ (D <= 2 * (N mod D)))
      by (intros ?; assert (false = true) by (by apply Hr); done).
    destruct (Z.ltb_spec (2 * (N mod D)) D); [done|lia].
  - assert (~ (D <= 2 * (N mod D)))
      by (intros ?; assert (false = true) by (by apply Hr); done).
    destruct (Z.ltb_spec (2 * (N mod D)) D); [done|lia].
Qed.

Lemma rne_bounds N D : 0 < D -> N / D <= rne N D <= N / D + 1.
Proof.
  intros HD. unfold rne. repeat case_match; lia.
Qed.

Lemma rne_exact N D : 0 < D -> N mod D = 0 -> rne N D = N / D.
Proof.
  intros HD E. unfold rne. rewrite E.
  destruct (Z.ltb_spec (2 * 0) D); [done|lia].
Qed.

(** Rounding to nearest never crosses a multiple of the step. *)
Lemma rne_le N D b : 0 < D -> N <= b * D -> rne N D <= b.
Proof.
  intros HD Hle. pose proof (rne_bounds N D HD).
  destruct (decide (N / D < b)); [lia|].
  assert (N / D = b).
  { assert (N / D <= b); [|lia]. apply Z.div_le_upper_bound; lia. }
  assert (N = b * D).
  { pose proof (Z.mul_div_le N D HD). nia. }
  rewrite rne_exact; [lia|done|]. subst N. apply Z.mod_mul. lia.
Qed.

Lemma rne_ge N D b : 0 < D -> b * D <= N -> b <= rne N D.
Proof.
  intros HD Hle. pose proof (rne_bounds N D HD).
  assert (b <= N / D); [|lia]. apply Z.div_le_lower_bound; lia.
Qed.

(** The error of rounding to nearest is at most half a step. *)
Lemma rne_nearest N D : 0 < D -> 2 * Z.abs (rne N D * D - N) <= D.
Proof.
  intros HD. unfold rne.
  pose proof (Z.mod_pos_bound N D HD) as Hmod.
  pose proof (Z.div_mod N D ltac:(lia)) as Hdm.
  repeat case_match; try lia;
    repeat match goal with
           | H : (_ <? _) = true |- _ => apply Z.ltb_lt in H
           | H : (_ <? _) = false |- _ => apply Z.ltb_ge in H
           end; nia.
Qed.

Lemma shr_fexp_represents mx ex lx N D :
  0 <= mx -> 0 < D -> represents (shr_record_of_loc mx lx) N D ->
  let k := Z.max 0 (fexp prec emax (Zdigits2 mx + ex) - ex) in
  exists mrs,
    shr_fexp prec emax mx ex lx = (mrs, ex + k) /\
    represents mrs N (D * 2 ^ k) /\ shr_m mrs = mx / 2 ^ k.
Proof.
  intros Hm HD Hrep k. unfold shr_fexp, shr.
  destruct (fexp prec emax (Zdigits2 mx + ex) - ex) as [|p|p] eqn:E; subst k.
  - eexists. split; [by rewrite Z.add_0_r|]. cbn [Z.max Z.compare].
    rewrite Z.pow_0_r, Z.mul_1_r, Z.div_1_r. split; [done|]. apply shr_m_of_loc.
  - replace (Z.max 0 (Z.pos p)) with (Z.pos p) by lia.
    destruct (iter_shr_1_represents p (shr_record_of_loc mx lx) N D) as (H1 & _ & H2);
      try done.
    { by rewrite shr_m_of_loc. }
    eexists. split; [done|]. split; [done|]. by rewrite H2, shr_m_of_loc.
  - replace (Z.max 0 (Z.neg p)) with 0 by lia.
    eexists. split; [by rewrite Z.add_0_r|].
    rewrite Z.pow_0_r, Z.mul_1_r, Z.div_1_r. split; [done|]. apply shr_m_of_loc.
Qed.

Lemma represents_exact m : represents (shr_record_of_loc m loc_Exact) m 1.
Proof.
  unfold represents. cbn [shr_record_of_loc shr_m shr_r shr_s].
  repeat split; intros; try done; try lia.
Qed.

Lemma shift_lower_bound mx ex :
  0 < mx ->
  Zdigits2 mx - 53 <= Z.max 0 (fexp prec emax (Zdigits2 mx + ex) - ex) /\
  -1074 <= ex + Z.max 0 (fexp prec emax (Zdigits2 mx + ex) - ex).
Proof. intros _. rewrite fexp64. lia. Qed.

Lemma shifted_mantissa_bound mx k :
  0 <= mx -> 0 <= k -> Zdigits2 mx - 53 <= k -> mx / 2 ^ k < 2 ^ 53.
Proof.
  intros Hm Hk Hd.
  assert (0 < 2 ^ k) by (apply Z.pow_pos_nonneg; lia).
  apply Z.div_lt_upper_bound; [done|].
  destruct (decide (mx = 0)) as [->|Hne]; [lia|].
  destruct (Zdigits2_bounds mx ltac:(lia)) as (Hd0 & _ & Hub).
  rewrite <- Z.pow_add_r by lia.
  eapply Z.lt_le_trans; [exact Hub|]. apply Z.pow_le_mono_r; lia.
Qed.

Lemma second_shift_none sx m e :
  0 <= m < 2 ^ 53 -> -1074 <= e ->
  (let '(mrs'', e'') := shr_fexp prec emax m e loc_Exact in
   match shr_m mrs'' with
   | 0 => S754_zero sx
   | Z.pos p => if e'' <=? emax - prec then S754_finite sx p e'' else S754_infinity sx
   | Z.neg _ => S754_nan
   end) = pack sx m e.
Proof.
  intros [Hm0 Hm1] He. unfold shr_fexp, shr.
  assert (Hn : fexp prec emax (Zdigits2 m + e) - e <= 0).
  { rewrite fexp64. destruct (decide (m = 0)) as [->|Hne]; [simpl; lia|].
    destruct (Zdigits2_bounds m ltac:(lia)) as (Hd0 & Hlb & _).
    assert (Zdigits2 m - 1 < 53); [|lia].
    apply (Z.pow_lt_mono_r_iff 2); lia. }
  destruct (fexp prec emax (Zdigits2 m + e) - e) as [|p|p]; [ |lia| ];
    cbn [shr_record_of_loc shr_m]; unfold pack;
    (destruct m as [|q|q]; [done| |lia]);
    destruct (Z.ltb_spec (Z.pos q) (2 ^ 53)); [done|lia|done|lia].
Qed.

Lemma second_shift_once sx e :
  -1074 <= e ->
  (let '(mrs'', e'') := shr_fexp prec emax (2 ^ 53) e loc_Exact in
   match shr_m mrs'' with
   | 0 => S754_zero sx
   | Z.pos p => if e'' <=? emax - prec then S754_finite sx p e'' else S754_infinity sx
   | Z.neg _ => S754_nan
   end) = pack sx (2 ^ 53) e.
Proof.
  intros He. unfold shr_fexp, shr.
  change (Zdigits2 (2 ^ 53)) with 54. rewrite fexp64.
  replace (Z.max (54 + e - 53) (-1074) - e) with 1 by lia.
  reflexivity.
Qed.

Theorem binary_round_aux_correct sx mx ex lx N D :
  0 <= mx -> 0 < D -> represents (shr_record_of_loc mx lx) N D ->
  binary_round_aux prec emax sx mx ex lx =
  pack sx (rne N (D * 2 ^ Z.max 0 (fexp prec emax (Zdigits2 mx + ex) - ex)))
    (ex + Z.max 0 (fexp prec emax (Zdigits2 mx + ex) - ex)).
Proof.
  intros Hm HD Hrep. unfold binary_round_aux.
  destruct (shr_fexp_represents mx ex lx N D Hm HD Hrep) as (mrs & E & Hrep' & Hm').
  rewrite E. clear E.
  set (k := Z.max 0 (fexp prec emax (Zdigits2 mx + ex) - ex)) in *.
  assert (Hk : 0 <= k) by lia.
  assert (Hpow : 0 < 2 ^ k) by (apply Z.pow_pos_nonneg; lia).
  assert (HD' : 0 < D * 2 ^ k) by nia.
  rewrite (round_represents mrs N (D * 2 ^ k) HD' Hrep').
  destruct (represents_div _ _ _ HD' Hrep') as (Eq & _). rewrite Hm' in Eq.
  pose proof (rne_bounds N (D * 2 ^ k) HD') as Hb. rewrite <- Eq in Hb.
  assert (Hdk : Zdigits2 mx - 53 <= k /\ -1074 <= ex + k).
  { subst k. rewrite fexp64. lia. }
  pose proof (shifted_mantissa_bound mx k Hm Hk (proj1 Hdk)) as Hlt.
  assert (0 <= mx / 2 ^ k) by (apply Z.div_pos; lia).
  destruct (decide (rne N (D * 2 ^ k) = 2 ^ 53)) as [->|Hne].
  - apply second_shift_once. lia.
  - apply second_shift_none; lia.
Qed.

(** ** Validity of the rounded value *)

Lemma pack_valid s m e :
  0 <= m <= 2 ^ 53 -> -1074 <= e -> (2 ^ 52 <= m \/ e = -1074) ->
  valid_binary (pack s m e) = true.
Proof.
  intros Hm He Hc. unfold pack.
  destruct m as [|p|p]; [done| |done].
  destruct (Z.ltb_spec (Z.pos p) (2 ^ 53)) as [Hlt|Hge].
  - destruct (Z.leb_spec e (emax - prec)) as [Hle|Hgt]; [|done].
    unfold valid_binary, bounded, canonical_mantissa.
    apply andb_true_iff. split; [|by apply Z.leb_le].
    apply Z.eqb_eq. rewrite fexp64.
    change (Z.pos (digits2_pos p)) with (Zdigits2 (Z.pos p)).
    destruct (Zdigits2_bounds (Z.pos p) ltac:(lia)) as (Hd0 & Hlb & Hub).
    assert (Zdigits2 (Z.pos p) - 1 < 53) by (apply (Z.pow_lt_mono_r_iff 2); lia).
    destruct Hc as [Hc|Hc]; [|lia].
    assert (52 < Zdigits2 (Z.pos p)) by (apply (Z.pow_lt_mono_r_iff 2); lia).
    lia.
  - destruct (Z.leb_spec (e + 1) (emax - prec)) as [Hle|Hgt]; [|done].
    unfold valid_binary, bounded, canonical_mantissa.
    apply andb_true_iff. split; [|by apply Z.leb_le].
    apply Z.eqb_eq. rewrite fexp64.
    change (Z.pos (digits2_pos (Z.to_pos (2 ^ 52)))) with 53. lia.
Qed.

Theorem binary_round_aux_valid sx mx ex lx N D :
  0 <= mx -> 0 < D -> represents (shr_record_of_loc mx lx) N D ->
  ex <= fexp prec emax (Zdigits2 mx + ex) ->
  valid_binary (binary_round_aux prec emax sx mx ex lx) = true.
Proof.
  intros Hm HD Hrep Hex.
  rewrite (binary_round_aux_correct sx mx ex lx N D) by done.
  set (k := Z.max 0 (fexp prec emax (Zdigits2 mx + ex) - ex)).
  assert (Ek : k = fexp prec emax (Zdigits2 mx + ex) - ex) by lia.
  assert (Hk : 0 <= k) by lia.
  assert (Hpow : 0 < 2 ^ k) by (apply Z.pow_pos_nonneg; lia).
  assert (HD' : 0 < D * 2 ^ k) by nia.
  destruct (shr_fexp_represents mx ex lx N D Hm HD Hrep) as (mrs & _ & Hrep' & Hm').
  fold k in Hrep', Hm'.
  destruct (represents_div _ _ _ HD' Hrep') as (Eq & _). rewrite Hm' in Eq.
  pose proof (rne_bounds N (D * 2 ^ k) HD') as Hb. rewrite <- Eq in Hb.
  rewrite fexp64 in Ek.
  pose proof (shifted_mantissa_bound mx k Hm Hk ltac:(lia)) as Hlt.
  assert (0 <= mx / 2 ^ k) by (apply Z.div_pos; lia).
  apply pack_valid; [lia|lia|].
  destruct (decide (ex + k = -1074)) as [|Hne]; [by right|left].
  assert (Ek' : k = Zdigits2 mx - 53) by lia.
  assert (Hpos : 0 < mx).
  { destruct (decide (mx = 0)) as [->|]; [|lia]. simpl in Ek'. lia. }
  destruct (Zdigits2_bounds mx Hpos) as (Hd0 & Hlb & _).
  assert (2 ^ 52 <= mx / 2 ^ k); [|lia].
  apply Z.div_le_lower_bound; [done|].
  rewrite <- Z.pow_add_r by lia.
  replace (k + 52) with (Zdigits2 mx - 1) by lia. lia.
Qed.

(** ** [float(n)] *)

Lemma Zpos_iter_xO m d : Z.pos (Pos.iter xO m d) = Z.pos m * 2 ^ Z.pos d.
Proof.
  revert m. induction d as [|d IH] using Pos.peano_ind; intros m.
  - simpl. lia.
  - rewrite Pos.iter_succ, Pos2Z.inj_xO, IH, Pos2Z.inj_succ, Z.pow_succ_r by lia. ring.
Qed.

Lemma binary_normalize_exact n :
  0 < n < 2 ^ 53 ->
  binary_normalize prec emax n 0 false =
  S754_finite false (Z.to_pos (n * 2 ^ (53 - Zdigits2 n))) (Zdigits2 n - 53).
Proof.
  intros [Hn0 Hn1]. destruct n as [|p|p]; try lia.
  unfold binary_normalize, binary_round.
  destruct (Zdigits2_bounds (Z.pos p) ltac:(lia)) as (Hd0 & Hlb & Hub).
  assert (Hd : Zdigits2 (Z.pos p) <= 53).
  { assert (Zdigits2 (Z.pos p) - 1 < 53); [|lia]. apply (Z.pow_lt_mono_r_iff 2); lia. }
  change (Z.pos (digits2_pos p)) with (Zdigits2 (Z.pos p)).
  rewrite Z.add_0_r, fexp64.
  replace (Z.max (Zdigits2 (Z.pos p) - 53) (-1074)) with (Zdigits2 (Z.pos p) - 53) by lia.
  set (d := Zdigits2 (Z.pos p)) in *.
  assert (Hmz : exists mz, shl_align p 0 (d - 53) = (mz, d - 53) /\
                           Z.pos mz = Z.pos p * 2 ^ (53 - d)).
  { unfold shl_align. rewrite Z.sub_0_r.
    destruct (d - 53) as [|q|q] eqn:E; try lia.
    - exists p. split; [done|]. replace (53 - d) with 0 by lia. simpl. lia.
    - eexists. split; [done|]. rewrite Zpos_iter_xO. f_equal. f_equal. lia. }
  destruct Hmz as (mz & -> & Emz).
  assert (Hdz : Zdigits2 (Z.pos mz) = 53).
  { apply Zdigits2_unique; [|lia]. rewrite Emz.
    assert (0 < 2 ^ (53 - d)) by (apply Z.pow_pos_nonneg; lia).
    replace (2 ^ (53 - 1)) with (2 ^ (d - 1) * 2 ^ (53 - d))
      by (rewrite <- Z.pow_add_r by lia; f_equal; lia).
    replace (2 ^ 53) with (2 ^ d * 2 ^ (53 - d))
      by (rewrite <- Z.pow_add_r by lia; f_equal; lia).
    nia. }
  rewrite (binary_round_aux_correct false (Z.pos mz) (d - 53) loc_Exact (Z.pos mz) 1)
    by (lia || apply represents_exact).
  rewrite Hdz, fexp64.
  replace (Z.max 0 (Z.max (53 + (d - 53) - 53) (-1074) - (d - 53))) with 0 by lia.
  rewrite Z.pow_0_r, Z.mul_1_r, Z.add_0_r.
  rewrite rne_exact by (lia || apply Z.mod_1_r). rewrite Z.div_1_r.
  destruct (Zdigits2_bounds (Z.pos mz) ltac:(lia)) as (_ & _ & Hubz). rewrite Hdz in Hubz.
  unfold pack. destruct (Z.ltb_spec (Z.pos mz) (2 ^ 53)); [|lia].
  destruct (Z.leb_spec (d - 53) (emax - prec)) as [_|Hgt];
    [|unfold emax, prec in Hgt; lia].
  f_equal. rewrite <- Emz. done.
Qed.

(** ** Division *)

Lemma new_location_represents q r D N :
  0 < D -> 0 <= r < D -> N = q * D + r ->
  represents (shr_record_of_loc q (new_location D r)) N D.
Proof.
  intros HD Hr ->. unfold new_location, new_location_even, new_location_odd.
  assert (Er : q * D + r - q * D = r) by ring.
  destruct (Z.even D) eqn:Hev.
  - destruct (Z.eqb_spec r 0) as [->|Hne].
    + unfold represents; cbn [shr_record_of_loc shr_m shr_r shr_s]. rewrite Er.
      repeat split; intros; try done; try lia.
    + destruct (Z.compare_spec (2 * r) D);
        unfold represents; cbn [shr_record_of_loc shr_m shr_r shr_s]; rewrite Er;
        repeat split; intros; try done; try lia.
  - assert (Hodd : 2 * r <> D).
    { intros E. rewrite <- E, Z.even_mul in Hev. done. }
    destruct (Z.eqb_spec r 0) as [->|Hne].
    + unfold represents; cbn [shr_record_of_loc shr_m shr_r shr_s]. rewrite Er.
      repeat split; intros; try done; try lia.
    + destruct (Z.compare_spec (2 * r + 1) D);
        unfold represents; cbn [shr_record_of_loc shr_m shr_r shr_s]; rewrite Er;
        repeat split; intros; try done; try lia.
Qed.

Lemma SFdiv_core_int a b :
  0 < a -> 0 < b ->
  let s := div_shift a b in
  0 <= s /\
  SFdiv_core_binary prec emax a 0 b 0 =
    (a * 2 ^ s / b, - s, new_location b (a * 2 ^ s mod b)).
Proof.
  intros Ha Hb s. unfold SFdiv_core_binary.
  replace (Zdigits2 a + 0 - (Zdigits2 b + 0)) with (Zdigits2 a - Zdigits2 b) by lia.
  replace (0 - 0) with 0 by lia.
  assert (Hs : 0 <= s) by (subst s; unfold div_shift; lia).
  split; [done|].
  replace (Z.min (fexp prec emax (Zdigits2 a - Zdigits2 b)) 0) with (- s)
    by (subst s; unfold div_shift; lia).
  replace (0 - - s) with s by lia.
  assert (Em : match s with
               | 0 => a
               | Z.pos _ => Z.shiftl a s
               | Z.neg _ => 0
               end = a * 2 ^ s).
  { destruct s as [|p|p] eqn:E; try lia.
    - by rewrite Z.shiftl_mul_pow2. }
  rewrite Em. unfold Z.div, Z.modulo.
  by destruct (Z.div_eucl (a * 2 ^ s) b).
Qed.

Lemma Zdigits2_mono x y : 0 < x <= y -> Zdigits2 x <= Zdigits2 y.
Proof.
  intros Hxy.
  destruct (Zdigits2_bounds x ltac:(lia)) as (Hx0 & Hxl & Hxu).
  destruct (Zdigits2_bounds y ltac:(lia)) as (Hy0 & Hyl & Hyu).
  assert (Zdigits2 x - 1 < Zdigits2 y); [|lia].
  apply (Z.pow_lt_mono_r_iff 2); lia.
Qed.

Lemma Zdigits2_ge_pow x j : 0 <= j -> 2 ^ j <= x -> j + 1 <= Zdigits2 x.
Proof.
  intros Hj Hx. assert (0 < 2 ^ j) by (apply Z.pow_pos_nonneg; lia).
  destruct (Zdigits2_bounds x ltac:(lia)) as (Hx0 & Hxl & Hxu).
  assert (j < Zdigits2 x); [|lia]. apply (Z.pow_lt_mono_r_iff 2); lia.
Qed.

Lemma Zdigits2_le_pow x j : 0 <= j -> 0 <= x < 2 ^ j -> Zdigits2 x <= j.
Proof.
  intros Hj Hx. destruct (decide (x = 0)) as [->|Hne]; [simpl; lia|].
  destruct (Zdigits2_bounds x ltac:(lia)) as (Hx0 & Hxl & Hxu).
  assert (Zdigits2 x - 1 < j); [|lia]. apply (Z.pow_lt_mono_r_iff 2); lia.
Qed.

(** The quotient has enough digits for the final rounding. *)
Lemma div_quotient_digits a b :
  0 < a -> 0 < b ->
  let s := div_shift a b in
  let q := a * 2 ^ s / b in
  0 <= q /\ - s <= fexp prec emax (Zdigits2 q - s) /\ Zdigits2 q - s <= Zdigits2 a.
Proof.
  intros Ha Hb s q.
  assert (Hs : 0 <= s) by (subst s; unfold div_shift; lia).
  assert (Hps : 0 < 2 ^ s) by (apply Z.pow_pos_nonneg; lia).
  assert (Hq0 : 0 <= q) by (apply Z.div_pos; nia).
  destruct (Zdigits2_bounds a Ha) as (Hda0 & Hal & Hau).
  destruct (Zdigits2_bounds b Hb) as (Hdb0 & Hbl & Hbu).
  set (da := Zdigits2 a) in *. set (db := Zdigits2 b) in *.
  split; [done|]. split.
  - rewrite fexp64.
    destruct (decide (s = 1074)) as [|Hne]; [lia|].
    assert (Es : - s = Z.min (Z.max (da - db - 53) (-1074)) 0)
      by (subst s; unfold div_shift; rewrite fexp64; lia).
    assert (0 <= da - 1 + s - db) by lia.
    assert (Hlow : 2 ^ (da - 1 + s - db) <= q).
    { apply Z.div_le_lower_bound; [done|].
      assert (E : 2 ^ (da - 1 + s - db) * 2 ^ db = 2 ^ (da - 1) * 2 ^ s).
      { rewrite <- !Z.pow_add_r by lia. f_equal. lia. }
      assert (0 < 2 ^ (da - 1 + s - db)) by (apply Z.pow_pos_nonneg; lia).
      nia. }
    pose proof (Zdigits2_ge_pow q (da - 1 + s - db) ltac:(lia) Hlow). lia.
  - assert (Hup : q < 2 ^ (da + s)).
    { apply Z.div_lt_upper_bound; [done|]. rewrite Z.pow_add_r by lia.
      assert (0 < 2 ^ da) by (apply Z.pow_pos_nonneg; lia).
      assert (a * 2 ^ s < 2 ^ da * 2 ^ s) by nia.
      assert (0 < 2 ^ da * 2 ^ s) by nia.
      assert (2 ^ da * 2 ^ s <= b * (2 ^ da * 2 ^ s)) by nia. lia. }
    pose proof (Zdigits2_le_pow q (da + s) ltac:(lia) ltac:(lia)). lia.
Qed.

Theorem SFdiv_int (sa : bool) (a b : positive) :
  let s := div_shift (Z.pos a) (Z.pos b) in
  let q := Z.pos a * 2 ^ s / Z.pos b in
  let k := Z.max 0 (fexp prec emax (Zdigits2 q - s) + s) in
  SFdiv prec emax (S754_finite sa a 0) (S754_finite false b 0) =
    pack sa (rne (Z.pos a * 2 ^ s) (Z.pos b * 2 ^ k)) (k - s) /\
  valid_binary (SFdiv prec emax (S754_finite sa a 0) (S754_finite false b 0)) = true /\
  0 <= s /\ 0 <= k /\ k - s <= Z.max (Zdigits2 (Z.pos a) - 53) 0.
Proof.
  intros s q k. unfold SFdiv.
  destruct (SFdiv_core_int (Z.pos a) (Z.pos b) ltac:(lia) ltac:(lia)) as (Hs & E).
  fold s in Hs, E. rewrite E. fold q. rewrite xorb_false_r.
  destruct (div_quotient_digits (Z.pos a) (Z.pos b) ltac:(lia) ltac:(lia))
    as (Hq0 & Hfexp & Hdq).
  fold s q in Hq0, Hfexp, Hdq.
  assert (Hrep : represents (shr_record_of_loc q (new_location (Z.pos b) (Z.pos a * 2 ^ s mod Z.pos b)))
                   (Z.pos a * 2 ^ s) (Z.pos b)).
  { apply new_location_represents; [lia| |].
    - apply Z.mod_pos_bound. lia.
    - pose proof (Z.div_mod (Z.pos a * 2 ^ s) (Z.pos b) ltac:(lia)). subst q. lia. }
  split; [|split].
  - rewrite (binary_round_aux_correct sa q (- s) _ _ _ Hq0 (Pos2Z.is_pos b) Hrep).
    replace (Zdigits2 q + - s) with (Zdigits2 q - s) by lia.
    replace (fexp prec emax (Zdigits2 q - s) - - s)
      with (fexp prec emax (Zdigits2 q - s) + s) by lia.
    fold k. f_equal. lia.
  - apply (binary_round_aux_valid sa q (- s) _ _ _ Hq0 (Pos2Z.is_pos b) Hrep).
    replace (Zdigits2 q + - s) with (Zdigits2 q - s) by lia. done.
  - split; [done|]. split; [lia|]. subst k. rewrite fexp64 in *. lia.
Qed.

(* ===================================================================== *)
(** * Binary64: the percentile index *)
(* ===================================================================== *)

Lemma pow2_split d : 1 <= d <= 53 ->
  2 ^ (d - 1) * 2 ^ (53 - d) = 2 ^ 52 /\ 2 ^ d * 2 ^ (53 - d) = 2 ^ 53 /\ 0 < 2 ^ (53 - d).
Proof.
  intros Hd. rewrite <- !Z.pow_add_r by lia.
  replace (d - 1 + (53 - d)) with 52 by lia. replace (d + (53 - d)) with 53 by lia.
  split; [done|]. split; [done|]. apply Z.pow_pos_nonneg; lia.
Qed.

(** The arithmetic behind the percentile index.  [P] is the exact product
    mantissa, [K] the rounding step, [m1] the rounded mantissa and [S] the
    weight of one unit of the result; [a / b] is the percentile and [c] how
    far the binary64 constant falls short of it. *)
Section RankCore.
Variables a b c X P K S T rho m1 : Z.
Hypothesis Hab : 0 < a < b.
Hypothesis Hb : b < 128.
Hypothesis Hc : 0 <= c.
Hypothesis Hca : 2 * c < a.
Hypothesis HK : 0 < K.
Hypothesis HS : 64 <= S.
Hypothesis HX : 0 < X.
Hypothesis Hrho : 0 <= rho < b.
Hypothesis EbP : b * P = (b * T + rho) * (S * K) - c * X.
Hypothesis EXM : b * P = X * (a * 2 ^ 53 - c).
Hypothesis Hub : P < 2 ^ 53 * K.
Hypothesis HcX : c * X <= S * K.
Hypothesis Hnear : 2 * Z.abs (m1 * K - P) <= K.

Lemma rank_core_lower : T * S <= m1.
Proof using All.
  destruct (Z.le_gt_cases (T * S) m1) as [|Hlt]; [done|exfalso].
  assert (H1 : (m1 + 1) * K <= T * S * K)
    by (apply Z.mul_le_mono_nonneg_r; lia).
  assert (H2 : K <= 2 * (T * S * K) - 2 * P) by lia.
  assert (H3 : b * K <= b * (2 * (T * S * K) - 2 * P))
    by (apply Z.mul_le_mono_nonneg_l; lia).
  assert (H4 : b * K <= 2 * (c * X) - 2 * (rho * (S * K))) by lia.
  assert (HSK : 0 < S * K) by (apply Z.mul_pos_pos; lia).
  assert (HbK : 0 < b * K) by (apply Z.mul_pos_pos; lia).
  destruct (Z.eq_dec rho 0) as [E0|Hne].
  - rewrite E0, Z.mul_0_l in H4.
    assert (H5 : b * P < b * (2 ^ 53 * K)) by (apply Z.mul_lt_mono_pos_l; lia).
    assert (H6 : X * (a * 2 ^ 53 - c) < X * (2 ^ 54 * c)).
    { change (2 ^ 54) with (2 * 2 ^ 53). lia. }
    apply Z.mul_lt_mono_pos_l in H6; [|done].
    change (2 ^ 54) with 18014398509481984 in H6.
    change (2 ^ 53) with 9007199254740992 in H6. lia.
  - assert (H5 : 1 * (S * K) <= rho * (S * K))
      by (apply Z.mul_le_mono_nonneg_r; lia).
    lia.
Qed.

Lemma rank_core_upper : m1 < T * S + S.
Proof using All.
  destruct (Z.lt_ge_cases m1 (T * S + S)) as [|Hge]; [done|exfalso].
  assert (H1 : (T * S + S) * K <= m1 * K)
    by (apply Z.mul_le_mono_nonneg_r; lia).
  assert (H2 : 2 * ((T * S + S) * K) - 2 * P <= K) by lia.
  assert (H3 : b * (2 * ((T * S + S) * K) - 2 * P) <= b * K)
    by (apply Z.mul_le_mono_nonneg_l; lia).
  assert (H4 : 2 * ((b - rho) * (S * K)) + 2 * (c * X) <= b * K) by lia.
  assert (HSK : 0 < S * K) by (apply Z.mul_pos_pos; lia).
  assert (H5 : 1 * (S * K) <= (b - rho) * (S * K))
    by (apply Z.mul_le_mono_nonneg_r; lia).
  assert (H6 : 0 <= c * X) by (apply Z.mul_nonneg_nonneg; lia).
  assert (H7 : 64 * K <= S * K) by (apply Z.mul_le_mono_nonneg_r; lia).
  assert (H8 : b * K <= 127 * K) by (apply Z.mul_le_mono_nonneg_r; lia).
  lia.
Qed.
End RankCore.

Lemma index_arith a b c M n d :
  0 < a < b -> b < 128 -> 0 <= c -> 2 * c < a ->
  b * M = a * 2 ^ 53 - c -> 2 ^ 52 <= M < 2 ^ 53 ->
  1 <= d <= 47 -> 2 ^ (d - 1) <= n < 2 ^ d ->
  let P := n * 2 ^ (53 - d) * M in
  let k := Zdigits2 P - 53 in
  52 <= k <= 53 /\
  2 ^ 52 <= rne P (2 ^ k) <= 2 ^ 53 /\
  rne P (2 ^ k) / 2 ^ (106 - d - k) = a * n / b.
Proof.
  intros Hab Hb Hc Hca HM HMr Hd Hn P k.
  destruct (pow2_split d ltac:(lia)) as (Elo & Ehi & Hu).
  set (u := 2 ^ (53 - d)) in *.
  set (X := n * u) in *.
  assert (Hn0 : 0 < n).
  { assert (0 < 2 ^ (d - 1)) by (apply Z.pow_pos_nonneg; lia). lia. }
  assert (HX : 2 ^ 52 <= X < 2 ^ 53).
  { subst X. rewrite <- Elo, <- Ehi. split.
    - apply Z.mul_le_mono_nonneg_r; lia.
    - apply Z.mul_lt_mono_pos_r; lia. }
  assert (HP : 2 ^ 104 <= P < 2 ^ 106).
  { change (2 ^ 104) with (2 ^ 52 * 2 ^ 52). change (2 ^ 106) with (2 ^ 53 * 2 ^ 53).
    subst P. fold X. split.
    - apply Z.mul_le_mono_nonneg; lia.
    - apply Z.mul_lt_mono_nonneg; lia. }
  destruct (Zdigits2_bounds P ltac:(lia)) as (Hd0 & Hlb & Hub).
  assert (Hk : 52 <= k <= 53).
  { subst k.
    assert (Zdigits2 P - 1 < 106) by (apply (Z.pow_lt_mono_r_iff 2); lia).
    assert (104 < Zdigits2 P) by (apply (Z.pow_lt_mono_r_iff 2); lia). lia. }
  split; [done|].
  assert (Epk : 2 ^ (Zdigits2 P - 1) = 2 ^ 52 * 2 ^ k /\ 2 ^ (Zdigits2 P) = 2 ^ 53 * 2 ^ k).
  { rewrite <- !Z.pow_add_r by lia. split; f_equal; lia. }
  destruct Epk as (Epl & Eph). rewrite Epl in Hlb. rewrite Eph in Hub.
  assert (Hpk : 0 < 2 ^ k) by (apply Z.pow_pos_nonneg; lia).
  pose proof (rne_nearest P (2 ^ k) Hpk) as Hnear.
  assert (Hm1 : 2 ^ 52 <= rne P (2 ^ k) <= 2 ^ 53).
  { split.
    - apply rne_ge; [done|lia].
    - apply rne_le; [done|lia]. }
  split; [done|].
  set (m1 := rne P (2 ^ k)) in *.
  set (S := 2 ^ (106 - d - k)).
  assert (HS : S * 2 ^ k = 2 ^ 53 * u /\ 64 <= S).
  { subst S u. rewrite <- !Z.pow_add_r by lia. split; [f_equal; lia|].
    change 64 with (2 ^ 6). apply Z.pow_le_mono_r; lia. }
  destruct HS as (HSW & HS64).
  set (T := a * n / b). set (rho := a * n mod b).
  assert (Hdiv : a * n = b * T + rho) by (subst T rho; apply Z.div_mod; lia).
  assert (Hrho : 0 <= rho < b) by (subst rho; apply Z.mod_pos_bound; lia).
  assert (EXM : b * P = X * (a * 2 ^ 53 - c)).
  { subst P X. replace (b * (n * u * M)) with (n * u * (b * M)) by ring. by rewrite HM. }
  assert (EbP : b * P = (b * T + rho) * (S * 2 ^ k) - c * X).
  { rewrite EXM, HSW, <- Hdiv. subst X. ring. }
  assert (HcX : c * X <= S * 2 ^ k).
  { rewrite HSW. subst X. replace (c * (n * u)) with (c * n * u) by ring.
    apply Z.mul_le_mono_nonneg_r; [lia|].
    assert (c * n <= 63 * n) by (apply Z.mul_le_mono_nonneg_r; lia).
    assert (n < 2 ^ 47).
    { eapply Z.lt_le_trans; [apply Hn|]. apply Z.pow_le_mono_r; lia. }
    change (2 ^ 47) with 140737488355328 in *.
    change (2 ^ 53) with 9007199254740992. lia. }
  symmetry. apply Z.div_unique with (r := m1 - T * S); [|lia].
  left.
  assert (HX0 : 0 < X) by lia.
  pose proof (rank_core_lower a b c X P (2 ^ k) S T rho m1
                Hab Hb Hc Hca Hpk HS64 HX0 Hrho EbP EXM Hub HcX Hnear).
  pose proof (rank_core_upper a b c X P (2 ^ k) S T rho m1
                Hab Hb Hc Hca Hpk HS64 HX0 Hrho EbP EXM Hub HcX Hnear).
  lia.
Qed.

Lemma normalized_int_valid n :
  0 < n < 2 ^ 53 ->
  valid_binary (S754_finite false (Z.to_pos (n * 2 ^ (53 - Zdigits2 n))) (Zdigits2 n - 53)) = true.
Proof.
  intros Hn. rewrite <- binary_normalize_exact by done.
  destruct n as [|p|p]; try lia.
  unfold binary_normalize, binary_round.
  destruct (shl_align p 0 (fexp prec emax (Z.pos (digits2_pos p) + 0))) as [mz ez] eqn:E.
  apply (binary_round_aux_valid false (Z.pos mz) ez loc_Exact (Z.pos mz) 1);
    [lia|lia|apply represents_exact|].
  unfold shl_align in E. rewrite Z.sub_0_r, Z.add_0_r in E.
  change (Z.pos (digits2_pos p)) with (Zdigits2 (Z.pos p)) in E.
  destruct (Zdigits2_bounds (Z.pos p) ltac:(lia)) as (Hd0 & Hlb & Hub).
  assert (Hd : Zdigits2 (Z.pos p) <= 53).
  { assert (Zdigits2 (Z.pos p) - 1 < 53); [|lia]. apply (Z.pow_lt_mono_r_iff 2); lia. }
  rewrite fexp64 in E.
  replace (Z.max (Zdigits2 (Z.pos p) - 53) (-1074)) with (Zdigits2 (Z.pos p) - 53) in E by lia.
  destruct (Zdigits2 (Z.pos p) - 53) as [|q|q] eqn:Eq; try lia; injection E as <- <-.
  - rewrite fexp64. lia.
  - assert (Zdigits2 (Z.pos (Pos.iter xO p q)) = 53).
    { apply Zdigits2_unique; [|lia]. rewrite Zpos_iter_xO.
      destruct (pow2_split (Zdigits2 (Z.pos p)) ltac:(lia)) as (Elo & Ehi & Hu).
      replace (Z.pos q) with (53 - Zdigits2 (Z.pos p)) by lia.
      change (2 ^ (53 - 1)) with (2 ^ 52). nia. }
    rewrite fexp64. lia.
Qed.

Lemma float_of_int_exact n :
  0 < n < 2 ^ 53 ->
  exists f, float_of_int n = Return f /\
    Prim2SF f = S754_finite false (Z.to_pos (n * 2 ^ (53 - Zdigits2 n))) (Zdigits2 n - 53).
Proof.
  intros Hn. unfold float_of_int. rewrite binary_normalize_exact by done.
  eexists. split; [done|]. apply Prim2SF_SF2Prim. by apply normalized_int_valid.
Qed.

Lemma Zdigits2_range n d : 0 < n -> Zdigits2 n = d -> 2 ^ (d - 1) <= n < 2 ^ d /\ 0 < d.
Proof. intros Hn <-. destruct (Zdigits2_bounds n Hn). tauto. Qed.

Lemma Zdigits2_le_mono n b : 0 < n < 2 ^ b -> 0 <= b -> Zdigits2 n <= b.
Proof.
  intros Hn Hb. destruct (Zdigits2_bounds n ltac:(lia)) as (Hd0 & Hlb & Hub).
  assert (Zdigits2 n - 1 < b); [|lia]. apply (Z.pow_lt_mono_r_iff 2); lia.
Qed.

(** [int(n * c)] for a constant [c] just below [a / b]. *)
Lemma int_mul_constant (c : float) (M : positive) a b delta n :
  Prim2SF c = S754_finite false M (-53) ->
  0 < a < b -> b < 128 -> 0 <= delta -> 2 * delta < a ->
  b * Z.pos M = a * 2 ^ 53 - delta -> 2 ^ 52 <= Z.pos M < 2 ^ 53 ->
  0 < n < 2 ^ 47 ->
  (x ← mul (PyInt n) (PyFloat c); int x) = Return (a * n / b).
Proof.
  intros Ec Hab Hb Hd Hda HM HMr Hn.
  destruct (float_of_int_exact n ltac:(lia)) as (fn & Efn & Sfn).
  unfold mul, as_float. rewrite Efn. simpl.
  unfold int_of_float. rewrite mul_spec, Sfn, Ec.
  set (d := Zdigits2 n) in *.
  assert (Hdr : 2 ^ (d - 1) <= n < 2 ^ d /\ 0 < d) by (apply Zdigits2_range; lia).
  assert (Hd47 : d <= 47) by (apply Zdigits2_le_mono; lia).
  destruct (index_arith a b delta (Z.pos M) n d) as (Hk & Hm1 & Hidx); try lia.
  unfold SF64mul, SFmul. cbn [xorb].
  assert (Hu : 0 < 2 ^ (53 - d)) by (apply Z.pow_pos_nonneg; lia).
  assert (EP : Z.pos (Z.to_pos (n * 2 ^ (53 - d)) * M) = n * 2 ^ (53 - d) * Z.pos M).
  { rewrite Pos2Z.inj_mul, Z2Pos.id by nia. done. }
  rewrite EP.
  set (P := n * 2 ^ (53 - d) * Z.pos M) in *.
  assert (HP0 : 0 < P) by (subst P; nia).
  rewrite (binary_round_aux_correct false P (d - 53 + -53) loc_Exact P 1)
    by (lia || apply represents_exact).
  rewrite fexp64.
  set (k := Zdigits2 P - 53) in *.
  replace (Z.max 0 (Z.max (Zdigits2 P + (d - 53 + -53) - 53) (-1074) - (d - 53 + -53)))
    with k by lia.
  rewrite Z.mul_1_l.
  set (m1 := rne P (2 ^ k)) in *.
  unfold pack. destruct m1 as [|q|q] eqn:Em1; try lia.
  destruct (Z.ltb_spec (Z.pos q) (2 ^ 53)) as [Hlt|Hge].
  - destruct (Z.leb_spec (d - 53 + -53 + k) (emax - prec)) as [_|Hgt];
      [|unfold emax, prec in Hgt; lia].
    cbn [cond_Zopp]. f_equal. rewrite <- Hidx.
    rewrite Z.shiftl_div_pow2 by lia. f_equal. f_equal. lia.
  - destruct (Z.leb_spec (d - 53 + -53 + k + 1) (emax - prec)) as [_|Hgt];
      [|unfold emax, prec in Hgt; lia].
    cbn [cond_Zopp]. f_equal. rewrite <- Hidx.
    assert (Eq : Z.pos q = 2 ^ 53) by lia. rewrite Eq.
    rewrite Z.shiftl_div_pow2 by lia.
    rewrite Z2Pos.id by lia.
    replace (106 - d - k) with (1 + - (d - 53 + -53 + k + 1)) by lia.
    rewrite Z.pow_add_r by lia. change (2 ^ 53) with (2 ^ 1 * 2 ^ 52).
    rewrite Z.div_mul_cancel_l; [done| |lia].
    apply Z.pow_nonzero; lia.
Qed.

Lemma p95_index n : 0 < n < 2 ^ 47 ->
  (x ← mul (PyInt n) (PyFloat 0.95); int x) = Return (19 * n / 20).
Proof.
  intros Hn.
  apply (int_mul_constant 0.95%float 8556839292003942 19 20 8); try done; lia.
Qed.

Lemma p99_index n : 0 < n < 2 ^ 47 ->
  (x ← mul (PyInt n) (PyFloat 0.99); int x) = Return (99 * n / 100).
Proof.
  intros Hn.
  apply (int_mul_constant 0.99%float 8917127262193582 99 100 8); try done; lia.
Qed.

(* ===================================================================== *)
(** * Binary64: the order on values *)
(* ===================================================================== *)

Lemma valid_finite_bounds s m e :
  valid_binary (S754_finite s m e) = true ->
  Z.pos m < 2 ^ 53 /\ -1074 <= e <= 971 /\ (2 ^ 52 <= Z.pos m \/ e = -1074).
Proof.
  unfold valid_binary, bounded, canonical_mantissa.
  intros H. apply andb_true_iff in H as [Hc Hb].
  apply Z.eqb_eq in Hc. apply Z.leb_le in Hb. unfold emax, prec in Hb.
  rewrite fexp64 in Hc.
  change (Z.pos (digits2_pos m)) with (Zdigits2 (Z.pos m)) in Hc.
  destruct (Zdigits2_bounds (Z.pos m) ltac:(lia)) as (Hd0 & Hlb & Hub).
  assert (Hd : Zdigits2 (Z.pos m) <= 53) by lia.
  split.
  - eapply Z.lt_le_trans; [exact Hub|]. apply Z.pow_le_mono_r; lia.
  - split; [lia|].
    destruct (decide (e = -1074)) as [|Hne]; [by right|left].
    assert (Zdigits2 (Z.pos m) = 53) by lia.
    replace 52 with (Zdigits2 (Z.pos m) - 1) by lia. done.
Qed.

Lemma SFcompare_key x y :
  valid_binary x = true -> valid_binary y = true ->
  x <> S754_nan -> y <> S754_nan ->
  SFcompare x y = Some (SFkey x ?= SFkey y).
Proof.
  intros Hx Hy Nx Ny.
  destruct x as [sx|sx| |sx mx ex], y as [sy|sy| |sy my ey]; try done;
    try (apply valid_finite_bounds in Hx as (Hx1 & Hx2 & Hx3));
    try (apply valid_finite_bounds in Hy as (Hy1 & Hy2 & Hy3));
    cbn [SFcompare SFkey]; f_equal; symmetry;
    change (2 ^ 53) with 9007199254740992 in *;
    try (destruct sx); try (destruct sy); cbn [cond_Zopp];
    try first [ reflexivity
              | apply Z.compare_gt_iff; lia
              | apply Z.compare_lt_iff; lia ].
  - destruct (Z.compare_spec ex ey) as [->|Hlt|Hgt].
    + rewrite Pos.compare_cont_spec. cbn [Pos.switch_Eq].
      change (Pos.compare mx my) with (Z.pos mx ?= Z.pos my).
      destruct (Z.compare_spec (Z.pos mx) (Z.pos my)); cbn [CompOpp];
        [apply Z.compare_eq_iff | apply Z.compare_gt_iff | apply Z.compare_lt_iff]; lia.
    + apply Z.compare_gt_iff. lia.
    + apply Z.compare_lt_iff. lia.
  - destruct (Z.compare_spec ex ey) as [->|Hlt|Hgt].
    + rewrite Pos.compare_cont_spec. cbn [Pos.switch_Eq].
      change (Pos.compare mx my) with (Z.pos mx ?= Z.pos my).
      destruct (Z.compare_spec (Z.pos mx) (Z.pos my));
        [apply Z.compare_eq_iff | apply Z.compare_lt_iff | apply Z.compare_gt_iff]; lia.
    + apply Z.compare_lt_iff. lia.
    + apply Z.compare_gt_iff. lia.
Qed.

Lemma is_nan_spec f : is_nan f = false <-> Prim2SF f <> S754_nan.
Proof.
  unfold is_nan. rewrite FloatAxioms.eqb_spec. unfold SFeqb.
  pose proof (Prim2SF_valid f) as Hv.
  destruct (Prim2SF f) as [s|s| |s m e] eqn:E.
  - done.
  - by destruct s.
  - cbn. split; [done|]. intros H. by destruct H.
  - rewrite SFcompare_key by done. by rewrite Z.compare_refl.
Qed.

Lemma ltb_key x y :
  is_nan x = false -> is_nan y = false -> (x <? y)%float = (key x <? key y).
Proof.
  intros Hx Hy. rewrite FloatAxioms.ltb_spec. unfold SFltb.
  rewrite SFcompare_key; try apply Prim2SF_valid; try by apply is_nan_spec.
  unfold key, Z.ltb. by destruct (SFkey (Prim2SF x) ?= SFkey (Prim2SF y)).
Qed.

Lemma leb_key x y :
  is_nan x = false -> is_nan y = false -> (x <=? y)%float = (key x <=? key y).
Proof.
  intros Hx Hy. rewrite FloatAxioms.leb_spec. unfold SFleb.
  rewrite SFcompare_key; try apply Prim2SF_valid; try by apply is_nan_spec.
  unfold key, Z.leb. by destruct (SFkey (Prim2SF x) ?= SFkey (Prim2SF y)).
Qed.

(* ===================================================================== *)
(** * Sorting, minimum and maximum *)
(* ===================================================================== *)

Lemma insert_Permutation x l : Permutation (insert x l) (x :: l).
Proof.
  induction l as [|y l IH]; simpl; [done|].
  destruct (y <? x)%float; [|done].
  rewrite IH. apply perm_swap.
Qed.

Lemma sorted_Permutation xs : Permutation (sorted xs) xs.
Proof.
  induction xs as [|x xs IH]; simpl; [done|].
  rewrite insert_Permutation. by constructor.
Qed.

Lemma sorted_length xs : length (sorted xs) = length xs.
Proof. apply Permutation_length, sorted_Permutation. Qed.

Lemma no_nan_Permutation xs ys : Permutation xs ys -> no_nan xs -> no_nan ys.
Proof. intros Hp. unfold no_nan. by rewrite Hp. Qed.

Lemma insert_sorted x l :
  is_nan x = false -> no_nan l ->
  StronglySorted key_le l -> StronglySorted key_le (insert x l).
Proof.
  intros Hx Hl Hs. induction Hs as [|y l Hs IH Hy]; simpl.
  - repeat constructor.
  - apply Forall_cons in Hl as [Hny Hnl].
    rewrite ltb_key by done.
    destruct (Z.ltb_spec (key y) (key x)) as [Hlt|Hge].
    + constructor; [by apply IH|].
      rewrite (insert_Permutation x l). constructor; [unfold key_le; lia|done].
    + constructor; [by constructor|].
      constructor; [done|].
      eapply Forall_impl; [exact Hy|]. unfold key_le. intros; lia.
Qed.

Lemma sorted_StronglySorted xs : no_nan xs -> StronglySorted key_le (sorted xs).
Proof.
  induction xs as [|x xs IH]; intros Hn; simpl; [constructor|].
  apply Forall_cons in Hn as [Hx Hxs].
  apply insert_sorted; [done| |by apply IH].
  eapply no_nan_Permutation; [|exact Hxs]. symmetry. apply sorted_Permutation.
Qed.

Lemma StronglySorted_lookup (l : list float) i j x y :
  StronglySorted key_le l -> (i <= j)%nat ->
  l !! i = Some x -> l !! j = Some y -> key_le x y.
Proof.
  intros Hs. revert i j. induction Hs as [|z l Hs IH Hz]; intros i j Hij Hi Hj; [done|].
  destruct i as [|i], j as [|j]; simpl in *; simplify_eq.
  - unfold key_le. lia.
  - rewrite Forall_forall in Hz. apply Hz. by eapply list_elem_of_lookup_2.
  - lia.
  - eapply IH; [|done..]. lia.
Qed.

(** [min] and [max] return an element that bounds the others. *)
Lemma min_spec x xs :
  no_nan (x :: xs) ->
  min x xs ∈ x :: xs /\ Forall (fun y => key (min x xs) <= key y) (x :: xs).
Proof.
  unfold min. revert x. induction xs as [|y xs IH]; intros x Hn; simpl.
  - split; [by left|]. constructor; [lia|constructor].
  - apply Forall_cons in Hn as [Hx Hn]. apply Forall_cons in Hn as [Hy Hn].
    rewrite ltb_key by done.
    destruct (Z.ltb_spec (key y) (key x)) as [Hlt|Hge].
    + destruct (IH y) as [Hin Hall]; [by constructor|].
      split.
      * apply elem_of_cons in Hin as [->|Hin]; [right; by left|right; by right].
      * apply Forall_cons in Hall as [Hmy Hall].
        constructor; [lia|]. by constructor.
    + destruct (IH x) as [Hin Hall]; [by constructor|].
      split.
      * apply elem_of_cons in Hin as [->|Hin]; [by left|right; by right].
      * apply Forall_cons in Hall as [Hmx Hall].
        constructor; [done|]. constructor; [lia|done].
Qed.

Lemma max_spec x xs :
  no_nan (x :: xs) ->
  max x xs ∈ x :: xs /\ Forall (fun y => key y <= key (max x xs)) (x :: xs).
Proof.
  unfold max. revert x. induction xs as [|y xs IH]; intros x Hn; simpl.
  - split; [by left|]. constructor; [lia|constructor].
  - apply Forall_cons in Hn as [Hx Hn]. apply Forall_cons in Hn as [Hy Hn].
    rewrite ltb_key by done.
    destruct (Z.ltb_spec (key x) (key y)) as [Hlt|Hge].
    + destruct (IH y) as [Hin Hall]; [by constructor|].
      split.
      * apply elem_of_cons in Hin as [->|Hin]; [right; by left|right; by right].
      * apply Forall_cons in Hall as [Hmy Hall].
        constructor; [lia|]. by constructor.
    + destruct (IH x) as [Hin Hall]; [by constructor|].
      split.
      * apply elem_of_cons in Hin as [->|Hin]; [by left|right; by right].
      * apply Forall_cons in Hall as [Hmx Hall].
        constructor; [done|]. constructor; [lia|done].
Qed.

Lemma getitem_in_range {A} (xs : list A) i :
  0 <= i < len xs -> exists x, getitem xs i = Return x /\ xs !! Z.to_nat i = Some x.
Proof.
  intros Hi. unfold getitem.
  destruct (Z.ltb_spec i 0); [lia|].
  destruct (Z.ltb_spec i 0); [lia|].
  destruct (Z.leb_spec (len xs) i); [lia|]. simpl.
  destruct (xs !! Z.to_nat i) as [x|] eqn:E.
  - by exists x.
  - apply lookup_ge_None in E. unfold len in Hi. lia.
Qed.

(* ===================================================================== *)
(** * Percentiles *)
(* ===================================================================== *)

Lemma Qfloor_scale n a b : Qfloor (inject_Z n * (a # b)) = n * a / Z.pos b.
Proof. unfold Qfloor, Qmult, inject_Z. cbn [Qnum Qden]. by rewrite Pos.mul_1_l. Qed.

Lemma Qfloor_in_range count p :
  0 < count -> (0 < p)%Q -> (p < 1)%Q ->
  0 <= Qfloor (inject_Z count * p) < count.
Proof.
  intros Hc Hp0 Hp1. destruct p as [a b].
  rewrite Qfloor_scale.
  unfold Qlt in *. simpl in *.
  assert (0 < a < Z.pos b) by lia.
  split.
  - apply Z.div_pos; nia.
  - apply Z.div_lt_upper_bound; nia.
Qed.

Lemma rank_95 n : n * 95 / 100 = 19 * n / 20.
Proof.
  replace (n * 95) with (19 * n * 5) by ring. change 100 with (20 * 5).
  by rewrite Z.div_mul_cancel_r.
Qed.

Lemma rank_99 n : n * 99 / 100 = 99 * n / 100.
Proof. f_equal. ring. Qed.

Lemma rank_bounds n : 0 < n -> 0 <= 19 * n / 20 <= 99 * n / 100 /\ 99 * n / 100 < n.
Proof.
  intros Hn. split; [split|].
  - apply Z.div_pos; lia.
  - replace (19 * n) with (95 * n / 5) by (rewrite Z.mul_comm; replace (n * 95) with (n * 19 * 5) by ring;
      rewrite Z.div_mul by lia; ring).
    rewrite Z.div_div by lia. apply Z.div_le_mono; lia.
  - apply Z.div_lt_upper_bound; lia.
Qed.

Lemma len_sorted xs : len (sorted xs) = len xs.
Proof. unfold len. by rewrite sorted_length. Qed.

Lemma len_pos {A} (xs : list A) : xs <> [] -> 0 < len xs.
Proof. destruct xs; [done|]. unfold len. simpl. lia. Qed.

(** The two percentile accessors, once the index is known. *)
Lemma p95_response_time_eq self :
  response_times self <> [] -> len (response_times self) < 2 ^ 47 ->
  p95_response_time self =
  PyFloat <$> getitem (sorted (response_times self))
                (19 * len (response_times self) / 20).
Proof.
  intros Hne Hlen. unfold p95_response_time.
  destruct (response_times self) as [|x xs] eqn:E; [done|]. rewrite <- E in *.
  pose proof (len_pos _ Hne) as Hpos.
  pose proof (p95_index (len (sorted (response_times self)))) as Hidx.
  rewrite len_sorted in Hidx. specialize (Hidx ltac:(lia)).
  rewrite len_sorted.
  destruct (mul (PyInt (len (response_times self))) (PyFloat 0.95)) as [v|e];
    simpl in Hidx; [|done].
  simpl. by rewrite Hidx.
Qed.

Lemma p99_response_time_eq self :
  response_times self <> [] -> len (response_times self) < 2 ^ 47 ->
  p99_response_time self =
  PyFloat <$> getitem (sorted (response_times self))
                (99 * len (response_times self) / 100).
Proof.
  intros Hne Hlen. unfold p99_response_time.
  destruct (response_times self) as [|x xs] eqn:E; [done|]. rewrite <- E in *.
  pose proof (len_pos _ Hne) as Hpos.
  pose proof (p99_index (len (sorted (response_times self)))) as Hidx.
  rewrite len_sorted in Hidx. specialize (Hidx ltac:(lia)).
  rewrite len_sorted.
  destruct (mul (PyInt (len (response_times self))) (PyFloat 0.99)) as [v|e];
    simpl in Hidx; [|done].
  simpl. by rewrite Hidx.
Qed.

Lemma percentile_value seq i :
  seq <> [] -> 0 <= i < len seq ->
  exists x, getitem (sorted seq) i = Return x /\ sorted seq !! Z.to_nat i = Some x /\
            x ∈ seq.
Proof.
  intros Hne Hi.
  destruct (getitem_in_range (sorted seq) i) as (x & Hg & Hl);
    [by rewrite len_sorted|].
  exists x. split; [done|]. split; [done|].
  rewrite <- (sorted_Permutation seq). by eapply list_elem_of_lookup_2.
Qed.

Lemma percentile_95 seq :
  seq <> [] ->
  percentile seq (95 # 100) = PyFloat <$> sorted seq !! Z.to_nat (19 * len seq / 20).
Proof.
  intros Hne. unfold percentile. destruct seq; [done|].
  by rewrite Qfloor_scale, rank_95.
Qed.

Lemma percentile_99 seq :
  seq <> [] ->
  percentile seq (99 # 100) = PyFloat <$> sorted seq !! Z.to_nat (99 * len seq / 100).
Proof.
  intros Hne. unfold percentile. destruct seq; [done|].
  by rewrite Qfloor_scale, rank_99.
Qed.

(** C2. [p95_response_time] and [p99_response_time] return what the
    nearest-rank rule [percentile] returns for [p = 95/100] and
    [p = 99/100]: the element at index [floor(count * p)] of the latencies
    sorted in ascending order, and 0 when there is none.  On
    [10, 20, 30, 40, 50] both indices are 4 and both values 50.
    (Sequences of fewer than 2^47 latencies.) *)
Theorem percentile_nearest_rank self :
  len (response_times self) < 2 ^ 47 ->
  (exists v, percentile (response_times self) (95 # 100) = Some v /\
             p95_response_time self = Return v) /\
  (exists v, percentile (response_times self) (99 # 100) = Some v /\
             p99_response_time self = Return v) /\
  (response_times self = [] ->
   p95_response_time self = Return (PyInt 0) /\
   p99_response_time self = Return (PyInt 0)) /\
  Permutation (sorted (response_times self)) (response_times self) /\
  (no_nan (response_times self) ->
   StronglySorted key_le (sorted (response_times self))) /\
  (Qfloor (inject_Z 5 * (95 # 100)) = 4 /\
   Qfloor (inject_Z 5 * (99 # 100)) = 4 /\
   p95_response_time (latencies [10; 20; 30; 40; 50]%float) = Return (PyFloat 50) /\
   p99_response_time (latencies [10; 20; 30; 40; 50]%float) = Return (PyFloat 50)).
Proof.
  intros Hlen.
  assert (Hempty : response_times self = [] ->
                   p95_response_time self = Return (PyInt 0) /\
                   p99_response_time self = Return (PyInt 0)).
  { intros E. unfold p95_response_time, p99_response_time. by rewrite E. }
  split; [|split; [|split; [done|split; [apply sorted_Permutation|split]]]].
  - destruct (decide (response_times self = [])) as [E|Hne].
    + exists (PyInt 0). split; [by rewrite E|]. by apply Hempty.
    + pose proof (len_pos _ Hne) as Hpos.
      destruct (rank_bounds _ Hpos) as (Hb1 & Hb2).
      destruct (percentile_value (response_times self)
                  (19 * len (response_times self) / 20) Hne ltac:(lia))
        as (x & Hg & Hl & _).
      exists (PyFloat x). split.
      * rewrite percentile_95 by done. by rewrite Hl.
      * rewrite p95_response_time_eq by done. by rewrite Hg.
  - destruct (decide (response_times self = [])) as [E|Hne].
    + exists (PyInt 0). split; [by rewrite E|]. by apply Hempty.
    + pose proof (len_pos _ Hne) as Hpos.
      destruct (rank_bounds _ Hpos) as (Hb1 & Hb2).
      destruct (percentile_value (response_times self)
                  (99 * len (response_times self) / 100) Hne ltac:(lia))
        as (x & Hg & Hl & _).
      exists (PyFloat x). split.
      * rewrite percentile_99 by done. by rewrite Hl.
      * rewrite p99_response_time_eq by done. by rewrite Hg.
  - apply sorted_StronglySorted.
  - repeat split; vm_compute; reflexivity.
Qed.

Lemma percentile_nearest_rank_witness :
  len (response_times (latencies [30; 10; 50; 20; 40]%float)) < 2 ^ 47 /\
  percentile [30; 10; 50; 20; 40]%float (95 # 100) = Some (PyFloat 50) /\
  p95_response_time (latencies [30; 10; 50; 20; 40]%float) = Return (PyFloat 50).
Proof.
  assert (Hlen : len (response_times (latencies [30; 10; 50; 20; 40]%float)) < 2 ^ 47)
    by (vm_compute; reflexivity).
  split; [exact Hlen|].
  destruct (percentile_nearest_rank _ Hlen) as ((v & Hv & Hp) & _).
  assert (E : percentile [30; 10; 50; 20; 40]%float (95 # 100) = Some (PyFloat 50))
    by (vm_compute; reflexivity).
  split; [exact E|].
  change (response_times (latencies [30; 10; 50; 20; 40]%float))
    with [30; 10; 50; 20; 40]%float in Hv.
  rewrite E in Hv. injection Hv as <-. exact Hp.
Defined.

(** C9. For a non-empty sequence of [count] latencies and [0 < p < 1],
    [0 <= floor(count * p) < count]; the indices [int(count * 0.95)] and
    [int(count * 0.99)] the accessors compute in binary64 are these floors
    for [p = 95/100] and [p = 99/100], so both accessors return an element
    of the sequence and never raise [IndexError].
    (Sequences of fewer than 2^47 latencies.) *)
Theorem percentile_index_in_bounds self (p : Q) :
  response_times self <> [] -> len (response_times self) < 2 ^ 47 ->
  (0 < p)%Q -> (p < 1)%Q ->
  0 <= Qfloor (inject_Z (len (response_times self)) * p) < len (response_times self) /\
  (x ← mul (PyInt (len (response_times self))) (PyFloat 0.95); int x)
    = Return (Qfloor (inject_Z (len (response_times self)) * (95 # 100))) /\
  (x ← mul (PyInt (len (response_times self))) (PyFloat 0.99); int x)
    = Return (Qfloor (inject_Z (len (response_times self)) * (99 # 100))) /\
  (exists v, p95_response_time self = Return (PyFloat v) /\ v ∈ response_times self) /\
  (exists v, p99_response_time self = Return (PyFloat v) /\ v ∈ response_times self).
Proof.
  intros Hne Hlen Hp0 Hp1.
  pose proof (len_pos _ Hne) as Hpos.
  destruct (rank_bounds _ Hpos) as (Hb1 & Hb2).
  split; [by apply Qfloor_in_range|].
  split; [rewrite Qfloor_scale, rank_95; apply p95_index; lia|].
  split; [rewrite Qfloor_scale, rank_99; apply p99_index; lia|].
  split.
  - destruct (percentile_value (response_times self)
                (19 * len (response_times self) / 20) Hne ltac:(lia))
      as (x & Hg & _ & Hin).
    exists x. split; [|done]. rewrite p95_response_time_eq by done. by rewrite Hg.
  - destruct (percentile_value (response_times self)
                (99 * len (response_times self) / 100) Hne ltac:(lia))
      as (x & Hg & _ & Hin).
    exists x. split; [|done]. rewrite p99_response_time_eq by done. by rewrite Hg.
Qed.

Lemma percentile_index_in_bounds_witness :
  0 <= Qfloor (inject_Z (len [3; 1; 2]%float) * (1 # 2)) < len [3; 1; 2]%float.
Proof.
  apply (percentile_index_in_bounds (latencies [3; 1; 2]%float) (1 # 2)).
  - discriminate.
  - vm_compute. reflexivity.
  - reflexivity.
  - reflexivity.
Defined.

Lemma no_nan_elem xs x : no_nan xs -> x ∈ xs -> is_nan x = false.
Proof. unfold no_nan. rewrite Forall_forall. auto. Qed.

(** C3 (as amended). For a non-empty sequence of latencies, none of them
    NaN, the four order statistics are ordered:
    [min <= p95 <= p99 <= max].
    (Sequences of fewer than 2^47 latencies.) *)
Theorem latency_statistics_ordered self :
  response_times self <> [] -> no_nan (response_times self) ->
  len (response_times self) < 2 ^ 47 ->
  exists mn mx p95 p99,
    min_response_time self = Return (PyFloat mn) /\
    max_response_time self = Return (PyFloat mx) /\
    p95_response_time self = Return (PyFloat p95) /\
    p99_response_time self = Return (PyFloat p99) /\
    (mn <=? mx)%float = true /\
    (p95 <=? p99)%float = true /\
    (mn <=? p95)%float = true /\
    (p99 <=? mx)%float = true.
Proof.
  intros Hne Hnan Hlen.
  pose proof (len_pos _ Hne) as Hpos.
  destruct (rank_bounds _ Hpos) as (Hb1 & Hb2).
  destruct (percentile_value (response_times self)
              (19 * len (response_times self) / 20) Hne ltac:(lia))
    as (p95 & Hg95 & Hl95 & Hin95).
  destruct (percentile_value (response_times self)
              (99 * len (response_times self) / 100) Hne ltac:(lia))
    as (p99 & Hg99 & Hl99 & Hin99).
  destruct (response_times self) as [|x xs] eqn:E; [done|].
  destruct (min_spec x xs Hnan) as (Hmin_in & Hmin).
  destruct (max_spec x xs Hnan) as (Hmax_in & Hmax).
  exists (min x xs), (max x xs), p95, p99.
  rewrite Forall_forall in Hmin, Hmax.
  split; [unfold min_response_time; by rewrite E|].
  split; [unfold max_response_time; by rewrite E|].
  split; [rewrite p95_response_time_eq by (rewrite E; done); rewrite E; by rewrite Hg95|].
  split; [rewrite p99_response_time_eq by (rewrite E; done); rewrite E; by rewrite Hg99|].
  assert (Hs : StronglySorted key_le (sorted (x :: xs))) by by apply sorted_StronglySorted.
  repeat split; rewrite leb_key by (eapply no_nan_elem; done); apply Z.leb_le.
  - by apply Hmax.
  - apply (StronglySorted_lookup _ (Z.to_nat (19 * len (x :: xs) / 20))
             (Z.to_nat (99 * len (x :: xs) / 100)) _ _ Hs); [lia|done..].
  - by apply Hmin.
  - by apply Hmax.
Qed.

Lemma latency_statistics_ordered_witness :
  exists mn mx p95 p99,
    min_response_time (latencies [3; 1; 2]%float) = Return (PyFloat mn) /\
    max_response_time (latencies [3; 1; 2]%float) = Return (PyFloat mx) /\
    p95_response_time (latencies [3; 1; 2]%float) = Return (PyFloat p95) /\
    p99_response_time (latencies [3; 1; 2]%float) = Return (PyFloat p99) /\
    (mn <=? mx)%float = true /\
    (p95 <=? p99)%float = true /\
    (mn <=? p95)%float = true /\
    (p99 <=? mx)%float = true.
Proof.
  apply (latency_statistics_ordered (latencies [3; 1; 2]%float)).
  - discriminate.
  - repeat constructor.
  - vm_compute. reflexivity.
Defined.

(** C3, counterexample. The average of the three latencies
    [0.1, 0.1, 0.1] is [0.10000000000000002], above their maximum [0.1]: the
    sum rounds up to [0.30000000000000004].  (The compensated summation of
    CPython 3.12 returns the same sum.) *)
Lemma average_above_maximum :
  avg_response_time (latencies [0.1; 0.1; 0.1]%float)
    = Return (PyFloat 0.10000000000000002) /\
  max_response_time (latencies [0.1; 0.1; 0.1]%float) = Return (PyFloat 0.1) /\
  (0.10000000000000002 <=? 0.1)%float = false /\
  sum (PyFloat <$> [0.1; 0.1; 0.1]%float) = Return (PyFloat 0.30000000000000004) /\
  sum_compensated (0 + 0.1) 0 [0.1; 0.1]%float = 0.30000000000000004%float.
Proof. repeat split; vm_compute; reflexivity. Qed.

(* ===================================================================== *)
(** * Ratios: [success_rate] and [requests_per_second] *)
(* ===================================================================== *)

Lemma pack_cases s m E :
  0 <= m <= 2 ^ 53 -> E + 1 <= 971 ->
  (m = 0 /\ pack s m E = S754_zero s) \/
  (exists mp ep, pack s m E = S754_finite s mp ep /\
     (Z.pos mp = m /\ ep = E /\ m < 2 ^ 53 \/
      m = 2 ^ 53 /\ Z.pos mp = 2 ^ 52 /\ ep = E + 1)).
Proof.
  intros Hm HE. unfold pack. destruct m as [|p|p]; [by left| |lia]. right.
  destruct (Z.ltb_spec (Z.pos p) (2 ^ 53)).
  - destruct (Z.leb_spec E (emax - prec)) as [_|Hgt]; [|unfold emax, prec in Hgt; lia].
    exists p, E. split; [done|]. left. done.
  - destruct (Z.leb_spec (E + 1) (emax - prec)) as [_|Hgt]; [|unfold emax, prec in Hgt; lia].
    eexists _, _. split; [done|]. right. split; [lia|]. done.
Qed.

Lemma rne_range_div a b s k :
  0 < a -> 0 < b -> 0 <= s -> 0 <= k ->
  Zdigits2 (a * 2 ^ s / b) - 53 <= k ->
  0 <= rne (a * 2 ^ s) (b * 2 ^ k) <= 2 ^ 53.
Proof.
  intros Ha Hb Hs Hk Hd.
  assert (0 < 2 ^ s) by (apply Z.pow_pos_nonneg; lia).
  assert (0 < 2 ^ k) by (apply Z.pow_pos_nonneg; lia).
  assert (HD : 0 < b * 2 ^ k) by nia.
  pose proof (rne_bounds (a * 2 ^ s) (b * 2 ^ k) HD) as Hb'.
  rewrite <- Z.div_div in Hb' by lia.
  assert (0 <= a * 2 ^ s / b) by (apply Z.div_pos; nia).
  pose proof (shifted_mantissa_bound (a * 2 ^ s / b) k ltac:(lia) Hk Hd).
  assert (0 <= a * 2 ^ s / b / 2 ^ k) by (apply Z.div_pos; lia).
  lia.
Qed.

(** The quotient of two positive integers as a binary64 value. *)
Lemma int_truediv_pos (sa : bool) (a b : positive) :
  exists m E,
    SFdiv prec emax (S754_finite sa a 0) (S754_finite false b 0) = pack sa m E /\
    valid_binary (pack sa m E) = true /\
    0 <= m <= 2 ^ 53 /\ E <= Z.max (Zdigits2 (Z.pos a) - 53) 0 /\
    (Z.pos a <= Z.pos b -> E <= 0 /\ m <= 2 ^ (- E)) /\
    (Z.pos b < 2 ^ 64 -> 2 ^ 52 <= m).
Proof.
  destruct (SFdiv_int sa a b) as (E & Hv & Hs & Hk & HE).
  set (s := div_shift (Z.pos a) (Z.pos b)) in *.
  set (q := Z.pos a * 2 ^ s / Z.pos b) in *.
  set (k := Z.max 0 (fexp prec emax (Zdigits2 q - s) + s)) in *.
  exists (rne (Z.pos a * 2 ^ s) (Z.pos b * 2 ^ k)), (k - s).
  assert (Hps : 0 < 2 ^ s) by (apply Z.pow_pos_nonneg; lia).
  assert (Hpk : 0 < 2 ^ k) by (apply Z.pow_pos_nonneg; lia).
  assert (Hq0 : 0 <= q) by (apply Z.div_pos; nia).
  split; [done|]. split; [by rewrite <- E|].
  split.
  { apply rne_range_div; try lia. fold q. subst k. rewrite fexp64. lia. }
  split; [lia|]. split.
  - intros Hab.
    assert (Hq : q < 2 ^ (s + 1)).
    { apply Z.div_lt_upper_bound; [lia|]. rewrite Z.pow_add_r by lia.
      change (2 ^ 1) with 2. nia. }
    pose proof (Zdigits2_le_pow q (s + 1) ltac:(lia) ltac:(lia)) as Hdq.
    assert (Hks : k <= s) by (subst k; rewrite fexp64; lia).
    split; [lia|].
    apply rne_le; [nia|].
    replace (- (k - s)) with (s - k) by lia.
    replace (2 ^ (s - k) * (Z.pos b * 2 ^ k)) with (Z.pos b * (2 ^ (s - k) * 2 ^ k)) by ring.
    rewrite <- Z.pow_add_r by lia. replace (s - k + k) with s by lia. nia.
  - intros Hb64.
    (* the quotient keeps 53 digits: no underflow *)
    destruct (Zdigits2_bounds (Z.pos a) ltac:(lia)) as (Hda0 & Hal & Hau).
    destruct (Zdigits2_bounds (Z.pos b) ltac:(lia)) as (Hdb0 & Hbl & Hbu).
    assert (Hdb : Zdigits2 (Z.pos b) <= 64) by (apply Zdigits2_le_pow; lia).
    set (da := Zdigits2 (Z.pos a)) in *. set (db := Zdigits2 (Z.pos b)) in *.
    assert (Es : s = Z.max 0 (53 + db - da)).
    { subst s. unfold div_shift. rewrite fexp64. fold da db. lia. }
    assert (Hlow : 2 ^ (da - 1 + s - db) <= q).
    { apply Z.div_le_lower_bound; [lia|].
      assert (E' : 2 ^ (da - 1 + s - db) * 2 ^ db = 2 ^ (da - 1) * 2 ^ s).
      { rewrite <- !Z.pow_add_r by lia. f_equal. lia. }
      assert (0 < 2 ^ (da - 1 + s - db)) by (apply Z.pow_pos_nonneg; lia).
      nia. }
    pose proof (Zdigits2_ge_pow q (da - 1 + s - db) ltac:(lia) Hlow) as Hdq.
    destruct (div_quotient_digits (Z.pos a) (Z.pos b) ltac:(lia) ltac:(lia))
      as (_ & _ & Hdq').
    fold s q da in Hdq'.
    assert (Ek : k = Zdigits2 q - 53).
    { subst k. rewrite fexp64. lia. }
    apply rne_ge; [nia|].
    destruct (Zdigits2_bounds q ltac:(lia)) as (_ & Hql & _).
    replace (2 ^ 52 * (Z.pos b * 2 ^ k)) with (Z.pos b * (2 ^ 52 * 2 ^ k)) by ring.
    rewrite <- Z.pow_add_r by lia.
    replace (52 + k) with (Zdigits2 q - 1) by lia.
    pose proof (Z.mul_div_le (Z.pos a * 2 ^ s) (Z.pos b) ltac:(lia)). fold q in H.
    nia.
Qed.

Lemma SFkey_pack_nonneg m E : 0 <= m -> -1074 <= E -> 0 <= SFkey (pack false m E).
Proof.
  intros Hm HE. unfold pack. destruct m as [|p|p]; [done| |lia].
  repeat case_match; cbn [SFkey cond_Zopp]; try done;
    change (2 ^ 53) with 9007199254740992; lia.
Qed.

Lemma SFkey_pack_le m E Mc Ec :
  0 <= m <= 2 ^ 53 -> -1074 <= E -> E + 1 <= 971 -> E <= Ec ->
  2 ^ 52 <= Mc < 2 ^ 53 -> m <= Mc * 2 ^ (Ec - E) ->
  SFkey (pack false m E) <= (Ec + 1075) * 2 ^ 53 + Mc.
Proof.
  intros Hm HE HE1 HEc HMc Hle.
  destruct (pack_cases false m E Hm HE1) as [[-> ->]|(mp & ep & -> & Hc)];
    cbn [SFkey cond_Zopp].
  - change (2 ^ 53) with 9007199254740992 in *. lia.
  - destruct (decide (E = Ec)) as [->|Hne].
    + rewrite Z.sub_diag, Z.pow_0_r, Z.mul_1_r in Hle.
      destruct Hc as [(-> & -> & _)|(-> & _)]; lia.
    + assert (Hp : 2 * 1 <= 2 ^ (Ec - E)).
      { change (2 * 1) with (2 ^ 1). apply Z.pow_le_mono_r; lia. }
      change (2 ^ 53) with 9007199254740992 in *.
      change (2 ^ 52) with 4503599627370496 in *.
      destruct Hc as [(-> & -> & ?)|(-> & -> & ->)]; [lia|].
      destruct (decide (E + 1 = Ec)); lia.
Qed.

Lemma exact_round_range P k :
  0 <= P -> 0 <= k -> Zdigits2 P - 53 <= k -> 0 <= rne P (2 ^ k) <= 2 ^ 53.
Proof.
  intros HP Hk Hd.
  assert (Hpk : 0 < 2 ^ k) by (apply Z.pow_pos_nonneg; lia).
  pose proof (rne_bounds P (2 ^ k) Hpk).
  pose proof (shifted_mantissa_bound P k HP Hk Hd).
  assert (0 <= P / 2 ^ k) by (apply Z.div_pos; lia). lia.
Qed.

(** A ratio in [0, 1], times 100, is in [0, 100]. *)
Lemma percent_of_ratio (q : float) m E :
  Prim2SF q = pack false m E -> valid_binary (pack false m E) = true ->
  0 <= m <= 2 ^ 53 -> E <= 0 -> m <= 2 ^ (- E) ->
  is_nan (q * 100)%float = false /\
  0 <= key (q * 100)%float <= key 100%float.
Proof.
  intros Eq Hv Hm HE Hle.
  assert (E100 : Prim2SF 100 = S754_finite false 7036874417766400 (-46)) by reflexivity.
  assert (K100 : key 100 = (-46 + 1075) * 2 ^ 53 + 7036874417766400) by reflexivity.
  rewrite is_nan_spec. unfold key at 1 2. rewrite mul_spec, Eq, E100, K100.
  destruct (pack_cases false m E Hm ltac:(lia)) as [[-> Ep]|(mp & ep & Ep & Hc)].
  { rewrite Ep. cbn. split; [done|]. lia. }
  rewrite Ep in *. apply valid_finite_bounds in Hv as (Hv1 & Hv2 & Hv3).
  assert (Hval : ep <= 0 /\ Z.pos mp <= 2 ^ (- ep)).
  { destruct Hc as [(-> & -> & _)|(-> & Emp & ->)]; [done|].
    rewrite Emp.
    assert (53 <= - E).
    { apply (Z.pow_le_mono_r_iff 2); lia. }
    split; [lia|]. apply Z.pow_le_mono_r; lia. }
  destruct Hval as (Hep & Hmp). clear Hc Ep Hm Hle HE.
  unfold SF64mul, SFmul. cbn [xorb].
  set (M := 7036874417766400).
  assert (HM : 2 ^ 52 <= M < 2 ^ 53) by (subst M; split; [by apply Z.leb_le|done]).
  set (P := Z.pos (mp * 7036874417766400)).
  assert (EP : P = Z.pos mp * M) by (subst P M; lia).
  assert (HP0 : 0 < P) by lia.
  rewrite (binary_round_aux_correct false P (ep + -46) loc_Exact P 1)
    by (lia || apply represents_exact).
  rewrite Z.mul_1_l.
  set (k := Z.max 0 (fexp prec emax (Zdigits2 P + (ep + -46)) - (ep + -46))).
  assert (Hpe : 0 < 2 ^ (- ep)) by (apply Z.pow_pos_nonneg; lia).
  assert (HdP : 53 <= Zdigits2 P <= 53 - ep).
  { split.
    - apply (Zdigits2_ge_pow P 52); [lia|]. nia.
    - apply Zdigits2_le_pow; [lia|]. split; [lia|].
      replace (53 - ep) with (53 + - ep) by lia.
      rewrite Z.pow_add_r by lia. nia. }
  assert (Hk : 0 <= k /\ Zdigits2 P - 53 <= k /\ ep + -46 + k <= -46 /\ -1074 <= ep + -46 + k).
  { subst k. rewrite fexp64. lia. }
  destruct Hk as (Hk0 & Hk1 & Hk2 & Hk3).
  pose proof (exact_round_range P k ltac:(lia) Hk0 Hk1) as Hr.
  assert (Hpk : 0 < 2 ^ k) by (apply Z.pow_pos_nonneg; lia).
  split.
  { destruct (pack_cases false (rne P (2 ^ k)) (ep + -46 + k) Hr ltac:(lia))
      as [[_ ->]|(? & ? & -> & _)]; done. }
  split; [apply SFkey_pack_nonneg; lia|].
  apply SFkey_pack_le; try lia.
  apply rne_le; [done|].
  replace (-46 - (ep + -46 + k)) with (- ep - k) by lia.
  replace (M * 2 ^ (- ep - k) * 2 ^ k) with (M * (2 ^ (- ep - k) * 2 ^ k)) by ring.
  rewrite <- Z.pow_add_r by lia. replace (- ep - k + k) with (- ep) by lia.
  rewrite EP. nia.
Qed.

Lemma SF2Prim_pack s m E :
  valid_binary (pack s m E) = true -> Prim2SF (SF2Prim (pack s m E)) = pack s m E.
Proof. apply Prim2SF_SF2Prim. Qed.

Lemma success_rate_positive (a b : positive) :
  Z.pos a <= Z.pos b ->
  exists f, (q ← truediv (PyInt (Z.pos a)) (PyInt (Z.pos b)); mul q (PyInt 100))
            = Return (PyFloat f) /\ percentage (PyFloat f).
Proof.
  intros Hab.
  destruct (int_truediv_pos false a b) as (m & E & EQ & Hv & Hm & HE & Hle & _).
  destruct (Hle Hab) as (HE0 & Hm1).
  assert (Hq : int_truediv (Z.pos a) (Z.pos b) = Return (SF2Prim (pack false m E))).
  { unfold int_truediv. cbn [Z.eqb Z2SF]. rewrite EQ.
    destruct (pack_cases false m E Hm ltac:(lia)) as [[_ ->]|(? & ? & -> & _)]; done. }
  unfold truediv. rewrite Hq. cbn [fmap py_fmap mbind py_bind].
  unfold mul. cbn [as_float mbind py_bind].
  assert (E100 : float_of_int 100 = Return 100%float) by reflexivity.
  rewrite E100. cbn [mbind py_bind].
  eexists. split; [done|].
  destruct (percent_of_ratio (SF2Prim (pack false m E)) m E) as (Hn & Hk0 & Hk1);
    try done.
  { by apply SF2Prim_pack. }
  unfold percentage. rewrite !leb_key by done.
  split; apply Z.leb_le; [|done]. by change (key 0) with 0.
Qed.

(** The value of [success_rate] on a positive total: the quotient the
    division of the two [int]s returns, times the float 100. *)
Lemma success_rate_value (a b : positive) :
  Z.pos a <= Z.pos b ->
  exists q,
    int_truediv (Z.pos a) (Z.pos b) = Return q /\
    Prim2SF q = SFdiv prec emax (Z2SF (Z.pos a)) (Z2SF (Z.pos b)) /\
    (q' ← truediv (PyInt (Z.pos a)) (PyInt (Z.pos b)); mul q' (PyInt 100))
      = Return (PyFloat (q * 100)) /\
    percentage (PyFloat (q * 100)).
Proof.
  intros Hab.
  destruct (int_truediv_pos false a b) as (m & E & EQ & Hv & Hm & HE & Hle & _).
  destruct (Hle Hab) as (HE0 & Hm1).
  assert (Hq : int_truediv (Z.pos a) (Z.pos b) = Return (SF2Prim (pack false m E))).
  { unfold int_truediv. cbn [Z.eqb Z2SF]. rewrite EQ.
    destruct (pack_cases false m E Hm ltac:(lia)) as [[_ ->]|(? & ? & -> & _)]; done. }
  exists (SF2Prim (pack false m E)).
  split; [done|]. split; [cbn [Z2SF]; rewrite EQ; by apply SF2Prim_pack|].
  unfold truediv. rewrite Hq. cbn [fmap py_fmap mbind py_bind].
  unfold mul. cbn [as_float mbind py_bind].
  assert (E100 : float_of_int 100 = Return 100%float) by reflexivity.
  rewrite E100. cbn [mbind py_bind].
  split; [done|].
  destruct (percent_of_ratio (SF2Prim (pack false m E)) m E) as (Hn & Hk0 & Hk1);
    try done.
  { by apply SF2Prim_pack. }
  unfold percentage. rewrite !leb_key by done.
  split; apply Z.leb_le; [|done]. by change (key 0) with 0.
Qed.

(** C4. When [0 <= successful_requests <= total_requests], [success_rate]
    returns a value between 0 and 100.  It is the [int] 0 when
    [total_requests] is 0; otherwise it is the float
    [successful_requests / total_requests * 100]: the quotient [q] of the
    two [int]s, which is the binary64 division of the two numbers, times
    the float 100. *)
Theorem success_rate_range self :
  0 <= successful_requests self <= total_requests self ->
  exists v, success_rate self = Return v /\ percentage v /\
            (total_requests self = 0 -> v = PyInt 0) /\
            (0 < total_requests self ->
             exists q,
               int_truediv (successful_requests self) (total_requests self)
                 = Return q /\
               Prim2SF q = SFdiv prec emax (Z2SF (successful_requests self))
                                 (Z2SF (total_requests self)) /\
               v = PyFloat (q * 100)).
Proof.
  intros Hc. unfold success_rate.
  destruct (Z.ltb_spec 0 (total_requests self)) as [Hpos|Hz].
  - destruct (total_requests self) as [|b|b] eqn:Et; try lia.
    destruct (successful_requests self) as [|a|a] eqn:Es; try lia.
    + exists (PyFloat 0). split; [reflexivity|]. split; [split; reflexivity|].
      split; [done|]. intros _. exists 0%float.
      split; [reflexivity|]. split; [reflexivity|reflexivity].
    + destruct (success_rate_value a b ltac:(lia)) as (q & Hq & Hs & Hf & Hp).
      exists (PyFloat (q * 100)). split; [done|]. split; [done|].
      split; [lia|]. intros _. by exists q.
  - exists (PyInt 0). split; [done|]. split; [simpl; lia|]. split; [done|lia].
Qed.

Lemma success_rate_range_witness :
  exists q,
    int_truediv 2 3 = Return q /\
    success_rate (set_total_requests 3 (set_successful_requests 2 LoadTestResult__init__))
    = Return (PyFloat (q * 100)) /\
    percentage (PyFloat (q * 100)).
Proof.
  destruct (success_rate_range
              (set_total_requests 3 (set_successful_requests 2 LoadTestResult__init__)))
    as (v & Hv & Hp & _ & Hq).
  - simpl. lia.
  - destruct Hq as (q & Hq & _ & ->); [simpl; lia|].
    exists q. split; [exact Hq|]. split; [exact Hv|exact Hp].
Defined.

Lemma Zdigits2_datetime a : 0 < a <= 315537897599999999 -> Zdigits2 a <= 59.
Proof.
  intros Ha. apply Zdigits2_le_pow; [lia|].
  change (2 ^ 59) with 576460752303423488. lia.
Qed.

Lemma total_seconds_nonpos td :
  - 315537897599999999 <= td <= 0 ->
  exists secs, total_seconds td = Return (PyFloat secs) /\
               gt_zero (PyFloat secs) = false.
Proof.
  intros Htd. destruct td as [|a|a]; try lia.
  - exists 0%float. split; reflexivity.
  - destruct (int_truediv_pos true a 1000000) as (m & E & EQ & Hv & Hm & HE & _).
    pose proof (Zdigits2_datetime (Z.pos a) ltac:(lia)) as Hd.
    assert (Hq : int_truediv (Z.neg a) 1000000 = Return (SF2Prim (pack true m E))).
    { unfold int_truediv. cbn [Z.eqb Z2SF]. rewrite EQ.
      destruct (pack_cases true m E Hm ltac:(lia)) as [[_ ->]|(? & ? & -> & _)]; done. }
    unfold total_seconds, truediv. rewrite Hq. cbn [fmap py_fmap].
    eexists. split; [done|].
    unfold gt_zero. rewrite FloatAxioms.ltb_spec, SF2Prim_pack by done.
    destruct (pack_cases true m E Hm ltac:(lia)) as [[_ ->]|(? & ? & -> & _)]; done.
Qed.

Lemma total_seconds_pos td :
  0 < td <= 315537897599999999 ->
  exists secs, total_seconds td = Return (PyFloat secs) /\
               gt_zero (PyFloat secs) = true /\ is_zero secs = false.
Proof.
  intros Htd. destruct td as [|a|a]; try lia.
  destruct (int_truediv_pos false a 1000000) as (m & E & EQ & Hv & Hm & HE & _ & Hnz).
  specialize (Hnz ltac:(done)).
  pose proof (Zdigits2_datetime (Z.pos a) ltac:(lia)) as Hd.
  assert (Hq : int_truediv (Z.pos a) 1000000 = Return (SF2Prim (pack false m E))).
  { unfold int_truediv. cbn [Z.eqb Z2SF]. rewrite EQ.
    destruct (pack_cases false m E Hm ltac:(lia)) as [[_ ->]|(? & ? & -> & _)]; done. }
  unfold total_seconds, truediv. rewrite Hq. cbn [fmap py_fmap].
  eexists. split; [done|].
  unfold gt_zero, is_zero.
  rewrite FloatAxioms.ltb_spec, FloatAxioms.eqb_spec, SF2Prim_pack by done.
  assert (Hpos : 0 < 2 ^ 52) by done.
  destruct (pack_cases false m E Hm ltac:(lia)) as [[-> _]|(? & ? & -> & _)]; [lia|done].
Qed.

(** C5. On an empty latency sequence the average, minimum, maximum, p95
    and p99 are 0.  [requests_per_second] is 0 when a timestamp is missing,
    when [total_requests] is 0 and when the span [end_time - start_time] is
    not positive; otherwise it is [total_requests] divided by the span in
    seconds, a positive number.  None of these cases divides by zero or
    indexes out of range. *)
Theorem derived_metrics_total self :
  (response_times self = [] ->
   avg_response_time self = Return (PyInt 0) /\
   min_response_time self = Return (PyInt 0) /\
   max_response_time self = Return (PyInt 0) /\
   p95_response_time self = Return (PyInt 0) /\
   p99_response_time self = Return (PyInt 0)) /\
  (total_requests self <= 0 -> success_rate self = Return (PyInt 0)) /\
  (start_time self = None \/ end_time self = None \/ total_requests self = 0 ->
   requests_per_second self = Return (PyInt 0)) /\
  (forall st et,
     start_time self = Some st -> end_time self = Some et ->
     valid_datetime st -> valid_datetime et -> et - st <= 0 ->
     requests_per_second self = Return (PyInt 0)) /\
  (forall st et,
     start_time self = Some st -> end_time self = Some et ->
     valid_datetime st -> valid_datetime et -> 0 < et - st ->
     total_requests self <> 0 ->
     exists secs,
       total_seconds (et - st) = Return (PyFloat secs) /\
       (0 <? secs)%float = true /\
       requests_per_second self =
       (f ← float_of_int (total_requests self); Return (PyFloat (f / secs)))).
Proof.
  split; [|split; [|split; [|split]]].
  - intros E.
    unfold avg_response_time, min_response_time, max_response_time,
      p95_response_time, p99_response_time. by rewrite E.
  - intros Ht. unfold success_rate.
    destruct (Z.ltb_spec 0 (total_requests self)); [lia|done].
  - intros H. unfold requests_per_second.
    destruct (start_time self), (end_time self); try done.
    destruct H as [H|[H|H]]; try done. by rewrite H.
  - intros st et Hs He Vs Ve Hspan. unfold requests_per_second. rewrite Hs, He.
    destruct (total_requests self =? 0); [done|].
    unfold valid_datetime in *.
    destruct (total_seconds_nonpos (et - st) ltac:(lia)) as (secs & -> & Hg).
    cbn [mbind py_bind]. by rewrite Hg.
  - intros st et Hs He Vs Ve Hspan Ht. unfold requests_per_second. rewrite Hs, He.
    destruct (Z.eqb_spec (total_requests self) 0); [done|].
    unfold valid_datetime in *.
    destruct (total_seconds_pos (et - st) ltac:(lia)) as (secs & Hsec & Hg & Hz).
    exists secs. split; [done|]. split; [done|].
    rewrite Hsec. cbn [mbind py_bind]. rewrite Hg.
    unfold truediv, as_float. cbn [mbind py_bind].
    destruct (float_of_int (total_requests self)); cbn [mbind py_bind]; [|done].
    by rewrite Hz.
Qed.

Lemma derived_metrics_total_witness :
  requests_per_second
    (set_total_requests 3
       (set_start_time (Some 0) (set_end_time (Some 1500000) LoadTestResult__init__)))
  = Return (PyFloat 2).
Proof.
  destruct (derived_metrics_total
              (set_total_requests 3
                 (set_start_time (Some 0)
                    (set_end_time (Some 1500000) LoadTestResult__init__))))
    as (_ & _ & _ & _ & H).
  destruct (H 0 1500000) as (secs & Hsec & _ & ->);
    try done; try (unfold valid_datetime; simpl; lia).
  vm_compute in Hsec. injection Hsec as <-. reflexivity.
Defined.

(* ===================================================================== *)
(** * The aggregate report *)
(* ===================================================================== *)

Lemma add_metric_value a x :
  metric_value a -> metric_value x ->
  exists a', add a x = Return a' /\ metric_value a'.
Proof.
  intros [->|[f ->]] [->|[g ->]].
  - exists (PyInt 0). split; [done|]. by left.
  - eexists. split; [reflexivity|]. right. eauto.
  - eexists. split; [reflexivity|]. right. eauto.
  - eexists. split; [reflexivity|]. right. eauto.
Qed.

Lemma sum_from_metric_values acc xs :
  metric_value acc -> Forall metric_value xs ->
  exists s, sum_from acc xs = Return s /\ metric_value s.
Proof.
  revert acc. induction xs as [|x xs IH]; intros acc Hacc Hxs; simpl.
  - by exists acc.
  - apply Forall_cons in Hxs as [Hx Hxs].
    destruct (add_metric_value acc x Hacc Hx) as (a' & -> & Ha').
    cbn [mbind py_bind]. by apply IH.
Qed.

Lemma sum_from_ints acc zs :
  sum_from (PyInt acc) (PyInt <$> zs) = Return (PyInt (acc + Zsum zs)).
Proof.
  revert acc. induction zs as [|z zs IH]; intros acc; simpl.
  - by rewrite Z.add_0_r.
  - cbn [mbind py_bind]. rewrite IH. do 2 f_equal. lia.
Qed.

Lemma float_of_int_nonzero n :
  0 < n < 2 ^ 53 -> exists g, float_of_int n = Return g /\ is_zero g = false.
Proof.
  intros Hn. destruct (float_of_int_exact n Hn) as (g & Hg & Sg).
  exists g. split; [done|].
  unfold is_zero. by rewrite FloatAxioms.eqb_spec, Sg.
Qed.

Lemma truediv_metric_value s n :
  metric_value s -> 0 < n < 2 ^ 53 ->
  exists v, truediv s (PyInt n) = Return v /\ metric_value v.
Proof.
  intros [->|[f ->]] Hn.
  - exists (PyFloat 0). split; [|right; eauto].
    unfold truediv, int_truediv. destruct n as [|p|p]; try lia. reflexivity.
  - destruct (float_of_int_nonzero n Hn) as (g & Hg & Hz).
    eexists. split; [|right; eauto].
    unfold truediv, as_float. rewrite Hg. cbn [mbind py_bind]. by rewrite Hz.
Qed.

Lemma mean_metric_values xs :
  xs <> [] -> len xs < 2 ^ 53 -> Forall metric_value xs ->
  exists v, mean xs = Return v /\ metric_value v.
Proof.
  intros Hne Hlen Hxs. unfold mean, sum.
  destruct (sum_from_metric_values (PyInt 0) xs) as (s & -> & Hs); [by left|done|].
  cbn [mbind py_bind]. apply truediv_metric_value; [done|].
  pose proof (len_pos _ Hne). lia.
Qed.

Lemma len_fmap {A B} (g : A -> B) (xs : list A) : len (g <$> xs) = len xs.
Proof. unfold len. by rewrite length_fmap. Qed.

(** C8. On an empty history the report is empty and nothing is divided.
    On a history of [n >= 1] stored runs the report holds [total_tests = n],
    the means over the [n] runs of [success_rate], [avg_response_time] and
    [requests_per_second], each the sum divided by [n], and the plain sums
    of [total_requests], [successful_requests] and [failed_requests]. *)
Theorem performance_metrics_aggregate (history : list Dict.t) :
  history <> [] -> len history < 2 ^ 53 -> Forall wf_dict history ->
  get_performance_metrics [] = Return None /\
  exists m,
    get_performance_metrics history = Return (Some m) /\
    Metrics.total_tests m = len history /\
    mean (Dict.success_rate <$> history) = Return (Metrics.avg_success_rate m) /\
    mean (Dict.avg_response_time <$> history) = Return (Metrics.avg_response_time m) /\
    mean (Dict.requests_per_second <$> history) = Return (Metrics.avg_throughput m) /\
    Metrics.total_requests m = PyInt (Zsum (Dict.total_requests <$> history)) /\
    Metrics.total_successful m = PyInt (Zsum (Dict.successful_requests <$> history)) /\
    Metrics.total_failed m = PyInt (Zsum (Dict.failed_requests <$> history)).
Proof.
  intros Hne Hlen Hwf. split; [done|].
  assert (Hmean : forall g : Dict.t -> number,
             Forall (fun d => metric_value (g d)) history ->
             exists v, mean (g <$> history) = Return v).
  { intros g Hg.
    destruct (mean_metric_values (g <$> history)) as (v & Hv & _).
    - by destruct history.
    - by rewrite len_fmap.
    - by apply Forall_fmap.
    - by exists v. }
  destruct (Hmean Dict.success_rate) as (v1 & H1).
  { eapply Forall_impl; [exact Hwf|]. by intros d (? & _). }
  destruct (Hmean Dict.avg_response_time) as (v2 & H2).
  { eapply Forall_impl; [exact Hwf|]. by intros d (_ & ? & _). }
  destruct (Hmean Dict.requests_per_second) as (v3 & H3).
  { eapply Forall_impl; [exact Hwf|]. by intros d (_ & _ & ?). }
  assert (Hints : forall g : Dict.t -> Z,
             sum ((fun t => PyInt (g t)) <$> history) = Return (PyInt (Zsum (g <$> history)))).
  { intros g. unfold sum.
    change ((fun t => PyInt (g t)) <$> history) with ((PyInt ∘ g) <$> history).
    rewrite (list_fmap_compose g PyInt history). by rewrite sum_from_ints. }
  unfold get_performance_metrics.
  destruct history as [|d0 history']; [done|].
  set (history := d0 :: history') in *.
  pose proof H1 as M1. pose proof H2 as M2. pose proof H3 as M3.
  unfold mean in H1, H2, H3. rewrite !len_fmap in H1, H2, H3.
  destruct (sum (Dict.success_rate <$> history)) as [s1|]; [|done].
  cbn [mbind py_bind] in *. rewrite H1. cbn [mbind py_bind].
  destruct (sum (Dict.avg_response_time <$> history)) as [s2|]; [|done].
  cbn [mbind py_bind] in *. rewrite H2. cbn [mbind py_bind].
  destruct (sum (Dict.requests_per_second <$> history)) as [s3|]; [|done].
  cbn [mbind py_bind] in *. rewrite H3. cbn [mbind py_bind].
  rewrite !Hints. cbn [mbind py_bind].
  eexists. split; [done|]. cbn [Metrics.total_tests Metrics.avg_success_rate
    Metrics.avg_response_time Metrics.avg_throughput Metrics.total_requests
    Metrics.total_successful Metrics.total_failed].
  by rewrite M1, M2, M3.
Qed.

(* ===================================================================== *)
(** * The test history *)
(* ===================================================================== *)

Section Deque.
Context {A : Type}.
Implicit Types (d : list A) (x : A) (n : nat).

Lemma deque_append_room n x d :
(length d < n)%nat -> deque_append n x d = d ++ [x].
Proof.
intros Hl. unfold deque_append. rewrite length_app. simpl.
destruct (Nat.ltb_spec n (length d + 1)); [lia | done].
Qed.

Lemma deque_append_full n x y d :
(n <= length (y :: d))%nat -> deque_append n x (y :: d) = d ++ [x].
Proof.
intros Hl. unfold deque_append. rewrite length_app. simpl in *.
destruct (Nat.ltb_spec n (S (length d + 1))); [done | lia].
Qed.

Lemma deque_append_length n x d :
(length d <= n)%nat -> length (deque_append n x d) = Nat.min (S (length d)) n.
Proof.
intros Hl. destruct (decide (length d < n)%nat) as [Hlt|Hge].
- rewrite deque_append_room by done. rewrite length_app. simpl length. lia.
- destruct d as [|y d].
  + simpl in *. assert (n = 0%nat) by lia. by subst n.
  + rewrite deque_append_full by lia. rewrite length_app. simpl length in *. lia.
Qed.

Lemma deque_append_drop n x d :
(0 < n)%nat -> (length d <= n)%nat ->
deque_append n x d = drop (S (length d) - n) (d ++ [x]).
Proof.
intros Hn Hl. destruct (decide (length d < n)%nat) as [Hlt|Hge].
- rewrite deque_append_room by done.
  replace (S (length d) - n)%nat with 0%nat by lia. by rewrite drop_0.
- destruct d as [|y d]; [simpl in *; lia|].
  rewrite deque_append_full by lia. simpl in *.
  replace (S (S (length d)) - n)%nat with 1%nat by lia. done.
Qed.

Lemma fold_deque_append n (xs d : list A) :
(0 < n)%nat -> (length d <= n)%nat ->
fold_left (fun d x => deque_append n x d) xs d
= drop (length d + length xs - n) (d ++ xs).
Proof.
intros Hn. revert d. induction xs as [|x xs IH]; intros d Hl.
- simpl. rewrite app_nil_r.
  replace (length d + 0 - n)%nat with 0%nat by lia. by rewrite drop_0.
- simpl. rewrite IH by (rewrite deque_append_length by done; lia).
  rewrite deque_append_length by done.
  rewrite deque_append_drop by done.
  rewrite <- drop_app_le by (rewrite length_app; simpl length; lia).
  rewrite drop_drop. rewrite <- app_assoc. simpl app. simpl length. f_equal. lia.
Qed.
End Deque.

(** C7. The test history is a FIFO of capacity 50: below capacity a record
    is appended at the end; at capacity the oldest entry leaves and the
    others keep their order; after recording any results [ds] into an empty
    history it holds the last 50 of them, in order; and after 51 results
    exactly the first one is gone. *)
Theorem test_history_fifo :
  (forall (h : list Dict.t) d, (length h < 50)%nat -> test_history_append d h = h ++ [d]) /\
  (forall oldest (h : list Dict.t) d,
      length (oldest :: h) = 50%nat -> test_history_append d (oldest :: h) = h ++ [d]) /\
  (forall ds : list Dict.t,
      record_all ds [] = drop (length ds - 50) ds /\
      length (record_all ds []) = Nat.min (length ds) 50) /\
  (forall first (ds : list Dict.t),
      length ds = 50%nat -> record_all (first :: ds) [] = ds).
Proof.
  assert (Hall : forall ds : list Dict.t, record_all ds [] = drop (length ds - 50) ds).
  { intros ds. unfold record_all, test_history_append.
    rewrite fold_deque_append by (unfold test_history_maxlen; simpl; lia). done. }
  repeat split.
  - intros h d Hl. by apply deque_append_room.
  - intros oldest h d Hl. apply deque_append_full. unfold test_history_maxlen. lia.
  - apply Hall.
  - rewrite Hall. rewrite length_drop. lia.
  - intros first ds Hl. rewrite Hall. simpl length. rewrite Hl. done.
Qed.

(* ===================================================================== *)
(** * The lock: virtual users and the handler *)
(* ===================================================================== *)

Lemma len_app {A} (xs ys : list A) : len (xs ++ ys) = len xs + len ys.
Proof. unfold len. rewrite length_app. lia. Qed.

Lemma record_effect o ms r :
  total_requests (record o ms r) = total_requests r + 1 /\
  response_times (record o ms r) = response_times r ++ [ms] /\
  (successful_requests (record o ms r) = successful_requests r + 1 /\
   failed_requests (record o ms r) = failed_requests r
   \/
   successful_requests (record o ms r) = successful_requests r /\
   failed_requests (record o ms r) = failed_requests r + 1) /\
  start_time (record o ms r) = start_time r /\
  end_time (record o ms r) = end_time r /\
  concurrent_users (record o ms r) = concurrent_users r /\
  test_duration (record o ms r) = test_duration r.
Proof.
  destruct o as [status_code| |]; unfold record, run_block; simpl;
    try destruct (status_code =? 200); simpl; tauto.
Qed.

Lemma record_consistent o ms r : consistent r -> consistent (record o ms r).
Proof.
  intros (Ht & Hl & Hs & Hf).
  destruct (record_effect o ms r) as (Et & El & Ec & _).
  unfold consistent. rewrite Et, El, len_app. unfold len at 2. simpl.
  destruct Ec as [[-> ->] | [-> ->]]; lia.
Qed.

Lemma consistent_set_end_time v r : consistent r -> consistent (set_end_time v r).
Proof. done. Qed.

Lemma run_block_set_end_time v block r :
  run_block block (set_end_time v r) = set_end_time v (run_block block r).
Proof.
  revert r. induction block as [|s block IH]; intros r; [done|].
  unfold run_block in *. simpl. rewrite <- IH. by destruct s.
Qed.

Lemma world_inv_init users duration now history :
  world_inv (run_load_test_init users duration now history).
Proof.
  split; simpl; try done.
Qed.

Lemma lookup_insert_Some_inv {A} (l : list A) i j x y :
  <[i := x]> l !! j = Some y -> (i = j /\ x = y) \/ (i <> j /\ l !! j = Some y).
Proof.
  intros H. destruct (decide (i = j)) as [->|Hne].
  - left. split; [done|].
    destruct (decide (j < length l)%nat).
    + rewrite list_lookup_insert_eq in H by done. congruence.
    + rewrite list_insert_ge in H by lia.
      apply lookup_lt_Some in H. lia.
  - right. rewrite list_lookup_insert_ne in H by done. done.
Qed.

Lemma lookup_snoc_Some_inv {A} (l : list A) j x y :
  (l ++ [x]) !! j = Some y -> l !! j = Some y \/ x = y.
Proof.
  intros H. apply lookup_app_Some in H as [H | [_ H]]; [by left|].
  right. destruct (j - length l)%nat; simpl in H; [congruence | done].
Qed.

Ltac inv_ins H := apply lookup_insert_Some_inv in H as [[? ?] | [? H]]; simplify_eq.

Lemma world_inv_step users w w' :
  world_inv w -> step users w w' -> world_inv w'.
Proof.
  intros [Hw Hh Hx Hl Hf] Hstep.
  destruct Hstep as [i Hpc Hi | i Hpc Hi | j Hpc Hj Hd | j Hpc Hj Hd | j Hpc Hj | now Hpc | Hpc | Hpc
                    | t uid clock Ht | t uid st o clock Ht | t block Ht Hlk
                    | t s rest Ht | t Ht].
  - (* spawn *)
    split; simpl; try done.
    + intros t b H. apply lookup_snoc_Some_inv in H as [H|H]; [eauto | done].
    + intros t rest H. apply lookup_snoc_Some_inv in H as [H|H]; [eauto | done].
    + intros t t' rest rest' H H'.
      apply lookup_snoc_Some_inv in H as [H|H]; [|done].
      apply lookup_snoc_Some_inv in H' as [H'|H']; [|done]. eauto.
    + intros Hk. destruct (Hl Hk) as (t & rest & H).
      exists t, rest. by apply lookup_app_l_Some.
  - done.
  - done.
  - done.
  - done.
  - (* finalize *)
    split; simpl; try done.
    intros t rest H. rewrite run_block_set_end_time.
    destruct (Hh _ _ H). split; [done|]. by apply consistent_set_end_time.
  - (* store *)
    unfold store. destruct (to_dict (result w)); done.
  - unfold reply. destruct (to_dict (result w)); done.
  - (* begin *)
    split; simpl.
    + intros t' b H. inv_ins H. eauto.
    + intros t' rest H. inv_ins H. eauto.
    + intros t1 t2 r1 r2 H1 H2. inv_ins H1. inv_ins H2. eauto.
    + intros Hk. destruct (Hl Hk) as (t' & rest & H). exists t', rest.
      rewrite list_lookup_insert_ne; [done|]. intros ->. congruence.
    + done.
  - (* outcome *)
    split; simpl.
    + intros t' b H. inv_ins H; eauto.
    + intros t' rest H. inv_ins H. eauto.
    + intros t1 t2 r1 r2 H1 H2. inv_ins H1. inv_ins H2. eauto.
    + intros Hk. destruct (Hl Hk) as (t' & rest & H). exists t', rest.
      rewrite list_lookup_insert_ne; [done|]. intros ->. congruence.
    + done.
  - (* acquire *)
    assert (Hnone : forall t' rest, threads w !! t' = Some (Holding rest) -> False).
    { intros t' rest H. destruct (Hh _ _ H) as [Hk _]. congruence. }
    split; simpl.
    + intros t' b H. inv_ins H. eauto.
    + intros t' rest H. inv_ins H.
      * split; [done|]. destruct (Hw _ _ Ht) as (o & ms & ->).
        apply record_consistent. auto.
      * exfalso. eauto.
    + intros t1 t2 r1 r2 H1 H2. inv_ins H1; inv_ins H2; try done; exfalso; eauto.
    + intros _. exists t, block. apply list_lookup_insert_eq.
      by apply lookup_lt_Some in Ht.
    + done.
  - (* exec *)
    split; simpl.
    + intros t' b H. inv_ins H. eauto.
    + intros t' rest' H. inv_ins H.
      * destruct (Hh _ _ Ht) as [Hk Hc]. done.
      * assert (t = t') by eauto. done.
    + intros t1 t2 r1 r2 H1 H2. inv_ins H1; inv_ins H2; try done.
      * exfalso. assert (t1 = t2) by eauto. done.
      * exfalso. assert (t1 = t2) by eauto. done.
      * eauto.
    + intros _. exists t, rest. apply list_lookup_insert_eq.
      by apply lookup_lt_Some in Ht.
    + intros Hk. destruct (Hh _ _ Ht) as [Hk' _]. congruence.
  - (* release *)
    split; simpl.
    + intros t' b H. inv_ins H. eauto.
    + intros t' rest' H. inv_ins H. assert (t = t') by eauto. done.
    + intros t1 t2 r1 r2 H1 H2. inv_ins H1. inv_ins H2. eauto.
    + done.
    + intros _. destruct (Hh _ _ Ht) as [_ Hc]. done.
Qed.

Lemma world_inv_reachable users duration now history w :
  reachable users duration now history w -> world_inv w.
Proof.
  unfold reachable. intros H.
  eapply (rtc_ind_r (R := step users) (fun w => world_inv w)); [ | | exact H].
  - apply world_inv_init.
  - intros ? ? _ ? ?. eapply world_inv_step; eauto.
Qed.

(** ** The scheduler only takes steps of the relation *)

Lemma fire_sound users ev w w' : fire users ev w = Some w' -> step users w w'.
Proof.
  unfold fire. intros H.
  destruct ev; repeat case_match; simplify_eq; try done.
  - apply step_spawn with (i := i); [done | lia].
  - apply step_spawned with (i := i); [done | lia].
  - apply step_join with (j := j); [done | by apply Nat.ltb_lt | lia].
  - apply step_join_overflow with (j := j); [done | by apply Nat.ltb_lt | lia].
  - apply step_joined with (j := j); [done | ].
    by apply Nat.leb_le.
  - by apply step_finalize.
  - by apply step_store.
  - by apply step_reply.
  - by eapply step_begin.
  - by eapply step_outcome.
  - by eapply step_acquire.
  - by eapply step_exec.
  - by eapply step_release.
Qed.

Lemma run_sound users evs w w' : run users evs w = Some w' -> rtc (step users) w w'.
Proof.
  revert w. induction evs as [|ev evs IH]; intros w H; simpl in H.
  - simplify_eq. apply rtc_refl.
  - destruct (fire users ev w) as [w1|] eqn:Hf; [|done].
    eapply rtc_l; [by eapply fire_sound | by apply IH].
Qed.

Ltac py_bind_inv H :=
  repeat match type of H with
         | mbind _ ?m = Return _ =>
             let E := fresh "E" in destruct m eqn:E; simpl in H; [|discriminate H]
         | (?m ≫= _) = Return _ =>
             let E := fresh "E" in destruct m eqn:E; simpl in H; [|discriminate H]
         end.

Lemma to_dict_fields r d :
  to_dict r = Return d ->
  Dict.total_requests d = total_requests r /\
  Dict.successful_requests d = successful_requests r /\
  Dict.failed_requests d = failed_requests r /\
  Dict.start_time d = start_time r /\
  Dict.end_time d = end_time r /\
  Dict.concurrent_users d = concurrent_users r /\
  Dict.test_duration d = test_duration r /\
  avg_response_time r = Return (Dict.avg_response_time d) /\
  min_response_time r = Return (Dict.min_response_time d) /\
  max_response_time r = Return (Dict.max_response_time d) /\
  p95_response_time r = Return (Dict.p95_response_time d) /\
  p99_response_time r = Return (Dict.p99_response_time d) /\
  success_rate r = Return (Dict.success_rate d) /\
  requests_per_second r = Return (Dict.requests_per_second d).
Proof.
  unfold to_dict. intros H. py_bind_inv H. injection H as <-. simpl. tauto.
Qed.

Lemma all_exited_free w : world_inv w -> all_exited w -> locked w = false.
Proof.
  intros Hi Hall. destruct (locked w) eqn:Hk; [|done].
  destruct (inv_holder _ Hi Hk) as (t & rest & Ht).
  unfold all_exited in Hall. rewrite Forall_forall in Hall.
  apply list_elem_of_lookup_2 in Ht.
  apply Hall in Ht. done.
Qed.

Lemma record_log_consistent (log : list (outcome * float)) r :
  consistent r ->
  consistent (fold_left (fun r '(o, ms) => record o ms r) log r).
Proof.
  revert r. induction log as [|[o ms] log IH]; intros r Hr; [done|].
  simpl. apply IH. by apply record_consistent.
Qed.

(** C1 (as amended). A [with lock:] block, taken as a whole, adds 1 to
    [total_requests], adds 1 to exactly one of [successful_requests] and
    [failed_requests] and appends one latency, so every result built from
    such blocks is consistent.  In every world of a run of [run_load_test]:
    the block a waiting thread is about to run is one of them; at most one
    thread is inside a block; when the lock is free the result is
    consistent; and once every thread has exited, the result and the
    snapshot taken of it satisfy
    [total_requests = successful_requests + failed_requests] with one
    latency per request. *)
Theorem request_updates_atomic users duration now history w :
  reachable users duration now history w ->
  (forall o ms r,
      total_requests (record o ms r) = total_requests r + 1 /\
      response_times (record o ms r) = response_times r ++ [ms] /\
      (successful_requests (record o ms r) = successful_requests r + 1 /\
       failed_requests (record o ms r) = failed_requests r
       \/
       successful_requests (record o ms r) = successful_requests r /\
       failed_requests (record o ms r) = failed_requests r + 1)) /\
  (forall log, consistent (fold_left (fun r '(o, ms) => record o ms r) log
                             LoadTestResult__init__)) /\
  (forall t b, threads w !! t = Some (Waiting b) -> exists o ms, b = locked_block o ms) /\
  (forall t t' rest rest',
      threads w !! t = Some (Holding rest) ->
      threads w !! t' = Some (Holding rest') -> t = t') /\
  (locked w = false -> consistent (result w)) /\
  (all_exited w ->
   consistent (result w) /\
   forall d, to_dict (result w) = Return d ->
     Dict.total_requests d = Dict.successful_requests d + Dict.failed_requests d /\
     len (response_times (result w)) = Dict.total_requests d).
Proof.
  intros Hr. pose proof (world_inv_reachable _ _ _ _ _ Hr) as Hi.
  split; [|split; [|split; [|split; [|split]]]].
  - intros o ms r. destruct (record_effect o ms r) as (? & ? & ? & _). auto.
  - intros log. apply record_log_consistent. done.
  - apply (inv_waiting _ Hi).
  - apply (inv_exclusive _ Hi).
  - apply (inv_free _ Hi).
  - intros Hall.
    assert (Hc : consistent (result w)).
    { apply (inv_free _ Hi). by apply all_exited_free. }
    split; [done|]. intros d Hd.
    destruct (to_dict_fields _ _ Hd) as (-> & -> & -> & _).
    destruct Hc as (? & ? & _). done.
Qed.

Lemma two_users_midway_reachable : reachable 2 30 0 [] two_users_midway.
Proof.
  apply (run_sound 2 two_users_begin). vm_compute. reflexivity.
Qed.

Lemma two_users_world_reachable : reachable 2 30 0 [] two_users_world.
Proof.
  unfold reachable. etrans; [apply two_users_midway_reachable|].
  apply (run_sound 2 two_users_end). vm_compute. reflexivity.
Qed.

Lemma request_updates_atomic_witness :
  (reachable 2 30 0 [] two_users_midway /\
   locked two_users_midway = true /\
   threads two_users_midway !! 1%nat = Some (Holding [Append 190%float]) /\
   forall t rest, threads two_users_midway !! t = Some (Holding rest) -> t = 1%nat) /\
  (reachable 2 30 0 [] two_users_world /\
   all_exited two_users_world /\
   total_requests (result two_users_world) = 2 /\
   successful_requests (result two_users_world) = 1 /\
   failed_requests (result two_users_world) = 1 /\
   consistent (result two_users_world)).
Proof.
  split.
  - split; [exact two_users_midway_reachable|].
    split; [reflexivity|].
    assert (H1 : threads two_users_midway !! 1%nat = Some (Holding [Append 190%float]))
      by reflexivity.
    split; [exact H1|].
    destruct (request_updates_atomic 2 30 0 [] _ two_users_midway_reachable)
      as (_ & _ & _ & Hexcl & _).
    intros t rest Ht. exact (Hexcl t 1%nat rest _ Ht H1).
  - split; [exact two_users_world_reachable|].
    assert (Hx : all_exited two_users_world) by (vm_compute; repeat constructor).
    split; [exact Hx|].
    split; [reflexivity|]. split; [reflexivity|]. split; [reflexivity|].
    destruct (request_updates_atomic 2 30 0 [] _ two_users_world_reachable)
      as (_ & _ & _ & _ & _ & Hall).
    exact (proj1 (Hall Hx)).
Defined.

(** C1, counterexample. With one user and [duration = -5] the [join]
    timeout is 0, and the handler takes no lock: it can finalize right after
    the thread ran [result.total_requests += 1].  The snapshot it returns has
    [total_requests = 1] with both other counters 0, and the result holds no
    latency. *)
Lemma finalized_result_torn :
  exists w d,
    reachable 1 (-5) 0 [] w /\ pc w = Returned d /\
    Dict.total_requests d <> Dict.successful_requests d + Dict.failed_requests d /\
    len (response_times (result w)) <> total_requests (result w).
Proof.
  destruct (run 1 torn_schedule (run_load_test_init 1 (-5) 0 [])) as [w|] eqn:Hrun;
    [|vm_compute in Hrun; discriminate Hrun].
  pose proof (run_sound _ _ _ _ Hrun) as Hreach.
  vm_compute in Hrun. injection Hrun as <-.
  eexists _, _. split; [exact Hreach|]. split; [reflexivity|].
  split; vm_compute; discriminate.
Qed.

(* ===================================================================== *)
(** * Status codes and runs without users *)
(* ===================================================================== *)

(** ** Status classification *)

(** C10. When a response arrives, the request counts as successful exactly
    when its status code is 200; any other code counts as failed; either way
    the request is counted and its latency recorded. *)
Theorem response_classified_by_status status_code ms r :
  let r' := record (Response status_code) ms r in
  (successful_requests r' = successful_requests r + 1 <-> status_code = 200) /\
  (failed_requests r' = failed_requests r + 1 <-> status_code <> 200) /\
  (status_code = 200 -> failed_requests r' = failed_requests r) /\
  (status_code <> 200 -> successful_requests r' = successful_requests r) /\
  total_requests r' = total_requests r + 1 /\
  response_times r' = response_times r ++ [ms].
Proof.
  unfold record, run_block. simpl.
  destruct (Z.eqb_spec status_code 200) as [->|Hne]; simpl;
    repeat split; intros; try done; try lia.
Qed.

(** ** A run without virtual users *)

Lemma to_dict_empty r :
  total_requests r = 0 -> successful_requests r = 0 -> failed_requests r = 0 ->
  response_times r = [] ->
  to_dict r = Return (empty_run (concurrent_users r) (test_duration r)
                        (start_time r) (end_time r)).
Proof.
  destruct r as [t s f rt st et u d]. simpl. intros -> -> -> ->.
  unfold to_dict, requests_per_second. simpl.
  destruct st, et; reflexivity.
Qed.

Lemma no_users_inv_step users duration now history w w' :
  users <= 0 ->
  no_users_inv users duration now history w -> step users w w' ->
  no_users_inv users duration now history w'.
Proof.
  intros Hu [Hth Ht Hs Hf Hrt Hst Hus Hd Hpc] Hstep.
  assert (Hdict : forall v, to_dict (set_end_time v (result w)) =
             Return (empty_run users duration (Some now) v)).
  { intros v. rewrite to_dict_empty by done. simpl. by rewrite Hst, Hus, Hd. }
  destruct Hstep as [i Hp Hi | i Hp Hi | j Hp Hj Hdur | j Hp Hj Hdur | j Hp Hj | now' Hp | Hp | Hp
                    | t uid clock Hl | t uid st o clock Hl | t block Hl Hlk
                    | t s rest Hl | t Hl];
    try (rewrite Hth in Hl; done); rewrite Hp in Hpc.
  - lia.
  - split; simpl; try done. tauto.
  - rewrite Hth in Hj. simpl in Hj. lia.
  - rewrite Hth in Hj. simpl in Hj. lia.
  - split; simpl; done.
  - split; simpl; done.
  - assert (E : to_dict (result w) =
               Return (empty_run users duration (Some now) (end_time (result w)))).
    { rewrite to_dict_empty by done. by rewrite Hst, Hus, Hd. }
    unfold store. rewrite E. split; simpl; try done. by rewrite Hpc.
  - assert (E : to_dict (result w) =
               Return (empty_run users duration (Some now) (end_time (result w)))).
    { rewrite to_dict_empty by done. by rewrite Hst, Hus, Hd. }
    unfold reply. rewrite E. split; simpl; try done.
Qed.

Lemma no_users_inv_reachable users duration now history w :
  users <= 0 ->
  reachable users duration now history w ->
  no_users_inv users duration now history w.
Proof.
  intros Hu H.
  eapply (rtc_ind_r (R := step users)
            (fun w => no_users_inv users duration now history w)); [ | | exact H].
  - split; simpl; done.
  - intros ? ? _ ? ?. eapply no_users_inv_step; eauto.
Qed.

Lemma no_users_run users duration now history finish :
  users <= 0 ->
  exists w,
    run users (no_users_schedule finish)
      (run_load_test_init users duration now history) = Some w /\
    pc w = Returned (empty_run users duration (Some now) (Some finish)).
Proof.
  intros Hu. unfold no_users_schedule, run, fire. simpl.
  destruct (Z.leb_spec users 0); [|lia]. simpl.
  eexists. split; reflexivity.
Qed.

(** C6. With [users <= 0], [run_load_test] starts no thread, never raises,
    can always take a step until it has returned, and returns the snapshot
    of an empty run: every counter and every derived metric is 0.  For every
    finishing time there is such a run. *)
Theorem run_load_test_no_users users duration now history :
  users <= 0 ->
  (forall w, reachable users duration now history w ->
     threads w = [] /\
     (forall e, pc w <> Failed e) /\
     (forall d, pc w = Returned d ->
        d = empty_run users duration (Some now) (end_time (result w)) /\
        test_history w = test_history_append d history) /\
     ((forall d, pc w <> Returned d) -> exists w', step users w w')) /\
  (forall finish, exists w,
      reachable users duration now history w /\
      pc w = Returned (empty_run users duration (Some now) (Some finish))).
Proof.
  intros Hu. split.
  - intros w Hr.
    destruct (no_users_inv_reachable _ _ _ _ _ Hu Hr)
      as [Hth Ht Hs Hf Hrt Hst Hus Hd Hpc].
    split; [done|]. split; [|split].
    + intros e He. by rewrite He in Hpc.
    + intros d Hd'. by rewrite Hd' in Hpc.
    + intros Hnot. destruct (pc w) eqn:Hp.
      * destruct Hpc as [-> _]. eexists. by apply step_spawned with (i := 0).
      * eexists. apply step_joined with (j := j); [done|]. rewrite Hth. simpl. lia.
      * eexists. by apply (step_finalize users w 0).
      * eexists. by apply step_store.
      * eexists. by apply step_reply.
      * by destruct (Hnot d).
      * done.
  - intros finish.
    destruct (no_users_run users duration now history finish Hu) as (w & Hrun & Hp).
    exists w. split; [|done]. by eapply run_sound.
Qed.

Lemma run_load_test_no_users_witness :
  0 <= 0 /\
  exists w, reachable 0 10 0 [] w /\
    pc w = Returned (empty_run 0 10 (Some 0) (Some 7)).
Proof.
  split; [lia|].
  apply (proj2 (run_load_test_no_users 0 10 0 [] ltac:(lia)) 7).
Defined.

(* ===================================================================== *)
(** * Snapshots *)
(* ===================================================================== *)

Lemma test_history_fifo_witness :
  length (record_all sample_runs []) = 50%nat /\
  record_all sample_runs [] = tail sample_runs.
Proof.
  destruct test_history_fifo as (_ & _ & Hall & H51).
  split.
  - rewrite (proj2 (Hall sample_runs)). reflexivity.
  - apply (H51 (empty_run 0 0 None None) (tail sample_runs)). reflexivity.
Defined.

Lemma performance_metrics_aggregate_witness :
  exists m,
    get_performance_metrics sample_history = Return (Some m) /\
    Metrics.total_tests m = 2 /\
    Metrics.avg_success_rate m = PyFloat 40 /\
    Metrics.total_requests m = PyInt 5.
Proof.
  destruct (performance_metrics_aggregate sample_history) as (_ & m & Hm & Ht & Hr & _ & _ & Hq & _).
  - discriminate.
  - vm_compute. reflexivity.
  - repeat (apply Forall_cons; split); [ | |apply Forall_nil];
      unfold wf_dict, metric_value; cbn; repeat split;
      first [by left | by right; eexists].
  - exists m. split; [exact Hm|]. split; [exact Ht|]. split; [|exact Hq].
    assert (E : mean (Dict.success_rate <$> sample_history) = Return (PyFloat 40))
      by (vm_compute; reflexivity).
    rewrite E in Hr. by injection Hr as <-.
Defined.

(** ** Snapshots are well formed *)

Lemma truediv_float x y v : truediv x y = Return v -> exists f, v = PyFloat f.
Proof.
  unfold truediv. intros H.
  destruct x as [a|f], y as [b|g]; cbn [as_float] in H.
  - destruct (int_truediv a b); simpl in H; [|done]. injection H as <-. eauto.
  - destruct (float_of_int a); cbn [mbind py_bind] in H; [|done].
    destruct (is_zero g); [done|]. injection H as <-. eauto.
  - cbn [mbind py_bind] in H.
    destruct (float_of_int b); cbn [mbind py_bind] in H; [|done].
    destruct (is_zero _); [done|]. injection H as <-. eauto.
  - cbn [mbind py_bind] in H.
    destruct (is_zero g); [done|]. injection H as <-. eauto.
Qed.

Lemma mul_float_l f y v : mul (PyFloat f) y = Return v -> exists g, v = PyFloat g.
Proof.
  unfold mul. cbn [as_float mbind py_bind]. intros H.
  destruct (as_float y); cbn [mbind py_bind] in H; [|done].
  injection H as <-. eauto.
Qed.

Lemma to_dict_wf self d : to_dict self = Return d -> wf_dict d.
Proof.
  intros H. destruct (to_dict_fields _ _ H)
    as (_ & _ & _ & _ & _ & _ & _ & Havg & _ & _ & _ & _ & Hrate & Hrps).
  unfold wf_dict. split; [|split].
  - unfold success_rate in Hrate.
    destruct (0 <? total_requests self); [|injection Hrate as <-; by left].
    destruct (truediv _ _) as [q|] eqn:Eq; cbn [mbind py_bind] in Hrate; [|done].
    destruct (truediv_float _ _ _ Eq) as (f & ->).
    right. by eapply mul_float_l.
  - unfold avg_response_time in Havg.
    destruct (response_times self); [injection Havg as <-; by left|].
    destruct (sum _); cbn [mbind py_bind] in Havg; [|done].
    right. by eapply truediv_float.
  - unfold requests_per_second in Hrps.
    destruct (start_time self), (end_time self);
      try (injection Hrps as <-; by left).
    destruct (total_requests self =? 0); [injection Hrps as <-; by left|].
    destruct (total_seconds _) as [duration|]; cbn [mbind py_bind] in Hrps; [|done].
    destruct (gt_zero duration); [|injection Hrps as <-; by left].
    right. by eapply truediv_float.
Qed.

(** The history a run leaves behind stays well formed and within its bound. *)
Lemma history_inv_step users w w' :
  step users w w' ->
  Forall wf_dict (test_history w) /\ (length (test_history w) <= 50)%nat ->
  Forall wf_dict (test_history w') /\ (length (test_history w') <= 50)%nat.
Proof.
  intros Hstep [Hwf Hlen].
  destruct Hstep; try done.
  - unfold store. destruct (to_dict (result w)) as [d|] eqn:Ed; [|done].
    cbn [test_history set_pc set_test_history].
    unfold test_history_append. split.
    + assert (Hd : wf_dict d) by by eapply to_dict_wf.
      unfold deque_append.
      destruct (_ <? _)%nat.
      * destruct (test_history w) as [|d0 h]; simpl; [constructor|].
        apply Forall_cons in Hwf as [_ Hwf]. apply Forall_app. split; [done|by constructor].
      * apply Forall_app. split; [done|by constructor].
    + rewrite deque_append_length by done. unfold test_history_maxlen. lia.
  - unfold reply. by destruct (to_dict (result w)).
Qed.

Lemma history_inv_reachable users duration now history w :
  Forall wf_dict history -> (length history <= 50)%nat ->
  reachable users duration now history w ->
  Forall wf_dict (test_history w) /\ (length (test_history w) <= 50)%nat.
Proof.
  intros Hwf Hlen H.
  eapply (rtc_ind_r (R := step users)
            (fun w => Forall wf_dict (test_history w) /\
                      (length (test_history w) <= 50)%nat)); [ | | exact H].
  - done.
  - intros ? ? _ ? ?. by eapply history_inv_step.
Qed.

Lemma avg_response_time_returns self :
  len (response_times self) < 2 ^ 47 -> exists v, avg_response_time self = Return v.
Proof.
  intros Hlen. unfold avg_response_time.
  destruct (response_times self) as [|x xs] eqn:E; [by eexists|]. rewrite <- E in *.
  destruct (mean_metric_values (PyFloat <$> response_times self)) as (v & Hv & _).
  - by rewrite E.
  - rewrite len_fmap. lia.
  - apply Forall_fmap, Forall_forall. intros f _. right. by exists f.
  - exists v. unfold mean in Hv. by rewrite len_fmap in Hv.
Qed.

Lemma requests_per_second_returns self :
  valid_timestamps self -> 0 <= total_requests self < 2 ^ 53 ->
  exists v, requests_per_second self = Return v.
Proof.
  intros [Hs He] Ht. unfold requests_per_second.
  destruct (start_time self) as [st|]; [|by eexists].
  destruct (end_time self) as [et|]; [|by eexists].
  destruct (Z.eqb_spec (total_requests self) 0); [by eexists|].
  specialize (Hs st eq_refl). specialize (He et eq_refl). unfold valid_datetime in *.
  destruct (Z.le_gt_cases (et - st) 0) as [Hle|Hgt].
  - destruct (total_seconds_nonpos (et - st) ltac:(lia)) as (secs & -> & Hg).
    cbn [mbind py_bind]. rewrite Hg. by eexists.
  - destruct (total_seconds_pos (et - st) ltac:(lia)) as (secs & -> & Hg & Hz).
    cbn [mbind py_bind]. rewrite Hg.
    destruct (float_of_int_exact (total_requests self) ltac:(lia)) as (f & Hf & _).
    unfold truediv, as_float. rewrite Hf. cbn [mbind py_bind]. rewrite Hz. by eexists.
Qed.

Lemma percentiles_return self :
  len (response_times self) < 2 ^ 47 ->
  (exists v, p95_response_time self = Return v) /\
  (exists v, p99_response_time self = Return v).
Proof.
  intros Hlen.
  destruct (decide (response_times self = [])) as [E|Hne].
  { unfold p95_response_time, p99_response_time. rewrite E. split; by eexists. }
  pose proof (len_pos _ Hne) as Hpos.
  destruct (rank_bounds _ Hpos) as (Hb1 & Hb2).
  split.
  - destruct (percentile_value (response_times self)
                (19 * len (response_times self) / 20) Hne ltac:(lia)) as (x & Hg & _).
    rewrite p95_response_time_eq by done. rewrite Hg. by eexists.
  - destruct (percentile_value (response_times self)
                (99 * len (response_times self) / 100) Hne ltac:(lia)) as (x & Hg & _).
    rewrite p99_response_time_eq by done. rewrite Hg. by eexists.
Qed.

Lemma success_rate_returns self :
  0 <= successful_requests self <= total_requests self ->
  exists v, success_rate self = Return v.
Proof.
  intros Hc. unfold success_rate.
  destruct (Z.ltb_spec 0 (total_requests self)) as [Hpos|Hz]; [|by eexists].
  destruct (total_requests self) as [|b|b] eqn:Et; try lia.
  destruct (successful_requests self) as [|a|a] eqn:Es; try lia.
  - by exists (PyFloat 0).
  - destruct (success_rate_positive a b ltac:(lia)) as (f & Hf & _). by exists (PyFloat f).
Qed.

Theorem to_dict_returns self :
  consistent self -> valid_timestamps self ->
  len (response_times self) < 2 ^ 47 ->
  exists d, to_dict self = Return d /\ wf_dict d.
Proof.
  intros (Hsum & Hl & Hs & Hf) Hts Hlen.
  assert (Hd : exists d, to_dict self = Return d).
  { unfold to_dict.
    destruct (avg_response_time_returns self Hlen) as (avg & ->).
    cbn [mbind py_bind].
    assert (Hmin : exists v, min_response_time self = Return v)
      by (unfold min_response_time; destruct (response_times self); by eexists).
    destruct Hmin as (mn & ->). cbn [mbind py_bind].
    assert (Hmax : exists v, max_response_time self = Return v)
      by (unfold max_response_time; destruct (response_times self); by eexists).
    destruct Hmax as (mx & ->). cbn [mbind py_bind].
    destruct (percentiles_return self Hlen) as ((p95 & ->) & (p99 & ->)).
    cbn [mbind py_bind].
    destruct (success_rate_returns self ltac:(lia)) as (rate & ->).
    cbn [mbind py_bind].
    destruct (requests_per_second_returns self Hts ltac:(lia)) as (rps & ->).
    cbn [mbind py_bind]. by eexists. }
  destruct Hd as (d & Hd). exists d. split; [done|]. by eapply to_dict_wf.
Qed.

Lemma owed_by_snoc p ts t : owed_by p (ts ++ [t]) = owed_by p ts + owed p t.
Proof.
  unfold owed_by. induction ts as [|x ts IH]; csimpl; [lia|]. rewrite IH. lia.
Qed.

Lemma owed_by_insert p ts t x y :
  ts !! t = Some x -> owed_by p (<[t := y]> ts) = owed_by p ts - owed p x + owed p y.
Proof.
  unfold owed_by. revert t. induction ts as [|z ts IH]; intros t Ht; [done|].
  destruct t as [|t]; csimpl in *.
  - simplify_eq. lia.
  - specialize (IH t Ht). lia.
Qed.

Lemma len_insert {A} (l : list A) i x : len (<[i := x]> l) = len l.
Proof. unfold len. by rewrite length_insert. Qed.

Lemma len_snoc {A} (l : list A) x : len (l ++ [x]) = len l + 1.
Proof. unfold len. rewrite length_app. simpl. lia. Qed.

Lemma Forall_insert_wf ts t y :
  Forall thread_wf ts -> thread_wf y -> Forall thread_wf (<[t := y]> ts).
Proof. intros. by apply Forall_insert. Qed.

Lemma locked_block_counts o ms :
  count is_total (locked_block o ms) = 1 /\
  count is_outcome (locked_block o ms) = 1 /\
  count is_append (locked_block o ms) = 1.
Proof. destruct o as [c| |]; simpl; try destruct (c =? 200); done. Qed.

Lemma suffix_locked_block rest o ms :
  rest `suffix_of` locked_block o ms ->
  0 <= count is_total rest <= count is_outcome rest /\
  count is_outcome rest <= count is_append rest <= 1.
Proof.
  intros [k Hk].
  assert (H3 : exists a b, locked_block o ms = [IncTotal; a; Append b] /\ is_outcome a = true).
  { destruct o as [c| |]; simpl; try destruct (c =? 200); eauto. }
  destruct H3 as (a & b & E & Ha). rewrite E in Hk.
  destruct k as [|k1 [|k2 [|k3 [|k4 k]]]]; simpl in Hk; simplify_eq; simpl;
    try rewrite Ha; try (destruct a; simpl in *; try done; lia); try lia.
Qed.

Lemma thread_wf_owed t :
  thread_wf t ->
  0 <= owed is_total t <= owed is_outcome t /\
  owed is_outcome t <= owed is_append t <= 1.
Proof.
  destruct t as [u|u st|block|rest|]; simpl; try lia.
  - intros (o & ms & ->). destruct (locked_block_counts o ms) as (-> & -> & ->). lia.
  - intros (o & ms & H). by eapply suffix_locked_block.
Qed.

Lemma owed_by_order ts :
  Forall thread_wf ts ->
  0 <= owed_by is_total ts <= owed_by is_outcome ts /\
  owed_by is_outcome ts <= owed_by is_append ts <= len ts.
Proof.
  unfold owed_by, len. induction 1 as [|t ts Ht _ IH]; csimpl; [lia|].
  pose proof (thread_wf_owed t Ht). lia.
Qed.

Lemma owed_by_exited p ts : Forall (fun t => t = Exited) ts -> owed_by p ts = 0.
Proof.
  unfold owed_by. induction 1 as [|t ts -> _ IH]; csimpl; [done|]. lia.
Qed.

Lemma accounting_init users duration now history :
  accounting users (run_load_test_init users duration now history).
Proof. split; simpl; try done. split; [lia|done]. Qed.

Lemma accounting_step users w w' :
  accounting users w -> step users w w' -> accounting users w'.
Proof.
  intros [Ht Ho Ha Hs Hf Hwf Hsp] Hstep.
  destruct Hstep as [i Hpc Hi | i Hpc Hi | j Hpc Hj Hd | j Hpc Hj Hd | j Hpc Hj | now Hpc | Hpc | Hpc
                    | t uid clock Hl | t uid st o clock Hl | t block Hl Hlk
                    | t s rest Hl | t Hl].
  - rewrite Hpc in Hsp. split; simpl; rewrite ?owed_by_snoc, ?len_snoc; simpl; try lia.
    apply Forall_app. split; [done|]. by repeat constructor.
  - rewrite Hpc in Hsp. split; simpl; try done. lia.
  - rewrite Hpc in Hsp. split; simpl; done.
  - rewrite Hpc in Hsp. split; simpl; done.
  - rewrite Hpc in Hsp. split; simpl; done.
  - rewrite Hpc in Hsp. split; simpl; done.
  - assert (Hnp : forall i, pc w <> Spawning i) by (intros i; by rewrite Hpc).
    rewrite Hpc in Hsp.
    unfold store. destruct (to_dict (result w)); split; simpl; done.
  - rewrite Hpc in Hsp.
    unfold reply. destruct (to_dict (result w)); split; simpl; done.
  - split; simpl; rewrite ?(owed_by_insert _ _ _ _ _ Hl), ?len_insert; simpl; try lia; try done.
    by apply Forall_insert_wf.
  - destruct (locked_block_counts o ((clock - st) * 1000)%float) as (E1 & E2 & E3).
    split; simpl; rewrite ?(owed_by_insert _ _ _ _ _ Hl), ?len_insert; simpl;
      rewrite ?E1, ?E2, ?E3; try lia; try done.
    apply Forall_insert_wf; [done|]. simpl. eauto.
  - pose proof (Forall_lookup_1 _ _ _ _ Hwf Hl) as Hb.
    split; simpl; rewrite ?(owed_by_insert _ _ _ _ _ Hl), ?len_insert; simpl; try lia; try done.
    apply Forall_insert_wf; [done|]. simpl in *.
    destruct Hb as (o & ms & ->). by exists o, ms.
  - pose proof (Forall_lookup_1 _ _ _ _ Hwf Hl) as Hb.
    assert (Hwf' : Forall thread_wf (<[t := Holding rest]> (threads w))).
    { apply Forall_insert_wf; [done|]. simpl in *.
      destruct Hb as (o & ms & H). exists o, ms. by eapply suffix_cons_l. }
    destruct s; split; simpl; rewrite ?(owed_by_insert _ _ _ _ _ Hl), ?len_insert, ?len_snoc;
      simpl; try lia; try done.
  - split; simpl; rewrite ?(owed_by_insert _ _ _ _ _ Hl), ?len_insert; simpl; try lia; try done.
    by apply Forall_insert_wf.
Qed.

Lemma accounting_reachable users duration now history w :
  reachable users duration now history w -> accounting users w.
Proof.
  unfold reachable. intros H.
  eapply (rtc_ind_r (R := step users) (fun w => accounting users w)); [ | | exact H].
  - apply accounting_init.
  - intros ? ? _ ? ?. eapply accounting_step; eauto.
Qed.

(** X1. Each virtual user makes at most one request, whatever the duration:
    at every moment of a run the latencies recorded, the outcomes counted
    and the requests counted are ordered and bounded by the number of
    threads started, itself at most [users]; once every thread has exited
    the three agree with the number of threads, which is [max 0 users] as
    soon as the spawning loop is over. *)
Theorem one_request_per_user users duration now history w :
  reachable users duration now history w ->
  0 <= successful_requests (result w) /\
  0 <= failed_requests (result w) /\
  len (response_times (result w))
    <= successful_requests (result w) + failed_requests (result w) /\
  successful_requests (result w) + failed_requests (result w)
    <= total_requests (result w) /\
  total_requests (result w) <= len (threads w) /\
  len (threads w) <= Z.max 0 users /\
  (all_exited w ->
   len (response_times (result w)) = len (threads w) /\
   total_requests (result w) = len (threads w)) /\
  ((forall i, pc w <> Spawning i) -> len (threads w) = Z.max 0 users).
Proof.
  intros Hr. destruct (accounting_reachable _ _ _ _ _ Hr) as [Ht Ho Ha Hs Hf Hwf Hsp].
  pose proof (owed_by_order _ Hwf) as Hord.
  assert (0 <= len (response_times (result w))) by (unfold len; lia).
  split; [lia|]. split; [lia|]. split; [lia|]. split; [lia|]. split; [lia|].
  split; [destruct (pc w); lia|]. split.
  - intros Hall. unfold all_exited in Hall.
    rewrite (owed_by_exited _ _ Hall) in Ha. rewrite (owed_by_exited _ _ Hall) in Ht. lia.
  - intros Hnp. destruct (pc w) eqn:E; try done. by destruct (Hnp i).
Qed.

(** ** Results only grow *)

Lemma exec_grows s r :
  total_requests r <= total_requests (exec s r) /\
  successful_requests r <= successful_requests (exec s r) /\
  failed_requests r <= failed_requests (exec s r) /\
  response_times r `prefix_of` response_times (exec s r) /\
  start_time (exec s r) = start_time r /\
  end_time (exec s r) = end_time r /\
  concurrent_users (exec s r) = concurrent_users r /\
  test_duration (exec s r) = test_duration r.
Proof.
  destruct s; simpl; repeat split; try lia; try done.
  by apply prefix_app_r.
Qed.

Lemma step_grows users w w' :
  step users w w' ->
  total_requests (result w) <= total_requests (result w') /\
  successful_requests (result w) <= successful_requests (result w') /\
  failed_requests (result w) <= failed_requests (result w') /\
  response_times (result w) `prefix_of` response_times (result w') /\
  start_time (result w') = start_time (result w) /\
  concurrent_users (result w') = concurrent_users (result w) /\
  test_duration (result w') = test_duration (result w) /\
  (length (threads w) <= length (threads w'))%nat.
Proof.
  destruct 1; simpl; rewrite ?length_insert, ?length_app;
    try (repeat split; first [done | lia]).
  - unfold store. destruct (to_dict (result w)); simpl; repeat split; first [done | lia].
  - unfold reply. destruct (to_dict (result w)); simpl; repeat split; first [done | lia].
  - destruct (exec_grows s (result w)) as (? & ? & ? & ? & ? & ? & ? & ?).
    repeat split; first [done | lia].
Qed.

(** X2. Along a run the three counters never decrease, a recorded latency
    is never removed or moved, the start time and the two inputs never
    change, and no thread disappears. *)
Theorem results_only_grow users w w' :
  rtc (step users) w w' ->
  total_requests (result w) <= total_requests (result w') /\
  successful_requests (result w) <= successful_requests (result w') /\
  failed_requests (result w) <= failed_requests (result w') /\
  response_times (result w) `prefix_of` response_times (result w') /\
  start_time (result w') = start_time (result w) /\
  concurrent_users (result w') = concurrent_users (result w) /\
  test_duration (result w') = test_duration (result w) /\
  (length (threads w) <= length (threads w'))%nat.
Proof.
  induction 1 as [w|w w1 w' Hs _ IH].
  - repeat split; first [done | lia].
  - destruct (step_grows _ _ _ Hs) as (? & ? & ? & ? & ? & ? & ? & ?).
    destruct IH as (? & ? & ? & ? & ? & ? & ? & ?).
    repeat split; try lia; try congruence.
    by etrans.
Qed.

(** ** Termination *)

Lemma fuel_insert ts t x y :
  ts !! t = Some x ->
  (sum_list_with thread_fuel (<[t := y]> ts) + thread_fuel x
   = sum_list_with thread_fuel ts + thread_fuel y)%nat.
Proof.
  revert t. induction ts as [|z ts IH]; intros t Ht; [done|].
  destruct t as [|t]; simpl in *.
  - simplify_eq. lia.
  - specialize (IH t Ht). lia.
Qed.

(** Every step uses up one unit of [fuel]; a failing [join] or [to_dict]
    uses up all the handler had left. *)
Lemma step_fuel users w w' :
  step users w w' ->
  (fuel users w' < fuel users w)%nat /\
  ((forall e, pc w' <> Failed e) -> (fuel users w' + 1 = fuel users w)%nat).
Proof.
  unfold fuel, handler_fuel.
  destruct 1 as [i Hpc Hi | i Hpc Hi | j Hpc Hj Hd | j Hpc Hj Hd | j Hpc Hj | now Hpc | Hpc | Hpc
                | t uid clock Hl | t uid st o clock Hl | t block Hl Hlk
                | t s rest Hl | t Hl]; simpl; rewrite ?Hpc.
  - rewrite sum_list_with_app, length_app. simpl.
    replace (Z.to_nat (users - i)) with (S (Z.to_nat (users - (i + 1)))) by lia. lia.
  - lia.
  - lia.
  - split; [lia|]. intros H. by destruct (H OverflowError).
  - lia.
  - lia.
  - unfold store. destruct (to_dict (result w)) as [d|e]; simpl; rewrite ?Hpc.
    + lia.
    + split; [lia|]. intros H. by destruct (H e).
  - unfold reply. destruct (to_dict (result w)) as [d|e]; simpl; rewrite ?Hpc.
    + lia.
    + split; [lia|]. intros H. by destruct (H e).
  - pose proof (fuel_insert _ _ _ (Requesting uid clock) Hl) as E. simpl in E.
    rewrite length_insert. destruct (pc w); lia.
  - pose proof (fuel_insert _ _ _
                  (Waiting (locked_block o ((clock - st) * 1000)%float)) Hl) as E.
    assert (El : length (locked_block o ((clock - st) * 1000)%float) = 3%nat)
      by (destruct o as [c| |]; simpl; try destruct (c =? 200); done).
    simpl in E. rewrite El in E.
    rewrite length_insert. destruct (pc w); lia.
  - pose proof (fuel_insert _ _ _ (Holding block) Hl) as E. simpl in E.
    rewrite length_insert. destruct (pc w); lia.
  - pose proof (fuel_insert _ _ _ (Holding rest) Hl) as E. simpl in E.
    rewrite length_insert. destruct (pc w); lia.
  - pose proof (fuel_insert _ _ _ Exited Hl) as E. simpl in E.
    rewrite length_insert. destruct (pc w); lia.
Qed.

(** Once the handler has raised, it stays so. *)
Lemma failed_stays users w w' e :
  step users w w' -> pc w = Failed e -> pc w' = Failed e.
Proof. destruct 1; simpl; try done; congruence. Qed.

Lemma nsteps_failed users n w w' e :
  nsteps (step users) n w w' -> pc w = Failed e -> pc w' = Failed e.
Proof.
  induction 1 as [w|n w w1 w' Hs _ IH]; [done|].
  intros He. apply IH. by eapply failed_stays.
Qed.

Lemma nsteps_fuel users n w w' :
  nsteps (step users) n w w' ->
  (n + fuel users w' <= fuel users w)%nat /\
  ((forall e, pc w' <> Failed e) -> (n + fuel users w' = fuel users w)%nat).
Proof.
  induction 1 as [w|n w w1 w' Hs Hn IH]; [lia|].
  destruct (step_fuel _ _ _ Hs) as [Hlt Heq]. destruct IH as [IH1 IH2].
  split; [lia|]. intros Hnf.
  rewrite <- Heq, <- IH2; [lia|done|].
  intros e He. apply (Hnf e). by eapply nsteps_failed.
Qed.

Lemma fuel_exited ts :
  Forall (fun t => t = Exited) ts -> sum_list_with thread_fuel ts = 0%nat.
Proof. induction 1 as [|t ts -> _ IH]; simpl; [done|]. lia. Qed.

(** X3. [run_load_test] terminates: a run with [users] virtual users takes
    at most [9 * users + 5] steps (nine for each user: started, request
    sent, outcome received, lock acquired, three updates, lock released,
    joined; five for the handler itself), whatever the schedule; and a run
    at whose end the handler has returned and every thread has exited has
    taken exactly that many. *)
Theorem run_load_test_terminates users duration now history n w :
  nsteps (step users) n (run_load_test_init users duration now history) w ->
  (n <= 9 * Z.to_nat users + 5)%nat /\
  ((exists d, pc w = Returned d) -> all_exited w ->
   n = (9 * Z.to_nat users + 5)%nat).
Proof.
  intros H. apply nsteps_fuel in H as [Hle Heq].
  assert (E0 : fuel users (run_load_test_init users duration now history)
               = (9 * Z.to_nat users + 5)%nat).
  { unfold fuel, handler_fuel, run_load_test_init.
    cbn [pc threads sum_list_with length].
    replace (users - 0) with users by lia. lia. }
  rewrite E0 in Hle, Heq.
  split; [lia|]. intros (d & Hd) Hx.
  rewrite <- Heq by (intros e; by rewrite Hd).
  unfold fuel, handler_fuel. rewrite Hd, (fuel_exited _ Hx). lia.
Qed.

(** ** No deadlock *)

Lemma holder_steps users w t rest :
  threads w !! t = Some (Holding rest) -> exists w', step users w w'.
Proof.
  intros Ht. destruct rest as [|s rest].
  - eexists. by eapply step_release.
  - eexists. by eapply step_exec.
Qed.

Lemma thread_steps users w t th :
  world_inv w -> threads w !! t = Some th -> th <> Exited ->
  exists w', step users w w'.
Proof.
  intros Hi Ht Hne. destruct th as [uid|uid st|block|rest|]; [| | | |done].
  - eexists. by eapply (step_begin users w t uid 0%float).
  - eexists. by eapply (step_outcome users w t uid st Timeout 0%float).
  - destruct (locked w) eqn:Hk.
    + destruct (inv_holder _ Hi Hk) as (t' & rest & Ht').
      by eapply holder_steps.
    + eexists. by eapply step_acquire.
  - by eapply holder_steps.
Qed.

Lemma handler_steps users w :
  (forall d, pc w <> Returned d) -> (forall e, pc w <> Failed e) ->
  exists w', step users w w'.
Proof.
  intros Hr Hf. destruct (pc w) as [i|j| | | |d|e] eqn:Hpc.
  - destruct (Z.lt_ge_cases i users).
    + eexists. by eapply step_spawn.
    + eexists. by eapply step_spawned.
  - destruct (Nat.lt_ge_cases j (length (threads w))).
    + destruct (Z.le_gt_cases (test_duration (result w) + 5) TIMEOUT_MAX).
      * eexists. by eapply step_join.
      * eexists. by eapply step_join_overflow.
    + eexists. by eapply step_joined.
  - eexists. by eapply (step_finalize users w 0).
  - eexists. by eapply step_store.
  - eexists. by eapply step_reply.
  - by destruct (Hr d).
  - by destruct (Hf e).
Qed.

(** X4. The lock never blocks a run for good: in every world of a run in
    which no step is possible the handler has returned (or raised) and
    every thread has exited.  Said the other way round, as long as the
    handler is at work or a thread has not exited, some step can be
    taken. *)
Theorem run_load_test_no_deadlock users duration now history w :
  reachable users duration now history w ->
  (forall w', ~ step users w w') ->
  ((exists d, pc w = Returned d) \/ (exists e, pc w = Failed e)) /\
  all_exited w.
Proof.
  intros Hr Hstuck. pose proof (world_inv_reachable _ _ _ _ _ Hr) as Hi.
  split.
  - destruct (pc w) as [i|j| | | |d|e] eqn:Hpc; eauto;
      exfalso; destruct (handler_steps users w) as (w' & Hs);
      try (intros ?; by rewrite Hpc); by eapply Hstuck.
  - unfold all_exited. apply Forall_lookup_2. intros t th Ht.
    destruct th as [uid|uid st|block|rest|]; [..|done]; exfalso;
      (destruct (thread_steps users w t _ Hi Ht) as (w' & Hs);
        [done|by destruct (Hstuck w')]).
Qed.

(** ** One record per run *)

Lemma lags_to_dict r d : to_dict r = Return d -> lags d r.
Proof.
  intros H. destruct (to_dict_fields _ _ H) as (? & ? & ? & ? & ? & ? & ? & _).
  unfold lags. repeat split; first [lia | done].
Qed.

Lemma lags_exec d s r : lags d r -> lags d (exec s r).
Proof.
  intros (? & ? & ? & ? & ? & ? & ?).
  destruct (exec_grows s r) as (? & ? & ? & _ & ? & ? & ? & ?).
  unfold lags. repeat split; first [lia | congruence].
Qed.

Lemma recording_step users duration now history w w' :
  recording users duration now history w -> step users w w' ->
  recording users duration now history w'.
Proof.
  intros [Hu Hd Hs Hpc] Hstep.
  destruct Hstep as [i Hp Hi | i Hp Hi | j Hp Hj Hdur | j Hp Hj Hdur | j Hp Hj | now' Hp | Hp | Hp
                    | t uid clock Hl | t uid st o clock Hl | t block Hl Hlk
                    | t s rest Hl | t Hl];
    try (rewrite Hp in Hpc); try (split; simpl; done).
  - destruct Hpc as [Hh He].
    unfold store. destruct (to_dict (result w)) as [d|e] eqn:Ed; split; simpl; try done.
    split; [done|]. exists d. rewrite Hh. split; [done|]. by apply lags_to_dict.
  - destruct Hpc as [He (stored & Hh & Hl)].
    unfold reply. destruct (to_dict (result w)) as [d|e] eqn:Ed; split; simpl; try done.
    pose proof (lags_to_dict _ _ Ed) as Hd'.
    split; [done|]. split; [done|]. exists stored. split; [done|]. split; [done|].
    destruct (to_dict_fields _ _ Ed) as (-> & -> & -> & _).
    destruct Hl as (? & ? & ? & _). done.
  - destruct (exec_grows s (result w)) as (_ & _ & _ & _ & Es & Ee & Eu & Ed).
    split; simpl; try congruence.
    destruct (pc w); try done.
    + by rewrite Ee.
    + destruct Hpc as [He (stored & Hh & Hl')]. rewrite Ee. split; [done|].
      exists stored. split; [done|]. by apply lags_exec.
    + destruct Hpc as (He & Hd' & stored & Hh & Hl' & Hle). rewrite Ee.
      split; [done|]. split; [by apply lags_exec|].
      exists stored. split; [done|]. split; [by apply lags_exec|done].
Qed.

Lemma recording_reachable users duration now history w :
  reachable users duration now history w -> recording users duration now history w.
Proof.
  unfold reachable. intros H.
  eapply (rtc_ind_r (R := step users)
            (fun w => recording users duration now history w)); [ | | exact H].
  - split; done.
  - intros ? ? _ ? ?. eapply recording_step; eauto.
Qed.

Lemma test_history_append_length d h :
  (length h <= 50)%nat ->
  length (test_history_append d h) = Nat.min (S (length h)) 50.
Proof. intros. unfold test_history_append. by rewrite deque_append_length. Qed.

(** ** Other calls beside this one *)

Lemma reachable_shared_own users duration now history w :
  reachable users duration now history w ->
  reachable_shared users duration now history w.
Proof.
  unfold reachable, reachable_shared. intros H.
  induction H as [w|w w1 w' Hs _ IH]; [apply rtc_refl|].
  eapply rtc_l; [by apply shared_own|done].
Qed.

Lemma rtc_shared_own users w w' :
  rtc (step users) w w' -> rtc (step_shared users) w w'.
Proof.
  induction 1 as [w|w w1 w' Hs _ IH]; [apply rtc_refl|].
  eapply rtc_l; [by apply shared_own|done].
Qed.

Lemma record_all_snoc ds d (h : list Dict.t) :
  record_all (ds ++ [d]) h = test_history_append d (record_all ds h).
Proof. unfold record_all. by rewrite fold_left_app. Qed.

Lemma recorded_between_snoc before stored after d (h : list Dict.t) :
  recorded_between before stored (after ++ [d]) h
  = test_history_append d (recorded_between before stored after h).
Proof. unfold recorded_between. by rewrite record_all_snoc. Qed.

Lemma record_all_length ds (h : list Dict.t) :
  (length h <= 50)%nat ->
  length (record_all ds h) = Nat.min (length h + length ds) 50.
Proof.
  revert h. induction ds as [|d ds IH]; intros h Hh; simpl.
  - lia.
  - unfold record_all in *. rewrite IH.
    + rewrite test_history_append_length by done. lia.
    + rewrite test_history_append_length by done. lia.
Qed.

Lemma recorded_between_length before stored after (h : list Dict.t) :
  (length h <= 50)%nat ->
  length (recorded_between before stored after h)
  = Nat.min (length h + length before + 1 + length after) 50.
Proof.
  intros Hh. unfold recorded_between.
  rewrite record_all_length.
  - rewrite test_history_append_length by (rewrite record_all_length by done; lia).
    rewrite record_all_length by done. lia.
  - rewrite test_history_append_length by (rewrite record_all_length by done; lia).
    lia.
Qed.

Lemma recording_shared_step users duration now history w w' :
  recording_shared users duration now history w -> step_shared users w w' ->
  recording_shared users duration now history w'.
Proof.
  intros [Hu Hd Hs Hpc] [w1 Hstep|d0].
  - destruct Hstep as [i Hp Hi | i Hp Hi | j Hp Hj Hdur | j Hp Hj Hdur | j Hp Hj | now' Hp | Hp | Hp
                      | t uid clock Hl | t uid st o clock Hl | t block Hl Hlk
                      | t s rest Hl | t Hl];
      try (rewrite Hp in Hpc); try (split; simpl; done).
    + destruct Hpc as [(before & Hh) He].
      unfold store. destruct (to_dict (result w)) as [d|e] eqn:Ed; split; simpl; try done.
      split; [done|]. exists before, d, []. rewrite Hh. split; [done|].
      by apply lags_to_dict.
    + destruct Hpc as [He (before & stored & after & Hh & Hl)].
      unfold reply. destruct (to_dict (result w)) as [d|e] eqn:Ed; split; simpl; try done.
      pose proof (lags_to_dict _ _ Ed) as Hd'.
      split; [done|]. split; [done|]. exists before, stored, after.
      split; [done|]. split; [done|].
      destruct (to_dict_fields _ _ Ed) as (-> & -> & -> & _).
      destruct Hl as (? & ? & ? & _). done.
    + destruct (exec_grows s (result w)) as (_ & _ & _ & _ & Es & Ee & Eu & Ed).
      split; simpl; try congruence.
      destruct (pc w); try done.
      * by rewrite Ee.
      * destruct Hpc as [He (before & stored & after & Hh & Hl')]. rewrite Ee.
        split; [done|]. exists before, stored, after. split; [done|]. by apply lags_exec.
      * destruct Hpc as (He & Hd' & before & stored & after & Hh & Hl' & Hle). rewrite Ee.
        split; [done|]. split; [by apply lags_exec|].
        exists before, stored, after. split; [done|]. split; [by apply lags_exec|done].
  - split; simpl; try done.
    destruct (pc w); try done.
    + destruct Hpc as (before & ->). exists (before ++ [d0]). by rewrite record_all_snoc.
    + destruct Hpc as (before & ->). exists (before ++ [d0]). by rewrite record_all_snoc.
    + destruct Hpc as (before & ->). exists (before ++ [d0]). by rewrite record_all_snoc.
    + destruct Hpc as [(before & ->) He]. split; [|done].
      exists (before ++ [d0]). by rewrite record_all_snoc.
    + destruct Hpc as [He (before & stored & after & -> & Hl)]. split; [done|].
      exists before, stored, (after ++ [d0]). by rewrite recorded_between_snoc.
    + destruct Hpc as (He & Hd' & before & stored & after & -> & Hl & Hle).
      split; [done|]. split; [done|].
      exists before, stored, (after ++ [d0]). by rewrite recorded_between_snoc.
Qed.

Lemma recording_shared_reachable users duration now history w :
  reachable_shared users duration now history w ->
  recording_shared users duration now history w.
Proof.
  unfold reachable_shared. intros H.
  eapply (rtc_ind_r (R := step_shared users)
            (fun w => recording_shared users duration now history w)); [ | | exact H].
  - split; try done. by exists [].
  - intros ? ? _ ? ?. eapply recording_shared_step; eauto.
Qed.

(** The lock and the books are no concern of the other calls. *)
Lemma world_inv_shared_reachable users duration now history w :
  reachable_shared users duration now history w -> world_inv w.
Proof.
  unfold reachable_shared. intros H.
  eapply (rtc_ind_r (R := step_shared users) (fun w => world_inv w)); [ | | exact H].
  - apply world_inv_init.
  - intros w1 w2 _ [w' Hs|d0] Hi; [by eapply world_inv_step|].
    destruct Hi. by split.
Qed.

Lemma accounting_shared_reachable users duration now history w :
  reachable_shared users duration now history w -> accounting users w.
Proof.
  unfold reachable_shared. intros H.
  eapply (rtc_ind_r (R := step_shared users) (fun w => accounting users w));
    [ | | exact H].
  - apply accounting_init.
  - intros w1 w2 _ [w' Hs|d0] Hi; [by eapply accounting_step|].
    destruct Hi. by split.
Qed.

(** X5. A run records one snapshot.  Other calls of [run_load_test] may
    run beside this one and append to the shared history: until the handler
    stores its result the history is the one it found plus what the others
    appended ([before]); when the handler has returned [d] the history is
    that with one snapshot [stored] of this run appended, followed by what
    the others appended since ([after]), the oldest entries evicted at
    capacity, and [get_system_status] counts
    [min (len history + len before + 1 + len after) 50] tests.  Both [d]
    and [stored] carry the two inputs, the start time and the same end
    time; the counters of [stored] are at most those of [d].  When no other
    call appends during the run (second part), [before] and [after] are
    empty: the history is untouched until the store and is then the one
    found with [stored] appended. *)
Theorem run_load_test_records_once users duration now history w :
  reachable_shared users duration now history w ->
  match pc w with
  | Spawning _ | Joining _ | Finalizing | Storing =>
      exists before, test_history w = record_all before history
  | Replying =>
      exists before stored after,
        test_history w = recorded_between before stored after history
  | Returned d =>
      Dict.concurrent_users d = users /\
      Dict.test_duration d = duration /\
      Dict.start_time d = Some now /\
      is_Some (Dict.end_time d) /\
      exists before stored after,
        test_history w = recorded_between before stored after history /\
        Dict.concurrent_users stored = users /\
        Dict.test_duration stored = duration /\
        Dict.start_time stored = Some now /\
        Dict.end_time stored = Dict.end_time d /\
        Dict.total_requests stored <= Dict.total_requests d /\
        Dict.successful_requests stored <= Dict.successful_requests d /\
        Dict.failed_requests stored <= Dict.failed_requests d /\
        ((length history <= 50)%nat ->
         Status.tests_conducted (get_system_status now (test_history w))
         = Z.min (len history + len before + 1 + len after) 50)
  | Failed _ => True
  end /\
  (reachable users duration now history w ->
   match pc w with
   | Spawning _ | Joining _ | Finalizing | Storing => test_history w = history
   | Replying => exists stored, test_history w = test_history_append stored history
   | Returned d =>
       exists stored,
         test_history w = test_history_append stored history /\
         Dict.concurrent_users stored = users /\
         Dict.test_duration stored = duration /\
         Dict.start_time stored = Some now /\
         Dict.end_time stored = Dict.end_time d /\
         Dict.total_requests stored <= Dict.total_requests d /\
         Dict.successful_requests stored <= Dict.successful_requests d /\
         Dict.failed_requests stored <= Dict.failed_requests d /\
         ((length history <= 50)%nat ->
          Status.tests_conducted (get_system_status now (test_history w))
          = Z.min (len history + 1) 50)
   | Failed _ => True
   end).
Proof.
  intros Hrs. split.
  - destruct (recording_shared_reachable _ _ _ _ _ Hrs) as [Hu Hd Hs Hpc].
    destruct (pc w) as [i|j| | | |d|e]; try done.
    + by destruct Hpc.
    + destruct Hpc as [_ (before & stored & after & Hh & _)]. by exists before, stored, after.
    + destruct Hpc as (He & (_ & _ & _ & Ds & De & Du & Dd) & before & stored & after & Hh
                        & (_ & _ & _ & Ss & Se & Su & Sd) & Hle).
      split; [congruence|]. split; [congruence|]. split; [congruence|].
      split; [by rewrite De|].
      exists before, stored, after.
      split; [done|]. split; [congruence|]. split; [congruence|].
      split; [congruence|]. split; [congruence|].
      destruct Hle as (? & ? & ?). split; [done|]. split; [done|]. split; [done|].
      intros Hlen. simpl. rewrite Hh. unfold len.
      rewrite recorded_between_length by done. lia.
  - intros Hr. destruct (recording_reachable _ _ _ _ _ Hr) as [Hu Hd Hs Hpc].
    destruct (pc w) as [i|j| | | |d|e]; try done.
    + by destruct Hpc.
    + destruct Hpc as [_ (stored & Hh & _)]. by exists stored.
    + destruct Hpc as (He & (_ & _ & _ & Ds & De & Du & Dd) & stored & Hh
                        & (_ & _ & _ & Ss & Se & Su & Sd) & Hle).
      exists stored. split; [done|]. split; [congruence|]. split; [congruence|].
      split; [congruence|]. split; [congruence|].
      destruct Hle as (? & ? & ?). split; [done|]. split; [done|]. split; [done|].
      intros Hlen. simpl. rewrite Hh. unfold len.
      rewrite test_history_append_length by done. lia.
Qed.

(** ** Snapshots of a run at rest *)

Lemma all_exited_no_thread_step w t th :
  all_exited w -> threads w !! t = Some th -> th = Exited.
Proof.
  unfold all_exited. rewrite Forall_lookup. eauto.
Qed.

Lemma quiescent_step users r0 h0 w w' :
  quiescent r0 h0 w -> step users w w' -> quiescent r0 h0 w'.
Proof.
  intros [Hx Hr Hpc] Hstep.
  destruct Hstep as [i Hp Hi | i Hp Hi | j Hp Hj Hdur | j Hp Hj Hdur | j Hp Hj | now' Hp | Hp | Hp
                    | t uid clock Hl | t uid st o clock Hl | t block Hl Hlk
                    | t s rest Hl | t Hl];
    try (by rewrite Hp in Hpc);
    try (by pose proof (all_exited_no_thread_step _ _ _ Hx Hl)).
  - rewrite Hp in Hpc. unfold store. rewrite Hr.
    destruct (to_dict r0) as [d|e] eqn:Ed; split; simpl; try done.
    exists d. by rewrite Hpc.
  - rewrite Hp in Hpc. destruct Hpc as (d & Ed & Hh).
    unfold reply. rewrite Hr, Ed. split; simpl; done.
Qed.

Lemma quiescent_rtc users r0 h0 w w' :
  quiescent r0 h0 w -> rtc (step users) w w' -> quiescent r0 h0 w'.
Proof.
  intros Hq H. induction H as [w|w w1 w' Hs _ IH]; [done|].
  apply IH. by eapply quiescent_step.
Qed.

Lemma last_deque_append {A} n (x : A) d :
  (0 < n)%nat -> last (deque_append n x d) = Some x.
Proof.
  intros Hn. unfold deque_append.
  destruct (Nat.ltb_spec n (length (d ++ [x]))) as [Hlt|_]; [|by rewrite last_snoc].
  destruct d as [|y d]; [simpl in Hlt; lia|]. simpl. by rewrite last_snoc.
Qed.

Lemma quiescent_shared_step users r0 h0 w w' :
  quiescent_shared r0 h0 w -> step_shared users w w' -> quiescent_shared r0 h0 w'.
Proof.
  intros [Hx Hr Hpc] [w1 Hstep|d0].
  - destruct Hstep as [i Hp Hi | i Hp Hi | j Hp Hj Hdur | j Hp Hj Hdur | j Hp Hj | now' Hp | Hp | Hp
                      | t uid clock Hl | t uid st o clock Hl | t block Hl Hlk
                      | t s rest Hl | t Hl];
      try (by rewrite Hp in Hpc);
      try (by pose proof (all_exited_no_thread_step _ _ _ Hx Hl)).
    + rewrite Hp in Hpc. destruct Hpc as (before & Hh). unfold store. rewrite Hr.
      destruct (to_dict r0) as [d|e] eqn:Ed; split; simpl; try done.
      exists d, before, []. by rewrite Hh.
    + rewrite Hp in Hpc. destruct Hpc as (d & before & after & Ed & Hh).
      unfold reply. rewrite Hr, Ed. split; simpl; try done.
      split; [done|]. by exists before, after.
  - split; simpl; try done.
    destruct (pc w); try done.
    + destruct Hpc as (before & ->). exists (before ++ [d0]). by rewrite record_all_snoc.
    + destruct Hpc as (d & before & after & Ed & ->).
      exists d, before, (after ++ [d0]). by rewrite recorded_between_snoc.
    + destruct Hpc as (Ed & before & after & ->). split; [done|].
      exists before, (after ++ [d0]). by rewrite recorded_between_snoc.
Qed.

Lemma quiescent_shared_rtc users r0 h0 w w' :
  quiescent_shared r0 h0 w -> rtc (step_shared users) w w' -> quiescent_shared r0 h0 w'.
Proof.
  intros Hq H. induction H as [w|w w1 w' Hs _ IH]; [done|].
  apply IH. by eapply quiescent_shared_step.
Qed.

(** X6. When every virtual user has exited by the time the handler stores
    the result, the snapshot the handler returns is the snapshot of that
    result, its counters add up, and it reports one request per user:
    [total_requests = max 0 users].  It is the snapshot this run appends
    to the shared history, between what other calls of [run_load_test]
    appended before and after.  When no other call appends between the
    store and the return (last part), the history is the one the handler
    found at the store with that snapshot appended, and it is the last
    entry [get_test_history] shows. *)
Theorem quiescent_snapshot_stored users duration now history w0 w d :
  reachable_shared users duration now history w0 ->
  pc w0 = Storing -> all_exited w0 ->
  rtc (step_shared users) w0 w -> pc w = Returned d ->
  to_dict (result w0) = Return d /\
  Dict.total_requests d = Dict.successful_requests d + Dict.failed_requests d /\
  Dict.total_requests d = Z.max 0 users /\
  (exists before after,
     test_history w = recorded_between before d after (test_history w0)) /\
  (rtc (step users) w0 w ->
   test_history w = test_history_append d (test_history w0) /\
   last (get_test_history (test_history w)) = Some d /\
   (reachable users duration now history w0 ->
    test_history w = test_history_append d history)).
Proof.
  intros Hr0 Hp0 Hx0 Hrtc Hp.
  assert (Hq0 : quiescent_shared (result w0) (test_history w0) w0).
  { split; [done|done|]. rewrite Hp0. by exists []. }
  destruct (quiescent_shared_rtc _ _ _ _ _ Hq0 Hrtc) as [_ _ Hq]. rewrite Hp in Hq.
  destruct Hq as [Ed Hh].
  split; [done|].
  pose proof (world_inv_shared_reachable _ _ _ _ _ Hr0) as Hi.
  destruct (inv_free _ Hi (all_exited_free _ Hi Hx0)) as (Hc & _).
  destruct (accounting_shared_reachable _ _ _ _ _ Hr0) as [Ht _ _ _ _ _ Hsp].
  rewrite Hp0 in Hsp.
  assert (Ht' : total_requests (result w0) = Z.max 0 users).
  { unfold all_exited in Hx0. rewrite (owed_by_exited _ _ Hx0) in Ht. lia. }
  destruct (to_dict_fields _ _ Ed) as (Et & Es & Ef & _).
  split; [by rewrite Et, Es, Ef|]. split; [by rewrite Et|]. split; [done|].
  intros Hown.
  assert (Hq1 : quiescent (result w0) (test_history w0) w0).
  { split; [done|done|by rewrite Hp0]. }
  destruct (quiescent_rtc _ _ _ _ _ Hq1 Hown) as [_ _ Hq]. rewrite Hp in Hq.
  destruct Hq as [_ Hh1].
  split; [done|]. split.
  { unfold get_test_history. rewrite Hh1. unfold test_history_append.
    apply last_deque_append. unfold test_history_maxlen. lia. }
  intros Hr1.
  destruct (recording_reachable _ _ _ _ _ Hr1) as [_ _ _ Hrec]. rewrite Hp0 in Hrec.
  destruct Hrec as [Hh0 _]. by rewrite Hh1, Hh0.
Qed.

(** ** The handler does not raise *)








(** ** The aggregate report after a run *)

Lemma get_performance_metrics_returns (h : list Dict.t) :
  Forall wf_dict h -> len h < 2 ^ 53 ->
  exists r, get_performance_metrics h = Return r /\
            (r = None <-> h = []) /\
            (forall m, r = Some m -> Metrics.total_tests m = len h).
Proof.
  intros Hwf Hlen.
  destruct h as [|d0 h'] eqn:Eh; [by exists None|]. rewrite <- Eh in *.
  assert (Hne : h <> []) by (by rewrite Eh).
  assert (Hmean : forall g : Dict.t -> number,
             Forall (fun d => metric_value (g d)) h ->
             exists v, mean (g <$> h) = Return v).
  { intros g Hg.
    destruct (mean_metric_values (g <$> h)) as (v & Hv & _).
    - rewrite Eh. done.
    - by rewrite len_fmap.
    - by apply Forall_fmap.
    - by exists v. }
  destruct (Hmean Dict.success_rate) as (v1 & H1).
  { eapply Forall_impl; [exact Hwf|]. by intros d (? & _). }
  destruct (Hmean Dict.avg_response_time) as (v2 & H2).
  { eapply Forall_impl; [exact Hwf|]. by intros d (_ & ? & _). }
  destruct (Hmean Dict.requests_per_second) as (v3 & H3).
  { eapply Forall_impl; [exact Hwf|]. by intros d (_ & _ & ?). }
  assert (Hints : forall g : Dict.t -> Z,
             sum ((fun t => PyInt (g t)) <$> h) = Return (PyInt (Zsum (g <$> h)))).
  { intros g. unfold sum.
    change ((fun t => PyInt (g t)) <$> h) with ((PyInt ∘ g) <$> h).
    rewrite (list_fmap_compose g PyInt h). by rewrite sum_from_ints. }
  unfold mean in H1, H2, H3. rewrite !len_fmap in H1, H2, H3.
  assert (E : get_performance_metrics h =
    (s1 ← sum (Dict.success_rate <$> h);
     avg_success_rate ← truediv s1 (PyInt (len h));
     s2 ← sum (Dict.avg_response_time <$> h);
     avg_response_time ← truediv s2 (PyInt (len h));
     s3 ← sum (Dict.requests_per_second <$> h);
     avg_throughput ← truediv s3 (PyInt (len h));
     total_requests ← sum ((fun t => PyInt (Dict.total_requests t)) <$> h);
     total_successful ← sum ((fun t => PyInt (Dict.successful_requests t)) <$> h);
     total_failed ← sum ((fun t => PyInt (Dict.failed_requests t)) <$> h);
     Return (Some {| Metrics.total_tests := len h;
                     Metrics.avg_success_rate := avg_success_rate;
                     Metrics.avg_response_time := avg_response_time;
                     Metrics.avg_throughput := avg_throughput;
                     Metrics.total_requests := total_requests;
                     Metrics.total_successful := total_successful;
                     Metrics.total_failed := total_failed |})))
    by (by rewrite Eh).
  rewrite E. clear E.
  destruct (sum (Dict.success_rate <$> h)) as [s1|]; [|done].
  cbn [mbind py_bind] in *. rewrite H1. cbn [mbind py_bind].
  destruct (sum (Dict.avg_response_time <$> h)) as [s2|]; [|done].
  cbn [mbind py_bind] in *. rewrite H2. cbn [mbind py_bind].
  destruct (sum (Dict.requests_per_second <$> h)) as [s3|]; [|done].
  cbn [mbind py_bind] in *. rewrite H3. cbn [mbind py_bind].
  rewrite !Hints. cbn [mbind py_bind].
  eexists. split; [done|]. split.
  - split; [done|]. intros ->. done.
  - intros m [= <-]. done.
Qed.

(** X8. A run keeps the history well formed and within its 50 entries, and
    on the history a run leaves behind [get_performance_metrics] returns:
    the empty report when the history is empty, a report over
    [1 <= total_tests <= 50] runs otherwise.  No division by zero. *)
Theorem performance_metrics_after_run users duration now history w :
  Forall wf_dict history -> (length history <= 50)%nat ->
  reachable users duration now history w ->
  Forall wf_dict (test_history w) /\
  (length (test_history w) <= 50)%nat /\
  exists r,
    get_performance_metrics (test_history w) = Return r /\
    (r = None <-> test_history w = []) /\
    (forall m, r = Some m -> 1 <= Metrics.total_tests m <= 50).
Proof.
  intros Hwf Hlen Hr.
  destruct (history_inv_reachable _ _ _ _ _ Hwf Hlen Hr) as [Hwf' Hlen'].
  split; [done|]. split; [done|].
  assert (H53 : 50 < 2 ^ 53) by done.
  destruct (get_performance_metrics_returns (test_history w) Hwf')
    as (r & Er & Hnone & Hsome); [unfold len; lia|].
  exists r. split; [done|]. split; [done|].
  intros m ->. rewrite (Hsome m eq_refl). unfold len.
  destruct (test_history w) as [|d h] eqn:E.
  - destruct Hnone as [_ Hn]. by specialize (Hn eq_refl).
  - simpl length in *. lia.
Qed.

Lemma run_nsteps users evs w w' :
  run users evs w = Some w' -> nsteps (step users) (length evs) w w'.
Proof.
  revert w. induction evs as [|ev evs IH]; intros w H; simpl in H.
  - simplify_eq. constructor.
  - destruct (fire users ev w) as [w1|] eqn:Hf; [|done].
    eapply nsteps_l; [by eapply fire_sound | by apply IH].
Qed.

Lemma run_app users evs1 evs2 w :
  run users (evs1 ++ evs2) w = w1 ← run users evs1 w; run users evs2 w1.
Proof.
  revert w. induction evs1 as [|ev evs1 IH]; intros w; simpl; [done|].
  destruct (fire users ev w); [apply IH|done].
Qed.

Lemma complete_threads_run :
  run 1 complete_schedule_threads (run_load_test_init 1 30 0 []) = Some joined_world.
Proof. vm_compute. reflexivity. Qed.

Lemma complete_run :
  run 1 complete_schedule (run_load_test_init 1 30 0 []) = Some complete_world.
Proof. vm_compute. reflexivity. Qed.

Lemma complete_tail_run :
  run 1 [EStore; EReply] joined_world = Some complete_world.
Proof. vm_compute. reflexivity. Qed.

Lemma complete_world_reachable : reachable 1 30 0 [] complete_world.
Proof. eapply run_sound, complete_run. Qed.

Lemma complete_threads_reachable : reachable 1 30 0 [] joined_world.
Proof. eapply run_sound, complete_threads_run. Qed.

Lemma one_request_per_user_witness :
  total_requests (result complete_world) = 1.
Proof.
  destruct (one_request_per_user 1 30 0 [] _ complete_world_reachable)
    as (_ & _ & _ & _ & _ & _ & Hall & _).
  destruct Hall as [_ ->]; [|reflexivity].
  vm_compute. repeat constructor.
Defined.

Lemma results_only_grow_witness :
  total_requests (result (run_load_test_init 1 30 0 []))
    <= total_requests (result complete_world) /\
  response_times (result (run_load_test_init 1 30 0 []))
    `prefix_of` response_times (result complete_world).
Proof.
  destruct (results_only_grow 1 _ _ complete_world_reachable) as (H1 & _ & _ & H2 & _).
  split; [exact H1 | exact H2].
Defined.

Lemma run_load_test_terminates_witness :
  (length complete_schedule <= 9 * Z.to_nat 1 + 5)%nat /\
  length complete_schedule = (9 * Z.to_nat 1 + 5)%nat.
Proof.
  destruct (run_load_test_terminates 1 30 0 [] (length complete_schedule)
              complete_world
              (run_nsteps _ _ _ _ complete_run)) as [Hle Heq].
  split; [exact Hle|]. apply Heq.
  - vm_compute. eauto.
  - vm_compute. repeat constructor.
Defined.

Lemma complete_world_stuck w' : ~ step 1 complete_world w'.
Proof.
  assert (Hpc : exists d, pc complete_world = Returned d)
    by (vm_compute; eauto).
  assert (Hth : threads complete_world = [Exited])
    by (vm_compute; reflexivity).
  destruct Hpc as (d & Hpc).
  intros Hs.
  destruct Hs as [i Hp Hi | i Hp Hi | j Hp Hj Hdur | j Hp Hj Hdur | j Hp Hj | now' Hp | Hp | Hp
                 | t uid clock Hl | t uid st o clock Hl | t block Hl Hlk
                 | t s rest Hl | t Hl];
    try congruence; rewrite Hth in Hl; destruct t as [|[|t]]; done.
Qed.

Lemma run_load_test_no_deadlock_witness :
  all_exited complete_world.
Proof.
  apply (run_load_test_no_deadlock 1 30 0 [] _ complete_world_reachable
           complete_world_stuck).
Defined.

Lemma interrupted_reachable : reachable_shared 1 30 0 [] interrupted_world.
Proof.
  eapply rtc_r; [apply reachable_shared_own, complete_threads_reachable|].
  apply shared_other.
Qed.

Lemma interrupted_tail_run :
  run 1 [EStore; EReply] interrupted_world = Some shared_world.
Proof. vm_compute. reflexivity. Qed.

Lemma shared_world_reachable : reachable_shared 1 30 0 [] shared_world.
Proof.
  unfold reachable_shared. etrans; [apply interrupted_reachable|].
  eapply rtc_shared_own, run_sound, interrupted_tail_run.
Qed.

Lemma quiescent_snapshot_stored_witness :
  exists d, pc shared_world = Returned d /\
            Dict.total_requests d = 1 /\
            exists before after,
              test_history shared_world
              = recorded_between before d after [other_snapshot].
Proof.
  assert (Hpc : exists d, pc shared_world = Returned d)
    by (vm_compute; eauto).
  destruct Hpc as (d & Hpc). exists d. split; [exact Hpc|].
  destruct (quiescent_snapshot_stored 1 30 0 []
              interrupted_world shared_world d
              interrupted_reachable) as (_ & _ & Ht & Hh & _).
  - vm_compute. reflexivity.
  - vm_compute. repeat constructor.
  - eapply rtc_shared_own, run_sound, interrupted_tail_run.
  - exact Hpc.
  - split; [exact Ht | exact Hh].
Defined.


Lemma performance_metrics_after_run_witness :
  exists r, get_performance_metrics (test_history complete_world)
            = Return r.
Proof.
  destruct (performance_metrics_after_run 1 30 0 [] complete_world)
    as (_ & _ & r & Hr & _).
  - constructor.
  - simpl. lia.
  - exact complete_world_reachable.
  - exists r. exact Hr.
Defined.

Lemma run_load_test_records_once_witness :
  exists d, pc shared_world = Returned d /\
            Dict.concurrent_users d = 1 /\ Dict.test_duration d = 30 /\
            exists before stored after,
              test_history shared_world = recorded_between before stored after [] /\
              Status.tests_conducted (get_system_status 0 (test_history shared_world))
              = Z.min (len (@nil Dict.t) + len before + 1 + len after) 50.
Proof.
  destruct (run_load_test_records_once 1 30 0 [] _ shared_world_reachable) as [H _].
  assert (Hpc : exists d, pc shared_world = Returned d)
    by (vm_compute; eauto).
  destruct Hpc as (d & Hpc). rewrite Hpc in H.
  exists d. split; [exact Hpc|].
  destruct H as (Hu & Hd & _ & _ & before & stored & after & Hh & _ & _ & _ & _ & _ & _ & _ & Hn).
  split; [exact Hu|]. split; [exact Hd|].
  exists before, stored, after. split; [exact Hh|]. apply Hn. simpl. lia.
Defined.

(** ** A snapshot stored before a straggler's update *)

Lemma spawn_rest users r lk h (k : nat) : forall ts i,
  i + Z.of_nat k = users ->
  exists ts', length ts' = k /\
    rtc (step users) (mkWorld r lk ts (Spawning i) h)
                     (mkWorld r lk (ts ++ ts') (Spawning users) h).
Proof.
  induction k as [|k IH]; intros ts i Hi.
  - exists []. split; [done|]. rewrite app_nil_r.
    replace i with users by lia. apply rtc_refl.
  - destruct (IH (ts ++ [Started (i + 1)]) (i + 1) ltac:(lia)) as (ts' & Hl & Hr).
    exists (Started (i + 1) :: ts'). split; [simpl; lia|].
    eapply rtc_l; [|rewrite <- app_assoc in Hr; exact Hr].
    apply (step_spawn users (mkWorld r lk ts (Spawning i) h) i); [done|lia].
Qed.

Lemma join_all users r lk ts h (k : nat) : forall j,
  test_duration r + 5 <= TIMEOUT_MAX ->
  (j + k = length ts)%nat ->
  rtc (step users) (mkWorld r lk ts (Joining j) h)
                   (mkWorld r lk ts (Joining (length ts)) h).
Proof.
  induction k as [|k IH]; intros j Hd Hj.
  - replace j with (length ts) by lia. apply rtc_refl.
  - eapply rtc_l; [|apply (IH (S j)); [done|lia]].
    apply (step_join users (mkWorld r lk ts (Joining j) h) j); [done|simpl; lia|done].
Qed.

Lemma to_dict_one_request users duration now :
  to_dict (mkLoadTestResult 1 1 0 [250%float] (Some now) (Some now) users duration)
  = Return (one_request_run users duration now).
Proof.
  unfold to_dict, requests_per_second.
  cbn [start_time end_time total_requests]. rewrite Z.sub_diag.
  vm_compute. reflexivity.
Qed.

(** X9. The snapshot in the history need not be the one returned.  With at
    least one user and [duration <= -5] (so that [join] is given no time),
    there is a run in which the handler stores the snapshot of a result
    without any request, a user's thread then records its request, and the
    handler returns a snapshot counting that request. *)
Theorem stored_snapshot_can_lag users duration now history :
  1 <= users -> duration <= -5 ->
  exists w stored d,
    reachable users duration now history w /\
    pc w = Returned d /\
    test_history w = test_history_append stored history /\
    Dict.total_requests stored = 0 /\
    Dict.total_requests d = 1.
Proof.
  intros Hu Hd.
  set (r0 := mkLoadTestResult 0 0 0 [] (Some now) None users duration).
  set (r1 := mkLoadTestResult 0 0 0 [] (Some now) (Some now) users duration).
  set (stored := empty_run users duration (Some now) (Some now)).
  set (h1 := test_history_append stored history).
  destruct (spawn_rest users r0 false history (Z.to_nat (users - 1)) [Started 1] 1
              ltac:(lia)) as (ts & _ & Hspawn).
  set (th := [Started 1] ++ ts) in *.
  assert (E0 : th = Started 1 :: ts) by done.
  set (r2 := mkLoadTestResult 1 1 0 [250%float] (Some now) (Some now) users duration).
  exists (mkWorld r2 false (Exited :: ts) (Returned (one_request_run users duration now)) h1),
    stored, (one_request_run users duration now).
  split; [|split; [reflexivity|split; [reflexivity|split; reflexivity]]].
  unfold reachable.
  (* the first user is started *)
  eapply rtc_l.
  { apply (step_spawn users (run_load_test_init users duration now history) 0);
      [done|lia]. }
  (* the others *)
  etrans; [exact Hspawn|].
  eapply rtc_l.
  { apply (step_spawned users (mkWorld r0 false th (Spawning users) history) users);
      [done|lia]. }
  (* every join returns at once *)
  etrans; [apply (join_all users r0 false th history (length th) 0%nat);
             [simpl; unfold TIMEOUT_MAX; lia|lia]|].
  eapply rtc_l.
  { apply (step_joined users (mkWorld r0 false th (Joining (length th)) history)
             (length th)); [done|simpl; lia]. }
  eapply rtc_l.
  { apply (step_finalize users (mkWorld r0 false th Finalizing history) now). done. }
  (* the result is stored: no request yet *)
  eapply rtc_l.
  { apply (step_store users (mkWorld r1 false th Storing history)). done. }
  assert (Es : store (mkWorld r1 false th Storing history)
               = mkWorld r1 false th Replying h1).
  { unfold store. cbn [result]. by rewrite (to_dict_empty r1). }
  rewrite Es. rewrite E0. clear Es Hspawn E0 th.
  (* the first user's thread runs to its end *)
  set (blk := locked_block (Response 200) 250).
  eapply (rtc_l _ _ (mkWorld r1 false (Requesting 1 0 :: ts) Replying h1)).
  { by apply (step_begin users (mkWorld r1 false (Started 1 :: ts) Replying h1)
                0%nat 1 0%float). }
  eapply (rtc_l _ _ (mkWorld r1 false (Waiting blk :: ts) Replying h1)).
  { assert (Ems : ((0.25 - 0) * 1000)%float = 250%float) by (vm_compute; reflexivity).
    unfold blk. rewrite <- Ems.
    by apply (step_outcome users
                (mkWorld r1 false (Requesting 1 0 :: ts) Replying h1) 0%nat 1 0%float
                (Response 200) 0.25%float). }
  eapply (rtc_l _ _ (mkWorld r1 true (Holding blk :: ts) Replying h1)).
  { by apply (step_acquire users
                (mkWorld r1 false (Waiting blk :: ts) Replying h1) 0%nat blk). }
  eapply (rtc_l _ _ (mkWorld (mkLoadTestResult 1 0 0 [] (Some now) (Some now) users duration)
                       true (Holding [IncSuccessful; Append 250] :: ts) Replying h1)).
  { by apply (step_exec users (mkWorld r1 true (Holding blk :: ts) Replying h1)
                0%nat IncTotal [IncSuccessful; Append 250]). }
  eapply (rtc_l _ _ (mkWorld (mkLoadTestResult 1 1 0 [] (Some now) (Some now) users duration)
                       true (Holding [Append 250] :: ts) Replying h1)).
  { by apply (step_exec users
                (mkWorld (mkLoadTestResult 1 0 0 [] (Some now) (Some now) users duration)
                   true (Holding [IncSuccessful; Append 250] :: ts) Replying h1)
                0%nat IncSuccessful [Append 250]). }
  eapply (rtc_l _ _ (mkWorld r2 true (Holding [] :: ts) Replying h1)).
  { by apply (step_exec users
                (mkWorld (mkLoadTestResult 1 1 0 [] (Some now) (Some now) users duration)
                   true (Holding [Append 250] :: ts) Replying h1)
                0%nat (Append 250) []). }
  eapply (rtc_l _ _ (mkWorld r2 false (Exited :: ts) Replying h1)).
  { by apply (step_release users (mkWorld r2 true (Holding [] :: ts) Replying h1) 0%nat). }
  (* the handler returns *)
  eapply rtc_l; [|apply rtc_refl].
  assert (Er : reply (mkWorld r2 false (Exited :: ts) Replying h1)
               = mkWorld r2 false (Exited :: ts)
                   (Returned (one_request_run users duration now)) h1).
  { unfold reply. cbn [result]. unfold r2. by rewrite to_dict_one_request. }
  rewrite <- Er. by apply step_reply.
Qed.

Lemma stored_snapshot_can_lag_witness :
  exists w stored d,
    reachable 3 (-5) 0 [] w /\ pc w = Returned d /\
    test_history w = test_history_append stored [] /\
    Dict.total_requests stored = 0 /\ Dict.total_requests d = 1.
Proof. apply (stored_snapshot_can_lag 3 (-5) 0 []); lia. Defined.

(* ===================================================================== *)
(** * Order statistics: ranks and arrival order *)
(* ===================================================================== *)

Lemma eqb_key x y :
  is_nan x = false -> is_nan y = false -> (x =? y)%float = (key x =? key y).
Proof.
  intros Hx Hy. rewrite FloatAxioms.eqb_spec. unfold SFeqb.
  rewrite SFcompare_key.
  - by rewrite Z.eqb_compare.
  - apply Prim2SF_valid.
  - apply Prim2SF_valid.
  - by apply is_nan_spec.
  - by apply is_nan_spec.
Qed.

Lemma count_if_nonneg p xs : 0 <= count_if p xs.
Proof. induction xs as [|x xs IH]; simpl; [done|]. destruct (p x); lia. Qed.

Lemma count_if_le_len p xs : count_if p xs <= len xs.
Proof.
  unfold len. induction xs as [|x xs IH]; simpl length; simpl count_if; [done|].
  destruct (p x); lia.
Qed.

Lemma count_if_all p xs : Forall (fun x => p x = true) xs -> count_if p xs = len xs.
Proof.
  unfold len. induction 1 as [|x xs Hx _ IH]; simpl length; simpl count_if; [done|].
  rewrite Hx. lia.
Qed.

Lemma count_if_Permutation p xs ys :
  Permutation xs ys -> count_if p xs = count_if p ys.
Proof. induction 1; simpl; lia. Qed.

Lemma sorted_ranks l : forall i v,
  StronglySorted key_le l -> no_nan l -> l !! i = Some v ->
  Z.of_nat i + 1 <= count_if (fun x => (x <=? v)%float) l /\
  len l - Z.of_nat i <= count_if (fun x => (v <=? x)%float) l.
Proof.
  induction l as [|z l IH]; intros i v Hs Hn Hi; [done|].
  apply StronglySorted_inv in Hs as [Hs Hz].
  pose proof Hn as Hn'. apply Forall_cons in Hn' as [Hnz Hnl].
  destruct i as [|i]; simpl in Hi.
  - simplify_eq. split.
    + simpl count_if. rewrite leb_key by done. rewrite Z.leb_refl.
      pose proof (count_if_nonneg (fun x => (x <=? v)%float) l). lia.
    + rewrite count_if_all; [lia|].
      constructor.
      * rewrite leb_key by done. apply Z.leb_refl.
      * rewrite Forall_forall in Hz, Hnl. apply Forall_forall. intros x Hx.
        rewrite leb_key by auto. apply Z.leb_le. by apply Hz.
  - destruct (IH i v Hs Hnl Hi) as [H1 H2].
    assert (Hv : v ∈ l) by by eapply list_elem_of_lookup_2.
    assert (Hnv : is_nan v = false) by (rewrite Forall_forall in Hnl; auto).
    assert (Hzv : (z <=? v)%float = true).
    { rewrite leb_key by done. apply Z.leb_le.
      rewrite Forall_forall in Hz. by apply Hz. }
    simpl count_if. rewrite Hzv. unfold len in *. simpl length.
    destruct (v <=? z)%float; lia.
Qed.

Lemma percentile_ranks_at seq i :
  seq <> [] -> no_nan seq -> 0 <= i < len seq ->
  exists v,
    getitem (sorted seq) i = Return v /\ v ∈ seq /\
    i + 1 <= count_if (fun x => (x <=? v)%float) seq /\
    len seq - i <= count_if (fun x => (v <=? x)%float) seq.
Proof.
  intros Hne Hn Hi.
  destruct (percentile_value seq i Hne Hi) as (v & Hg & Hl & Hin).
  exists v. split; [done|]. split; [done|].
  assert (Hs : StronglySorted key_le (sorted seq)) by by apply sorted_StronglySorted.
  assert (Hn' : no_nan (sorted seq)).
  { eapply no_nan_Permutation; [|exact Hn]. symmetry. apply sorted_Permutation. }
  destruct (sorted_ranks _ _ _ Hs Hn' Hl) as [H1 H2].
  rewrite len_sorted in H2.
  rewrite (count_if_Permutation _ _ _ (sorted_Permutation seq)) in H1.
  rewrite (count_if_Permutation _ _ _ (sorted_Permutation seq)) in H2.
  rewrite Z2Nat.id in H1, H2 by lia. done.
Qed.

(** X10. What the two percentiles mean.  For a non-empty sequence of [n]
    latencies without NaN, [p95_response_time] is one of the latencies, at
    least [floor(19n/20) + 1] of the latencies (more than 95 % of them) are
    at most that value and at least [n - floor(19n/20)] (5 % or more) are
    at least that value; likewise [p99_response_time] with 99 % and 1 %.
    (Fewer than 2^47 latencies.) *)
Theorem percentile_ranks self :
  let xs := response_times self in
  let n := len xs in
  xs <> [] -> no_nan xs -> n < 2 ^ 47 ->
  exists p95 p99,
    p95_response_time self = Return (PyFloat p95) /\
    p99_response_time self = Return (PyFloat p99) /\
    19 * n / 20 + 1 <= count_if (fun x => (x <=? p95)%float) xs /\
    95 * n < 100 * count_if (fun x => (x <=? p95)%float) xs /\
    n - 19 * n / 20 <= count_if (fun x => (p95 <=? x)%float) xs /\
    5 * n <= 100 * count_if (fun x => (p95 <=? x)%float) xs /\
    99 * n / 100 + 1 <= count_if (fun x => (x <=? p99)%float) xs /\
    99 * n < 100 * count_if (fun x => (x <=? p99)%float) xs /\
    n - 99 * n / 100 <= count_if (fun x => (p99 <=? x)%float) xs /\
    n <= 100 * count_if (fun x => (p99 <=? x)%float) xs.
Proof.
  intros xs n Hne Hn Hlen.
  pose proof (len_pos _ Hne) as Hpos. fold xs n in Hpos.
  destruct (rank_bounds _ Hpos) as (Hb1 & Hb2).
  destruct (percentile_ranks_at xs (19 * n / 20) Hne Hn ltac:(lia))
    as (p95 & Hg95 & _ & Hle95 & Hge95).
  destruct (percentile_ranks_at xs (99 * n / 100) Hne Hn ltac:(lia))
    as (p99 & Hg99 & _ & Hle99 & Hge99).
  exists p95, p99.
  split; [rewrite p95_response_time_eq by done; fold xs n; by rewrite Hg95|].
  split; [rewrite p99_response_time_eq by done; fold xs n; by rewrite Hg99|].
  fold n in Hle95, Hge95, Hle99, Hge99.
  pose proof (Z.mul_div_le (19 * n) 20 ltac:(lia)).
  pose proof (Z.mul_succ_div_gt (19 * n) 20 ltac:(lia)).
  pose proof (Z.mul_div_le (99 * n) 100 ltac:(lia)).
  pose proof (Z.mul_succ_div_gt (99 * n) 100 ltac:(lia)).
  repeat split; lia.
Qed.

Lemma percentile_ranks_witness :
  exists p95,
    p95_response_time (latencies [30; 10; 50; 20; 40]%float) = Return (PyFloat p95) /\
    5 <= count_if (fun x => (x <=? p95)%float) [30; 10; 50; 20; 40]%float.
Proof.
  destruct (percentile_ranks (latencies [30; 10; 50; 20; 40]%float))
    as (p95 & p99 & H95 & _ & Hle & _).
  - discriminate.
  - repeat constructor.
  - vm_compute. reflexivity.
  - exists p95. split; [exact H95|]. exact Hle.
Defined.

(** ** Minimum and maximum *)

(** X11. On a non-empty sequence of latencies without NaN,
    [min_response_time] and [max_response_time] each return one of the
    latencies, and every latency lies between the two. *)
Theorem extremes_bound_every_latency self :
  response_times self <> [] -> no_nan (response_times self) ->
  exists mn mx,
    min_response_time self = Return (PyFloat mn) /\
    max_response_time self = Return (PyFloat mx) /\
    mn ∈ response_times self /\
    mx ∈ response_times self /\
    forall x, x ∈ response_times self ->
      (mn <=? x)%float = true /\ (x <=? mx)%float = true.
Proof.
  intros Hne Hn.
  destruct (response_times self) as [|x xs] eqn:E; [done|].
  destruct (min_spec x xs Hn) as (Hmin_in & Hmin).
  destruct (max_spec x xs Hn) as (Hmax_in & Hmax).
  exists (min x xs), (max x xs).
  split; [unfold min_response_time; by rewrite E|].
  split; [unfold max_response_time; by rewrite E|].
  split; [done|]. split; [done|].
  intros y Hy. rewrite Forall_forall in Hmin, Hmax.
  rewrite !leb_key by (eapply no_nan_elem; done).
  split; apply Z.leb_le; auto.
Qed.

Lemma extremes_bound_every_latency_witness :
  exists mn mx,
    min_response_time (latencies [3; 1; 2]%float) = Return (PyFloat mn) /\
    max_response_time (latencies [3; 1; 2]%float) = Return (PyFloat mx) /\
    (mn <=? 2)%float = true /\ (2 <=? mx)%float = true.
Proof.
  destruct (extremes_bound_every_latency (latencies [3; 1; 2]%float))
    as (mn & mx & Hmn & Hmx & _ & _ & Hall).
  - discriminate.
  - repeat constructor.
  - exists mn, mx. split; [exact Hmn|]. split; [exact Hmx|].
    apply (Hall 2%float). simpl. apply elem_of_cons. right.
    apply elem_of_cons. right. apply elem_of_cons. by left.
Defined.

(** ** Arrival order *)

Lemma key_sorted_unique xs ys :
  Permutation xs ys -> no_nan xs ->
  key <$> sorted xs = key <$> sorted ys.
Proof.
  intros Hp Hn.
  assert (Hn' : no_nan ys) by by eapply no_nan_Permutation.
  apply (StronglySorted_unique Z.le).
  - eapply (StronglySorted_fmap key key_le Z.le); [|by apply sorted_StronglySorted]. done.
  - eapply (StronglySorted_fmap key key_le Z.le); [|by apply sorted_StronglySorted]. done.
  - apply fmap_Permutation.
    by rewrite (sorted_Permutation xs), (sorted_Permutation ys).
Qed.

Lemma sorted_same_rank xs ys i a b :
  Permutation xs ys -> no_nan xs ->
  sorted xs !! i = Some a -> sorted ys !! i = Some b ->
  (a =? b)%float = true.
Proof.
  intros Hp Hn Ha Hb.
  assert (Hn' : no_nan ys) by by eapply no_nan_Permutation.
  assert (Hka : (key <$> sorted xs) !! i = Some (key a)) by by rewrite list_lookup_fmap, Ha.
  assert (Hkb : (key <$> sorted ys) !! i = Some (key b)) by by rewrite list_lookup_fmap, Hb.
  rewrite (key_sorted_unique xs ys Hp Hn) in Hka.
  assert (Ek : key a = key b) by congruence.
  assert (a ∈ xs).
  { rewrite <- (sorted_Permutation xs). by eapply list_elem_of_lookup_2. }
  assert (b ∈ ys).
  { rewrite <- (sorted_Permutation ys). by eapply list_elem_of_lookup_2. }
  rewrite eqb_key; [by apply Z.eqb_eq|by eapply (no_nan_elem xs)|by eapply (no_nan_elem ys)].
Qed.

Lemma percentile_same xs ys i :
  Permutation xs ys -> no_nan xs -> xs <> [] -> 0 <= i < len xs ->
  exists a b,
    getitem (sorted xs) i = Return a /\ getitem (sorted ys) i = Return b /\
    (a =? b)%float = true.
Proof.
  intros Hp Hn Hne Hi.
  assert (Hne' : ys <> []).
  { intros ->. apply Permutation_nil_r in Hp. done. }
  assert (El : len ys = len xs).
  { unfold len. by rewrite (Permutation_length Hp). }
  destruct (percentile_value xs i Hne Hi) as (a & Hga & Hla & _).
  destruct (percentile_value ys i Hne' ltac:(lia)) as (b & Hgb & Hlb & _).
  exists a, b. split; [done|]. split; [done|].
  by eapply sorted_same_rank.
Qed.

(** X12. The order in which the threads appended their latencies does not
    matter to the order statistics: two results holding the same latencies
    in different orders (none of them NaN) have equal minimum, maximum,
    p95 and p99 (equal as Python's [==] has it).
    (Fewer than 2^47 latencies.) *)
Theorem order_statistics_ignore_arrival_order self other :
  Permutation (response_times self) (response_times other) ->
  response_times self <> [] -> no_nan (response_times self) ->
  len (response_times self) < 2 ^ 47 ->
  (exists a b, min_response_time self = Return (PyFloat a) /\
               min_response_time other = Return (PyFloat b) /\
               (a =? b)%float = true) /\
  (exists a b, max_response_time self = Return (PyFloat a) /\
               max_response_time other = Return (PyFloat b) /\
               (a =? b)%float = true) /\
  (exists a b, p95_response_time self = Return (PyFloat a) /\
               p95_response_time other = Return (PyFloat b) /\
               (a =? b)%float = true) /\
  (exists a b, p99_response_time self = Return (PyFloat a) /\
               p99_response_time other = Return (PyFloat b) /\
               (a =? b)%float = true).
Proof.
  intros Hp Hne Hn Hlen.
  assert (Hn' : no_nan (response_times other)) by by eapply no_nan_Permutation.
  assert (Hne' : response_times other <> []).
  { intros E. rewrite E in Hp. apply Permutation_nil_r in Hp. done. }
  assert (El : len (response_times other) = len (response_times self)).
  { unfold len. by rewrite (Permutation_length Hp). }
  pose proof (len_pos _ Hne) as Hpos.
  destruct (rank_bounds _ Hpos) as (Hb1 & Hb2).
  split; [|split; [|split]].
  - destruct (response_times self) as [|x xs] eqn:E; [done|].
    destruct (response_times other) as [|y ys] eqn:E'; [done|].
    destruct (min_spec x xs Hn) as (Hin & Hall).
    destruct (min_spec y ys Hn') as (Hin' & Hall').
    exists (min x xs), (min y ys).
    split; [unfold min_response_time; by rewrite E|].
    split; [unfold min_response_time; by rewrite E'|].
    rewrite Forall_forall in Hall, Hall'.
    assert (key (min x xs) <= key (min y ys)) by (apply Hall; by rewrite Hp).
    assert (key (min y ys) <= key (min x xs)) by (apply Hall'; by rewrite <- Hp).
    rewrite eqb_key;
      [apply Z.eqb_eq; lia|by eapply no_nan_elem; [exact Hn|]
      |by eapply no_nan_elem; [exact Hn'|]].
  - destruct (response_times self) as [|x xs] eqn:E; [done|].
    destruct (response_times other) as [|y ys] eqn:E'; [done|].
    destruct (max_spec x xs Hn) as (Hin & Hall).
    destruct (max_spec y ys Hn') as (Hin' & Hall').
    exists (max x xs), (max y ys).
    split; [unfold max_response_time; by rewrite E|].
    split; [unfold max_response_time; by rewrite E'|].
    rewrite Forall_forall in Hall, Hall'.
    assert (key (max y ys) <= key (max x xs)) by (apply Hall; by rewrite Hp).
    assert (key (max x xs) <= key (max y ys)) by (apply Hall'; by rewrite <- Hp).
    rewrite eqb_key;
      [apply Z.eqb_eq; lia|by eapply no_nan_elem; [exact Hn|]
      |by eapply no_nan_elem; [exact Hn'|]].
  - destruct (percentile_same _ _ (19 * len (response_times self) / 20) Hp Hn Hne
                ltac:(lia)) as (a & b & Ha & Hb & Hab).
    exists a, b.
    rewrite !p95_response_time_eq by (done || lia). rewrite El, Ha, Hb. done.
  - destruct (percentile_same _ _ (99 * len (response_times self) / 100) Hp Hn Hne
                ltac:(lia)) as (a & b & Ha & Hb & Hab).
    exists a, b.
    rewrite !p99_response_time_eq by (done || lia). rewrite El, Ha, Hb. done.
Qed.

Lemma order_statistics_ignore_arrival_order_witness :
  exists a b,
    p95_response_time (latencies [3; 1; 2]%float) = Return (PyFloat a) /\
    p95_response_time (latencies [2; 3; 1]%float) = Return (PyFloat b) /\
    (a =? b)%float = true.
Proof.
  destruct (order_statistics_ignore_arrival_order
              (latencies [3; 1; 2]%float) (latencies [2; 3; 1]%float))
    as (_ & _ & H & _).
  - simpl. apply perm_trans with [1; 2; 3]%float.
    + apply perm_trans with [1; 3; 2]%float; [apply perm_swap|].
      apply perm_skip, perm_swap.
    + apply Permutation_sym. apply perm_trans with [2; 1; 3]%float.
      * apply perm_skip, perm_swap.
      * apply perm_swap.
  - discriminate.
  - repeat constructor.
  - vm_compute. reflexivity.
  - exact H.
Defined.

(* ===================================================================== *)
(** * The aggregate report: totals *)
(* ===================================================================== *)

Lemma Zsum_add (f g : Dict.t -> Z) (h : list Dict.t) :
  Zsum ((fun d => f d + g d) <$> h) = Zsum (f <$> h) + Zsum (g <$> h).
Proof. induction h as [|d h IH]; csimpl; [done|]. rewrite IH. lia. Qed.

Lemma Zsum_ext (f g : Dict.t -> Z) (h : list Dict.t) :
  Forall (fun d => f d = g d) h -> Zsum (f <$> h) = Zsum (g <$> h).
Proof. induction 1 as [|d h Hd _ IH]; csimpl; [done|]. by rewrite Hd, IH. Qed.

Lemma sum_ints (g : Dict.t -> Z) (h : list Dict.t) :
  sum ((fun t => PyInt (g t)) <$> h) = Return (PyInt (Zsum (g <$> h))).
Proof.
  unfold sum.
  change ((fun t => PyInt (g t)) <$> h) with ((PyInt ∘ g) <$> h).
  rewrite (list_fmap_compose g PyInt h). by rewrite sum_from_ints.
Qed.

Lemma get_performance_metrics_totals (history : list Dict.t) m :
  get_performance_metrics history = Return (Some m) ->
  Metrics.total_tests m = len history /\
  Metrics.total_requests m = PyInt (Zsum (Dict.total_requests <$> history)) /\
  Metrics.total_successful m = PyInt (Zsum (Dict.successful_requests <$> history)) /\
  Metrics.total_failed m = PyInt (Zsum (Dict.failed_requests <$> history)).
Proof.
  unfold get_performance_metrics. destruct history as [|d0 h]; [done|].
  set (history := d0 :: h). rewrite !sum_ints. intros H.
  py_bind_inv H. cbn [mbind py_bind] in H. injection H as <-. done.
Qed.

(** X13. Whenever the aggregate report is produced, each of its three
    totals is the plain sum over the history of the corresponding counter,
    and the totals add up as soon as the counters of every stored run do:
    [total_requests = total_successful + total_failed]. *)
Theorem performance_metrics_totals_add_up (history : list Dict.t) m :
  get_performance_metrics history = Return (Some m) ->
  Metrics.total_requests m = PyInt (Zsum (Dict.total_requests <$> history)) /\
  Metrics.total_successful m
    = PyInt (Zsum (Dict.successful_requests <$> history)) /\
  Metrics.total_failed m = PyInt (Zsum (Dict.failed_requests <$> history)) /\
  (Forall (fun d => Dict.total_requests d
                    = Dict.successful_requests d + Dict.failed_requests d) history ->
   Zsum (Dict.total_requests <$> history)
   = Zsum (Dict.successful_requests <$> history)
     + Zsum (Dict.failed_requests <$> history)).
Proof.
  intros Hm.
  destruct (get_performance_metrics_totals _ _ Hm) as (_ & Ht & Hs & Hf).
  split; [exact Ht|]. split; [exact Hs|]. split; [exact Hf|].
  intros Hall. rewrite <- Zsum_add. by apply Zsum_ext.
Qed.

Lemma performance_metrics_totals_add_up_witness :
  exists m,
    get_performance_metrics sample_history = Return (Some m) /\
    Metrics.total_requests m = PyInt 5 /\
    Metrics.total_successful m = PyInt 4 /\
    Metrics.total_failed m = PyInt 1.
Proof.
  assert (Hm : exists m, get_performance_metrics sample_history = Return (Some m))
    by (vm_compute; eauto).
  destruct Hm as (m & Hm).
  destruct (performance_metrics_totals_add_up sample_history m Hm)
    as (Ht & Hs & Hf & _).
  exists m. split; [exact Hm|]. split; [exact Ht|]. split; [exact Hs|exact Hf].
Defined.

(* ===================================================================== *)
(** * The gateway and the load tester *)
(* ===================================================================== *)

Lemma record_exchange_effect res x :
  total_requests (record_exchange res x) = total_requests res + 1 /\
  response_times (record_exchange res x)
    = response_times res ++ [ex_response_time_ms x] /\
  failed_requests (record_exchange res x)
    = failed_requests res + (if (ex_r x <? 0.05)%float then 1 else 0) /\
  successful_requests (record_exchange res x)
    = successful_requests res + (if (ex_r x <? 0.05)%float then 0 else 1).
Proof.
  unfold record_exchange, process_payment.
  destruct (ex_r x <? 0.05)%float; unfold record, run_block; simpl;
    repeat split; lia.
Qed.

(** X14. The load tester counts what the gateway simulated.  After the
    requests of any number of virtual users, each answered by
    [process_payment], [failed_requests] has grown by the number of
    answers for which the gateway drew [r < 0.05] (status 500),
    [successful_requests] by the number of the others (status 200), and
    one latency per request was appended in order. *)
Theorem gateway_failures_counted (result : LoadTestResult) (xs : list exchange) :
  let result' := fold_left record_exchange xs result in
  total_requests result' = total_requests result + len xs /\
  failed_requests result' = failed_requests result + simulated_failures xs /\
  successful_requests result'
    = successful_requests result + (len xs - simulated_failures xs) /\
  response_times result'
    = response_times result ++ (ex_response_time_ms <$> xs).
Proof.
  revert result. induction xs as [|x xs IH]; intros result.
  - simpl. unfold len. simpl. rewrite app_nil_r. repeat split; lia.
  - cbn zeta in *. cbn [fold_left].
    destruct (IH (record_exchange result x)) as (It & If & Is & Ir).
    destruct (record_exchange_effect result x) as (Et & Er & Ef & Es).
    rewrite It, If, Is, Ir, Et, Er, Ef, Es.
    unfold len. simpl length. cbn [simulated_failures]. csimpl.
    rewrite <- app_assoc. simpl.
    destruct (ex_r x <? 0.05)%float; repeat split; lia.
Qed.

(** ** Transaction identifiers *)

Lemma digit_below (x lo : N) :
  (10 * lo <= x < 100 * lo)%N -> (lo <= N.div x 10 < 10 * lo)%N.
Proof.
  intros Hx. split.
  - apply N.div_le_lower_bound; lia.
  - apply N.Div0.div_lt_upper_bound; lia.
Qed.

Lemma pretty_N_char_digit (x : N) :
  (x < 10)%N -> pretty_N_char x = digit_char (Z.of_N x).
Proof.
  intros Hx.
  assert (x = 0 \/ x = 1 \/ x = 2 \/ x = 3 \/ x = 4 \/ x = 5 \/ x = 6 \/
          x = 7 \/ x = 8 \/ x = 9)%N as H by lia.
  repeat destruct H as [->|H]; try reflexivity. by subst x.
Qed.

Lemma digit_split (x : N) :
  x = (10 * N.div x 10 + N.modulo x 10)%N /\ (N.modulo x 10 < 10)%N.
Proof.
  split; [apply N.div_mod; lia | apply N.mod_lt; lia].
Qed.

(** [str(n)] for a six-digit [n]: its six decimal digits. *)
Lemma pretty_six_digits (p : positive) :
  (100000 <= N.pos p <= 999999)%N ->
  exists d5 d4 d3 d2 d1 d0 : Z,
    1 <= d5 <= 9 /\ 0 <= d4 <= 9 /\ 0 <= d3 <= 9 /\ 0 <= d2 <= 9 /\
    0 <= d1 <= 9 /\ 0 <= d0 <= 9 /\
    Z.pos p = d5 * 100000 + d4 * 10000 + d3 * 1000 + d2 * 100 + d1 * 10 + d0 /\
    pretty (Z.pos p) = numeral [d5; d4; d3; d2; d1; d0].
Proof.
  intros Hp. unfold pretty, pretty_Z, pretty, pretty_positive, pretty, pretty_N.
  destruct (decide (N.pos p = 0%N)) as [|_]; [lia|].
  assert (Ep : Z.pos p = Z.of_N (N.pos p)) by done. rewrite Ep. clear Ep.
  set (x := N.pos p) in *.
  set (x1 := N.div x 10). set (x2 := N.div x1 10). set (x3 := N.div x2 10).
  set (x4 := N.div x3 10). set (x5 := N.div x4 10).
  pose proof (digit_below x 10000 ltac:(lia)) as H1. fold x1 in H1.
  pose proof (digit_below x1 1000 ltac:(lia)) as H2. fold x2 in H2.
  pose proof (digit_below x2 100 ltac:(lia)) as H3. fold x3 in H3.
  pose proof (digit_below x3 10 ltac:(lia)) as H4. fold x4 in H4.
  pose proof (digit_below x4 1 ltac:(lia)) as H5. fold x5 in H5.
  assert (H6 : N.div x5 10 = 0%N) by (apply N.div_small; lia).
  rewrite (pretty_N_go_step x) by lia. fold x1.
  rewrite (pretty_N_go_step x1) by lia. fold x2.
  rewrite (pretty_N_go_step x2) by lia. fold x3.
  rewrite (pretty_N_go_step x3) by lia. fold x4.
  rewrite (pretty_N_go_step x4) by lia. fold x5.
  rewrite (pretty_N_go_step x5) by lia.
  rewrite H6, pretty_N_go_0.
  destruct (digit_split x) as [E0 L0]. fold x1 in E0.
  destruct (digit_split x1) as [E1 L1]. fold x2 in E1.
  destruct (digit_split x2) as [E2 L2]. fold x3 in E2.
  destruct (digit_split x3) as [E3 L3]. fold x4 in E3.
  destruct (digit_split x4) as [E4 L4]. fold x5 in E4.
  destruct (digit_split x5) as [E5 L5]. rewrite H6 in E5.
  rewrite !pretty_N_char_digit by done.
  exists (Z.of_N (N.modulo x5 10)), (Z.of_N (N.modulo x4 10)),
    (Z.of_N (N.modulo x3 10)), (Z.of_N (N.modulo x2 10)),
    (Z.of_N (N.modulo x1 10)), (Z.of_N (N.modulo x 10)).
  repeat split; try lia; apply N2Z.is_nonneg.
Qed.

(** X15. The answer of the gateway.  The status code is 500 with status
    ["failed"] and no transaction identifier when [r < 0.05], and 200 with
    status ["success"] otherwise; the identifier of a processed payment is
    ["TXN"] followed by the six decimal digits [d5 .. d0] of the draw
    [n = d5 * 100000 + ... + d0] (nine characters in all), and two
    processed payments have the same identifier only if they drew the same
    [n]. *)
Theorem process_payment_answer (processing_time r : float) (n : Z) :
  100000 <= n <= 999999 ->
  let '(body, code) := process_payment processing_time r n in
  Payment.processing_time body = processing_time /\
  ((r <? 0.05)%float = true ->
   code = 500 /\ Payment.status body = "failed" /\
   Payment.transaction_id body = None) /\
  ((r <? 0.05)%float = false ->
   code = 200 /\ Payment.status body = "success" /\
   (exists d5 d4 d3 d2 d1 d0 : Z,
      1 <= d5 <= 9 /\ 0 <= d4 <= 9 /\ 0 <= d3 <= 9 /\ 0 <= d2 <= 9 /\
      0 <= d1 <= 9 /\ 0 <= d0 <= 9 /\
      n = d5 * 100000 + d4 * 10000 + d3 * 1000 + d2 * 100 + d1 * 10 + d0 /\
      Payment.transaction_id body
        = Some ("TXN" +:+ numeral [d5; d4; d3; d2; d1; d0])) /\
   (exists id, Payment.transaction_id body = Some id /\ String.length id = 9%nat) /\
   forall processing_time' r' n' body' code',
     process_payment processing_time' r' n' = (body', code') ->
     Payment.transaction_id body' = Payment.transaction_id body ->
     n' = n).
Proof.
  intros Hn. unfold process_payment.
  destruct (r <? 0.05)%float eqn:Er; cbn [Payment.processing_time Payment.status
    Payment.transaction_id].
  - split; [done|]. split; [done|]. done.
  - split; [done|]. split; [done|]. intros _. split; [done|]. split; [done|].
    destruct n as [|p|p]; try lia.
    destruct (pretty_six_digits p ltac:(lia))
      as (d5 & d4 & d3 & d2 & d1 & d0 & H5 & H4 & H3 & H2 & H1 & H0 & En & Ep).
    split; [|split].
    + exists d5, d4, d3, d2, d1, d0. rewrite Ep. repeat split; lia || done.
    + eexists. split; [done|]. rewrite Ep. reflexivity.
    + intros pt' r' n' body' code' E Hid.
      destruct (r' <? 0.05)%float; injection E as <- <-;
        cbn [Payment.transaction_id] in Hid; [done|].
      injection Hid as Hid. by apply (inj pretty).
Qed.

Lemma process_payment_answer_witness :
  snd (process_payment 0.25 0.5 123456) = 200 /\
  exists d5 d4 d3 d2 d1 d0 : Z,
    123456 = d5 * 100000 + d4 * 10000 + d3 * 1000 + d2 * 100 + d1 * 10 + d0 /\
    Payment.transaction_id (fst (process_payment 0.25 0.5 123456))
    = Some ("TXN" +:+ numeral [d5; d4; d3; d2; d1; d0]).
Proof.
  pose proof (process_payment_answer 0.25 0.5 123456 ltac:(lia)) as H.
  destruct (process_payment 0.25 0.5 123456) as [body code] eqn:E.
  destruct H as (_ & _ & H). destruct H as (Hc & _ & Hd & _); [reflexivity|].
  split; [exact Hc|].
  destruct Hd as (d5 & d4 & d3 & d2 & d1 & d0 & _ & _ & _ & _ & _ & _ & En & Eid).
  exists d5, d4, d3, d2, d1, d0. split; [exact En|exact Eid].
Defined.

(* ===================================================================== *)
(** * [success_rate]: the two ends of the scale *)
(* ===================================================================== *)

(** Rounding to nearest stays below a value that is less than half a step
    above [c]. *)
Lemma rne_le_half N D c : 0 < D -> 2 * N < (2 * c + 1) * D -> rne N D <= c.
Proof.
  intros HD Hlt. pose proof (rne_nearest N D HD) as Hn.
  destruct (Z.le_gt_cases (rne N D) c) as [|Hgt]; [done|exfalso].
  assert (H1 : (c + 1) * D <= rne N D * D)
    by (apply Z.mul_le_mono_nonneg_r; lia).
  lia.
Qed.

(** The quotient [a / b] of two integers [0 < a < b < 2^53]: a binary64
    value with a full mantissa, at most [1 - 2^-53]. *)
Lemma int_truediv_proper (a b : positive) :
  Z.pos a < Z.pos b -> Z.pos b < 2 ^ 53 ->
  exists m E,
    SFdiv prec emax (S754_finite false a 0) (S754_finite false b 0)
      = pack false m E /\
    valid_binary (pack false m E) = true /\
    2 ^ 52 <= m <= 2 ^ 53 /\ -106 <= E <= -53 /\
    m * 2 ^ 53 <= (2 ^ 53 - 1) * 2 ^ (- E).
Proof.
  intros Hab Hb.
  destruct (SFdiv_int false a b) as (Eq & Hv & Hs & Hk & HE).
  set (s := div_shift (Z.pos a) (Z.pos b)) in *.
  set (q := Z.pos a * 2 ^ s / Z.pos b) in *.
  set (k := Z.max 0 (fexp prec emax (Zdigits2 q - s) + s)) in *.
  destruct (Zdigits2_bounds (Z.pos a) ltac:(lia)) as (Hda0 & Hal & Hau).
  destruct (Zdigits2_bounds (Z.pos b) ltac:(lia)) as (Hdb0 & Hbl & Hbu).
  pose proof (Zdigits2_mono (Z.pos a) (Z.pos b) ltac:(lia)) as Hdab.
  pose proof (Zdigits2_le_pow (Z.pos b) 53 ltac:(lia) ltac:(lia)) as Hdb.
  set (da := Zdigits2 (Z.pos a)) in *. set (db := Zdigits2 (Z.pos b)) in *.
  assert (Es : s = 53 + db - da).
  { subst s. unfold div_shift. rewrite fexp64. fold da db. lia. }
  assert (Hps : 0 < 2 ^ s) by (apply Z.pow_pos_nonneg; lia).
  assert (Hp53 : 2 ^ (s - 53) * 2 ^ 53 = 2 ^ s).
  { rewrite <- Z.pow_add_r by lia. f_equal. lia. }
  (* the quotient has 53 or 54 digits *)
  assert (Hqs : q < 2 ^ s).
  { apply Z.div_lt_upper_bound; [lia|].
    apply Z.mul_lt_mono_pos_r; lia. }
  assert (Hq54 : q < 2 ^ 54).
  { apply Z.div_lt_upper_bound; [lia|].
    assert (E1 : 2 ^ da * 2 ^ s = 2 ^ (db - 1) * 2 ^ 54).
    { rewrite <- !Z.pow_add_r by lia. f_equal. lia. }
    assert (Z.pos a * 2 ^ s < 2 ^ da * 2 ^ s) by (apply Z.mul_lt_mono_pos_r; lia).
    assert (2 ^ (db - 1) * 2 ^ 54 <= Z.pos b * 2 ^ 54)
      by (apply Z.mul_le_mono_nonneg_r; lia).
    lia. }
  assert (Hq52 : 2 ^ 52 <= q).
  { apply Z.div_le_lower_bound; [lia|].
    assert (E1 : 2 ^ db * 2 ^ 52 = 2 ^ (da - 1) * 2 ^ s).
    { rewrite <- !Z.pow_add_r by lia. f_equal. lia. }
    assert (Z.pos b * 2 ^ 52 <= 2 ^ db * 2 ^ 52)
      by (apply Z.mul_le_mono_nonneg_r; lia).
    assert (2 ^ (da - 1) * 2 ^ s <= Z.pos a * 2 ^ s)
      by (apply Z.mul_le_mono_nonneg_r; lia).
    lia. }
  pose proof (Zdigits2_ge_pow q 52 ltac:(lia) Hq52) as Hdq1.
  pose proof (Zdigits2_le_pow q 54 ltac:(lia) ltac:(lia)) as Hdq2.
  assert (Hq0 : 0 < q) by lia.
  destruct (Zdigits2_bounds q Hq0) as (_ & Hql & Hqu).
  set (dq := Zdigits2 q) in *.
  assert (Ek : k = dq - 53) by (subst k; rewrite fexp64; lia).
  assert (Hsk : 53 <= s - k).
  { destruct (decide (da = db)) as [Ed|Hne]; [|lia].
    assert (s = 53) by lia.
    assert (dq <= 53); [|lia].
    apply Zdigits2_le_pow; [lia|]. split; [lia|]. by replace 53 with s by lia. }
  assert (Hpk : 0 < 2 ^ k) by (apply Z.pow_pos_nonneg; lia).
  exists (rne (Z.pos a * 2 ^ s) (Z.pos b * 2 ^ k)), (k - s).
  split; [done|]. split; [by rewrite <- Eq|].
  assert (HD : 0 < Z.pos b * 2 ^ k) by lia.
  split; [split|].
  - apply rne_ge; [done|].
    replace (2 ^ 52 * (Z.pos b * 2 ^ k)) with (Z.pos b * (2 ^ 52 * 2 ^ k)) by ring.
    rewrite <- Z.pow_add_r by lia. replace (52 + k) with (dq - 1) by lia.
    pose proof (Z.mul_div_le (Z.pos a * 2 ^ s) (Z.pos b) ltac:(lia)) as Hdiv.
    fold q in Hdiv.
    assert (Z.pos b * 2 ^ (dq - 1) <= Z.pos b * q)
      by (apply Z.mul_le_mono_nonneg_l; lia).
    lia.
  - apply rne_range_div; try lia. fold q. fold dq. lia.
  - split; [lia|].
    replace (- (k - s)) with (s - k) by lia.
    assert (Hc : rne (Z.pos a * 2 ^ s) (Z.pos b * 2 ^ k)
                 <= (2 ^ 53 - 1) * 2 ^ (s - k - 53)).
    { apply rne_le; [done|].
      replace ((2 ^ 53 - 1) * 2 ^ (s - k - 53) * (Z.pos b * 2 ^ k))
        with ((2 ^ 53 - 1) * Z.pos b * (2 ^ (s - k - 53) * 2 ^ k)) by ring.
      rewrite <- Z.pow_add_r by lia. replace (s - k - 53 + k) with (s - 53) by lia.
      rewrite <- Hp53.
      replace (Z.pos a * (2 ^ (s - 53) * 2 ^ 53))
        with (Z.pos a * 2 ^ 53 * 2 ^ (s - 53)) by ring.
      apply Z.mul_le_mono_nonneg_r; [apply Z.pow_nonneg; lia|].
      change (2 ^ 53) with 9007199254740992 in *. lia. }
    assert (E2 : 2 ^ (s - k - 53) * 2 ^ 53 = 2 ^ (s - k)).
    { rewrite <- Z.pow_add_r by lia. f_equal. lia. }
    rewrite <- E2.
    replace ((2 ^ 53 - 1) * (2 ^ (s - k - 53) * 2 ^ 53))
      with ((2 ^ 53 - 1) * 2 ^ (s - k - 53) * 2 ^ 53) by ring.
    apply Z.mul_le_mono_nonneg_r; [done|exact Hc].
Qed.

(** Such a quotient, times 100, is a positive value below 100. *)
Lemma percent_of_proper_ratio (q : float) m E :
  Prim2SF q = pack false m E -> valid_binary (pack false m E) = true ->
  2 ^ 52 <= m <= 2 ^ 53 -> -106 <= E <= -53 ->
  m * 2 ^ 53 <= (2 ^ 53 - 1) * 2 ^ (- E) ->
  is_nan (q * 100)%float = false /\
  0 < key (q * 100)%float < key 100%float.
Proof.
  intros Eq Hv Hm HE Hle.
  assert (E100 : Prim2SF 100 = S754_finite false 7036874417766400 (-46)) by reflexivity.
  assert (K100 : key 100 = (-46 + 1075) * 2 ^ 53 + 7036874417766400) by reflexivity.
  rewrite is_nan_spec. unfold key at 1 2. rewrite mul_spec, Eq, E100, K100.
  assert (H53 : 2 ^ 53 = 9007199254740992) by reflexivity.
  assert (H52 : 2 ^ 52 = 4503599627370496) by reflexivity.
  destruct (pack_cases false m E ltac:(lia) ltac:(lia)) as [[-> Ep]|(mp & ep & Ep & Hc)];
    [lia|].
  rewrite Ep in *. apply valid_finite_bounds in Hv as (Hv1 & Hv2 & Hv3).
  assert (Hval : 2 ^ 52 <= Z.pos mp /\ -106 <= ep <= -53 /\
                 Z.pos mp * 2 ^ 53 <= (2 ^ 53 - 1) * 2 ^ (- ep)).
  { destruct Hc as [(Em & -> & _)|(-> & Emp & ->)].
    { rewrite Em. split; [lia|]. split; [lia|done]. }
    rewrite Emp.
    assert (Hlt : 2 ^ 53 < 2 ^ (- E)).
    { assert (0 < 2 ^ (- E)) by (apply Z.pow_pos_nonneg; lia).
      rewrite H53 in *. lia. }
    apply Z.pow_lt_mono_r_iff in Hlt; [|lia|lia].
    assert (E2 : 2 ^ (- E) = 2 * 2 ^ (- (E + 1))).
    { change 2 with (2 ^ 1) at 2. rewrite <- Z.pow_add_r by lia. f_equal. lia. }
    rewrite E2 in Hle.
    assert (0 < 2 ^ (- (E + 1))) by (apply Z.pow_pos_nonneg; lia).
    rewrite H53, H52 in *. lia. }
  destruct Hval as (Hmp & Hep & Hprop). clear Hc Ep Hm Hle HE.
  unfold SF64mul, SFmul. cbn [xorb].
  set (M := 7036874417766400).
  set (P := Z.pos (mp * 7036874417766400)).
  assert (EP : P = Z.pos mp * M) by (subst P M; lia).
  assert (HP0 : 0 < P) by lia.
  rewrite (binary_round_aux_correct false P (ep + -46) loc_Exact P 1)
    by (lia || apply represents_exact).
  rewrite Z.mul_1_l.
  set (k := Z.max 0 (fexp prec emax (Zdigits2 P + (ep + -46)) - (ep + -46))).
  assert (HdP : 105 <= Zdigits2 P <= 106).
  { split.
    - apply (Zdigits2_ge_pow P 104); [lia|].
      change (2 ^ 104) with (4503599627370496 * 4503599627370496).
      rewrite EP, H52 in *. subst M. nia.
    - apply Zdigits2_le_pow; [lia|]. split; [lia|].
      change (2 ^ 106) with (9007199254740992 * 9007199254740992).
      rewrite EP, H53 in *. subst M. nia. }
  destruct (Zdigits2_bounds P HP0) as (_ & HPl & HPu).
  assert (Ek : k = Zdigits2 P - 53) by (subst k; rewrite fexp64; lia).
  assert (Hpk : 0 < 2 ^ k) by (apply Z.pow_pos_nonneg; lia).
  pose proof (exact_round_range P k ltac:(lia) ltac:(lia) ltac:(lia)) as Hr.
  assert (Hr52 : 2 ^ 52 <= rne P (2 ^ k)).
  { apply rne_ge; [done|]. rewrite <- Z.pow_add_r by lia.
    replace (52 + k) with (Zdigits2 P - 1) by lia. lia. }
  set (r := rne P (2 ^ k)) in *.
  set (E' := ep + -46 + k).
  assert (HE' : -100 <= E' <= -46) by (subst E'; lia).
  split.
  { destruct (pack_cases false r E' ltac:(lia) ltac:(lia))
      as [[_ ->]|(? & ? & -> & _)]; done. }
  split.
  { destruct (pack_cases false r E' ltac:(lia) ltac:(lia))
      as [[Hz _]|(mp' & ep' & -> & Hc)]; [lia|].
    cbn [SFkey cond_Zopp]. rewrite H53.
    destruct Hc as [(_ & -> & _)|(_ & _ & ->)]; lia. }
  assert (Hkey : SFkey (pack false r E') <= (-46 + 1075) * 2 ^ 53 + (M - 1));
    [|subst M; lia].
  apply SFkey_pack_le; try lia.
  destruct (decide (E' = -46)) as [E46|Hne].
  - rewrite E46. change (2 ^ (-46 - -46)) with 1. rewrite Z.mul_1_r.
    apply rne_le_half; [done|].
    assert (Ekep : - ep = k) by (subst E'; lia).
    rewrite Ekep in Hprop. rewrite EP.
    rewrite H53 in Hprop. subst M. lia.
  - assert (Hp : 2 * 1 <= 2 ^ (-46 - E')).
    { change (2 * 1) with (2 ^ 1). apply Z.pow_le_mono_r; lia. }
    subst M. rewrite H53 in *. lia.
Qed.

Lemma success_rate_proper (a b : positive) :
  Z.pos a < Z.pos b -> Z.pos b < 2 ^ 53 ->
  exists f, (q ← truediv (PyInt (Z.pos a)) (PyInt (Z.pos b)); mul q (PyInt 100))
            = Return (PyFloat f) /\
            (0 <? f)%float = true /\ (f <? 100)%float = true.
Proof.
  intros Hab Hb.
  destruct (int_truediv_proper a b Hab Hb) as (m & E & EQ & Hv & Hm & HE & Hle).
  assert (Hq : int_truediv (Z.pos a) (Z.pos b) = Return (SF2Prim (pack false m E))).
  { unfold int_truediv. cbn [Z.eqb Z2SF]. rewrite EQ.
    destruct (pack_cases false m E ltac:(lia) ltac:(lia))
      as [[_ ->]|(? & ? & -> & _)]; done. }
  unfold truediv. rewrite Hq. cbn [fmap py_fmap mbind py_bind].
  unfold mul. cbn [as_float mbind py_bind].
  assert (E100 : float_of_int 100 = Return 100%float) by reflexivity.
  rewrite E100. cbn [mbind py_bind].
  eexists. split; [done|].
  destruct (percent_of_proper_ratio (SF2Prim (pack false m E)) m E)
    as (Hn & Hk0 & Hk1); try done.
  { by apply SF2Prim_pack. }
  rewrite !ltb_key by done.
  split; apply Z.ltb_lt; [|done]. by change (key 0) with 0.
Qed.

(** All requests succeeded: the quotient is exactly 1. *)
Lemma success_rate_all (a : positive) :
  (q ← truediv (PyInt (Z.pos a)) (PyInt (Z.pos a)); mul q (PyInt 100))
  = Return (PyFloat 100).
Proof.
  destruct (SFdiv_int false a a) as (Eq & _).
  assert (Es : div_shift (Z.pos a) (Z.pos a) = 53).
  { unfold div_shift. rewrite Z.sub_diag. reflexivity. }
  rewrite Es in Eq.
  assert (Eqq : Z.pos a * 2 ^ 53 / Z.pos a = 2 ^ 53).
  { rewrite Z.mul_comm. apply Z.div_mul. lia. }
  rewrite Eqq in Eq.
  change (Z.max 0 (fexp prec emax (Zdigits2 (2 ^ 53) - 53) + 53)) with 1 in Eq.
  assert (Er : rne (Z.pos a * 2 ^ 53) (Z.pos a * 2 ^ 1) = 2 ^ 52).
  { replace (Z.pos a * 2 ^ 53) with (2 ^ 52 * (Z.pos a * 2 ^ 1))
      by (change (2 ^ 53) with (2 ^ 52 * 2 ^ 1); ring).
    rewrite rne_exact.
    - apply Z.div_mul. lia.
    - lia.
    - apply Z.mod_mul. lia. }
  rewrite Er in Eq.
  unfold truediv, int_truediv. cbn [Z.eqb Z2SF]. rewrite Eq.
  reflexivity.
Qed.

(** X16. The two ends of the scale.  With [0 <= successful <= total] and
    [0 < total < 2^53], [success_rate] is the float 100.0 exactly when
    every request succeeded and the float 0.0 exactly when none did; in
    between it is strictly between 0 and 100. *)
Theorem success_rate_extremes self :
  0 <= successful_requests self <= total_requests self ->
  0 < total_requests self < 2 ^ 53 ->
  exists f,
    success_rate self = Return (PyFloat f) /\
    (successful_requests self = 0 -> f = 0%float) /\
    (0 < successful_requests self -> (0 <? f)%float = true) /\
    (successful_requests self < total_requests self -> (f <? 100)%float = true) /\
    (successful_requests self = total_requests self -> f = 100%float).
Proof.
  intros Hs Ht. unfold success_rate.
  destruct (Z.ltb_spec 0 (total_requests self)) as [_|]; [|lia].
  destruct (total_requests self) as [|b|b] eqn:Et; try lia.
  destruct (successful_requests self) as [|a|a] eqn:Es; try lia.
  - exists 0%float. split; [reflexivity|]. split; [done|]. split; [lia|].
    split; [reflexivity|lia].
  - destruct (decide (a = b)) as [->|Hne].
    + exists 100%float. split; [apply success_rate_all|].
      split; [lia|]. split; [reflexivity|]. split; [lia|done].
    + assert (Hab : Z.pos a < Z.pos b) by lia.
      destruct (success_rate_proper a b Hab ltac:(lia)) as (f & Hf & H0 & H100).
      exists f. split; [done|]. split; [lia|]. split; [done|]. split; [done|lia].
Qed.

Lemma success_rate_extremes_witness :
  success_rate (set_total_requests 7 (set_successful_requests 7 LoadTestResult__init__))
  = Return (PyFloat 100).
Proof.
  destruct (success_rate_extremes
              (set_total_requests 7 (set_successful_requests 7 LoadTestResult__init__)))
    as (f & Hf & _ & _ & _ & H100).
  - simpl. lia.
  - simpl. lia.
  - rewrite Hf, H100; reflexivity.
Defined.
